(** * The polling loops of the Leonardo command-line client

    A shallow embedding of the three waiting operations of
    [LeonardoClient] in [leonardo_cli.py]:

      - [wait_for_generation]         (lines 175-209),
      - [wait_for_motion_generation]  (lines 288-322),
      - [wait_for_variation]          (lines 347-381),

    together with the status requests they issue ([get_generation],
    [get_motion_generation], [get_variation]).

    The Python code reads the wall clock, sleeps, performs HTTP requests,
    updates a progress display, and uses exceptions both to report failure
    and (through [try]/[except]) to recover from it.  All of that is made
    explicit here:

      - the clock is a counter of milliseconds held in the [world];
      - the network is an oracle [net : nat -> response] giving, for the
        i-th request of the run, how long it takes and what comes back;
      - progress updates, requests and sleeps are appended to a [trace];
      - a computation is a function from worlds to a result and a world,
        where a result is a value, a raised exception or exhausted fuel.

    Modelling conventions.  A request takes the time the oracle says;
    [time.sleep(n)] takes exactly [n] seconds; every other statement takes
    no time.  A response body that is not a JSON object makes the
    [.get("status", "")] call raise inside the same [try] block as the
    request itself, so such a response is represented as a raising one.

    In this world every request comes back and the clock only moves
    forward.  The module [Wall] further down holds the same three
    operations over an environment in which a request may never come back
    and the wall clock may be set back; statements about coming to an end
    and about the order of the elapsed times are made there. *)

From Stdlib Require Import ZArith List Lia Ascii String DecimalString Sorting.Sorted.
From Stdlib Require Import Floats.
From stdpp Require Import gmap strings.
Import ListNotations.

Local Open Scope string_scope.
Local Open Scope Z_scope.

(** ** Python values and dictionaries *)

(** A value found in a decoded JSON object.  Only strings are ever compared
    with a literal by the code; every other value is kept as the text
    [str()] gives for it. *)
Inductive pyval : Type :=
  | PStr (s : string)
  | POther (repr : string).

(** [dict.get(key, default)] *)
Definition dict_get (d : gmap string pyval) (key : string) (dflt : pyval) : pyval :=
  match d !! key with
  | Some v => v
  | None => dflt
  end.

(** [value == "literal"] *)
Definition py_eq_str (v : pyval) (lit : string) : bool :=
  match v with
  | PStr s => String.eqb s lit
  | POther _ => false
  end.

(** [str(value)], as an f-string placeholder renders it *)
Definition py_str (v : pyval) : string :=
  match v with
  | PStr s => s
  | POther repr => repr
  end.

(** An integer inside an f-string. *)
Definition str_of_int (z : Z) : string := NilZero.string_of_int (Z.to_int z).

(** [str.capitalize()] on ASCII text: first letter upper case, the others
    lower case. *)
Definition upper_ascii (c : ascii) : ascii :=
  let n := Ascii.nat_of_ascii c in
  if (Nat.leb 97 n && Nat.leb n 122)%bool then Ascii.ascii_of_nat (n - 32) else c.

Definition lower_ascii (c : ascii) : ascii :=
  let n := Ascii.nat_of_ascii c in
  if (Nat.leb 65 n && Nat.leb n 90)%bool then Ascii.ascii_of_nat (n + 32) else c.

Fixpoint lower (s : string) : string :=
  match s with
  | EmptyString => EmptyString
  | String c s' => String (lower_ascii c) (lower s')
  end.

Definition capitalize (s : string) : string :=
  match s with
  | EmptyString => EmptyString
  | String c s' => String (upper_ascii c) (lower s')
  end.

(** ** The world: clock, network and progress display *)

Definition ms_per_second : Z := 1000.

(** What one status request does: it either yields the decoded JSON object
    or raises (connection error, HTTP error status, undecodable body), and
    in both cases takes [latency] milliseconds. *)
Inductive fetch_result : Type :=
  | FetchOk (body : gmap string pyval)
  | FetchRaise (msg : string).

Record response : Type := Response {
  latency : N;
  result : fetch_result
}.

Inductive event : Type :=
  | AddTask (description : string)
  | Update (description : string)
  | Get (url : string)
  | Sleep (seconds : Z).

Record world : Type := World {
  now : Z;
  calls : nat;
  trace : list event
}.

Definition emit (e : event) (w : world) : world :=
  World (now w) (calls w) (trace w ++ [e]).

Definition advance (ms : Z) (w : world) : world :=
  World (now w + ms) (calls w) (trace w).

(** ** Computations *)

Inductive res (A : Type) : Type :=
  | Val (a : A)
  | Exn (msg : string)
  | Div.

Arguments Val {A} a.
Arguments Exn {A} msg.
Arguments Div {A}.

Definition M (A : Type) : Type := world -> res A * world.

Definition ret {A} (a : A) : M A := fun w => (Val a, w).

Definition bind {A B} (m : M A) (k : A -> M B) : M B :=
  fun w =>
    match m w with
    | (Val a, w') => k a w'
    | (Exn msg, w') => (Exn msg, w')
    | (Div, w') => (Div, w')
    end.

Definition raise {A} (msg : string) : M A := fun w => (Exn msg, w).

Definition diverge {A} : M A := fun w => (Div, w).

(** [try: body except Exception as e: handler(str(e))] *)
Definition try_except {A} (body : M A) (handler : string -> M A) : M A :=
  fun w =>
    match body w with
    | (Exn msg, w') => handler msg w'
    | other => other
    end.

Declare Scope py_scope.
Delimit Scope py_scope with py.
Notation "x <- m ;; k" := (bind m (fun x => k))
  (at level 100, m at next level, right associativity) : py_scope.
Notation "m ;; k" := (bind m (fun _ => k))
  (at level 100, right associativity) : py_scope.
Local Open Scope py_scope.

(** [time.time()] *)
Definition time : M Z := fun w => (Val (now w), w).

(** [time.sleep(seconds)] *)
Definition sleep (seconds : Z) : M unit :=
  fun w => (Val tt, advance (seconds * ms_per_second) (emit (Sleep seconds) w)).

(** [progress.add_task(description, total=None)] *)
Definition add_task (description : string) : M unit :=
  fun w => (Val tt, emit (AddTask description) w).

(** [progress.update(task, description=...)] *)
Definition update (description : string) : M unit :=
  fun w => (Val tt, emit (Update description) w).

(** [int(x)] for a duration in milliseconds: whole seconds, rounded
    towards zero. *)
Definition int_seconds (ms : Z) : Z := Z.quot ms ms_per_second.

Definition API_BASE_URL : string := "https://cloud.leonardo.ai/api/rest/v1".

Section Client.

(** The network: the response to the i-th request of the run. *)
Variable net : nat -> response.

(** [requests.get(url, headers=...)], [raise_for_status()] and
    [response.json()] taken together. *)
Definition requests_get_json (url : string) : M (gmap string pyval) :=
  fun w =>
    let r := net (calls w) in
    let w' := World (now w + Z.of_N (latency r)) (S (calls w)) (trace w ++ [Get url]) in
    match result r with
    | FetchOk body => (Val body, w')
    | FetchRaise msg => (Exn msg, w')
    end.

Definition get_generation (generation_id : string) : M (gmap string pyval) :=
  requests_get_json (API_BASE_URL +:+ "/generations/" +:+ generation_id).

Definition get_motion_generation (generation_id : string) : M (gmap string pyval) :=
  requests_get_json (API_BASE_URL +:+ "/generations-motion-svd/" +:+ generation_id).

Definition get_variation (variation_id variation_type : string) : M (gmap string pyval) :=
  requests_get_json
    (API_BASE_URL +:+ "/variations/" +:+ variation_type +:+ "/" +:+ variation_id).

(** *** [wait_for_generation] *)

(** One pass through the body of the [while] loop.  [Some generation]
    stands for [return generation]; [None] for reaching the end of the
    body, after which the loop condition is tested again. *)
Definition wait_for_generation_body (generation_id : string) (start_time : Z)
  : M (option (gmap string pyval)) :=
  try_except
    (generation <- get_generation generation_id ;;
     let status := dict_get generation "status" (PStr "") in
     if py_eq_str status "COMPLETE" then
       update "[green]Generation complete!" ;;
       ret (Some generation)
     else if py_eq_str status "FAILED" then
       update "[red]Generation failed!" ;;
       raise ("Generation failed: "
              +:+ py_str (dict_get generation "error" (PStr "Unknown error")))
     else
       t <- time ;;
       let elapsed := int_seconds (t - start_time) in
       update ("[yellow]Waiting for generation... (" +:+ str_of_int elapsed +:+ "s)") ;;
       sleep 3 ;;
       ret None)
    (fun e =>
       update ("[red]Error checking status: " +:+ e) ;;
       sleep 5 ;;
       ret None).

Fixpoint wait_for_generation_loop (fuel : nat) (generation_id : string)
    (start_time timeout : Z) : M (gmap string pyval) :=
  match fuel with
  | O => diverge
  | S fuel' =>
      t <- time ;;
      if t - start_time <? timeout * ms_per_second then
        r <- wait_for_generation_body generation_id start_time ;;
        match r with
        | Some generation => ret generation
        | None => wait_for_generation_loop fuel' generation_id start_time timeout
        end
      else
        update "[red]Generation timed out!" ;;
        raise ("Generation timed out after " +:+ str_of_int timeout +:+ " seconds")
  end.

Definition wait_for_generation (fuel : nat) (generation_id : string) (timeout : Z)
  : M (gmap string pyval) :=
  start_time <- time ;;
  add_task "[yellow]Waiting for generation..." ;;
  wait_for_generation_loop fuel generation_id start_time timeout.

(** *** [wait_for_motion_generation] *)

Definition wait_for_motion_generation_body (generation_id : string) (start_time : Z)
  : M (option (gmap string pyval)) :=
  try_except
    (generation <- get_motion_generation generation_id ;;
     let status := dict_get generation "status" (PStr "") in
     if py_eq_str status "COMPLETE" then
       update "[green]Video generation complete!" ;;
       ret (Some generation)
     else if py_eq_str status "FAILED" then
       update "[red]Video generation failed!" ;;
       raise ("Generation failed: "
              +:+ py_str (dict_get generation "error" (PStr "Unknown error")))
     else
       t <- time ;;
       let elapsed := int_seconds (t - start_time) in
       update ("[yellow]Waiting for video generation... ("
               +:+ str_of_int elapsed +:+ "s)") ;;
       sleep 3 ;;
       ret None)
    (fun e =>
       update ("[red]Error checking status: " +:+ e) ;;
       sleep 5 ;;
       ret None).

Fixpoint wait_for_motion_generation_loop (fuel : nat) (generation_id : string)
    (start_time timeout : Z) : M (gmap string pyval) :=
  match fuel with
  | O => diverge
  | S fuel' =>
      t <- time ;;
      if t - start_time <? timeout * ms_per_second then
        r <- wait_for_motion_generation_body generation_id start_time ;;
        match r with
        | Some generation => ret generation
        | None => wait_for_motion_generation_loop fuel' generation_id start_time timeout
        end
      else
        update "[red]Video generation timed out!" ;;
        raise ("Motion generation timed out after "
               +:+ str_of_int timeout +:+ " seconds")
  end.

Definition wait_for_motion_generation (fuel : nat) (generation_id : string)
    (timeout : Z) : M (gmap string pyval) :=
  start_time <- time ;;
  add_task "[yellow]Waiting for video generation..." ;;
  wait_for_motion_generation_loop fuel generation_id start_time timeout.

(** *** [wait_for_variation] *)

Definition wait_for_variation_body (variation_id variation_type : string)
    (start_time : Z) : M (option (gmap string pyval)) :=
  try_except
    (variation <- get_variation variation_id variation_type ;;
     let status := dict_get variation "status" (PStr "") in
     if py_eq_str status "COMPLETE" then
       update ("[green]" +:+ capitalize variation_type +:+ " complete!") ;;
       ret (Some variation)
     else if py_eq_str status "FAILED" then
       update ("[red]" +:+ capitalize variation_type +:+ " failed!") ;;
       raise ("Variation failed: "
              +:+ py_str (dict_get variation "error" (PStr "Unknown error")))
     else
       t <- time ;;
       let elapsed := int_seconds (t - start_time) in
       update ("[yellow]Waiting for " +:+ variation_type +:+ " to complete... ("
               +:+ str_of_int elapsed +:+ "s)") ;;
       sleep 3 ;;
       ret None)
    (fun e =>
       update ("[red]Error checking status: " +:+ e) ;;
       sleep 5 ;;
       ret None).

Fixpoint wait_for_variation_loop (fuel : nat) (variation_id variation_type : string)
    (start_time timeout : Z) : M (gmap string pyval) :=
  match fuel with
  | O => diverge
  | S fuel' =>
      t <- time ;;
      if t - start_time <? timeout * ms_per_second then
        r <- wait_for_variation_body variation_id variation_type start_time ;;
        match r with
        | Some variation => ret variation
        | None =>
            wait_for_variation_loop fuel' variation_id variation_type start_time timeout
        end
      else
        update ("[red]" +:+ capitalize variation_type +:+ " timed out!") ;;
        raise ("Variation timed out after " +:+ str_of_int timeout +:+ " seconds")
  end.

Definition wait_for_variation (fuel : nat) (variation_id variation_type : string)
    (timeout : Z) : M (gmap string pyval) :=
  start_time <- time ;;
  add_task ("[yellow]Waiting for " +:+ variation_type +:+ " to complete...") ;;
  wait_for_variation_loop fuel variation_id variation_type start_time timeout.

End Client.

(** The default values of the [timeout] parameters. *)
Definition wait_for_generation_default_timeout : Z := 120.
Definition wait_for_motion_generation_default_timeout : Z := 300.
Definition wait_for_variation_default_timeout : Z := 120.

(** The variation type used when none is given. *)
Definition wait_for_variation_default_type : string := "upscale".

(** Where a run starts: the clock shows [t0], nothing was requested or
    displayed yet. *)
Definition fresh (t0 : Z) : world := World t0 0 [].

(** Milliseconds between the start of a run and its end. *)
Definition elapsed_ms (t0 : Z) (w : world) : Z := now w - t0.

(** The number of status requests a run made. *)
Definition requests_made (w : world) : nat := calls w.

(** The sleeps of a run, in order. *)
Definition sleeps (tr : list event) : list Z :=
  flat_map (fun e => match e with Sleep n => [n] | _ => [] end) tr.

(** ** The common shape of the three loops

    The three operations differ in the URL they request and in the texts
    they display and raise.  [poll] is the loop with those texts taken as
    parameters; each operation is shown below to be an instance of it, so
    that facts proved once about [poll] hold for all three. *)

Record labels : Type := Labels {
  status_url : string;
  initial_text : string;
  complete_text : string;
  failed_text : string;
  failure_text : string -> string;
  waiting_text : string -> string;
  timed_out_text : string;
  timeout_text : string -> string
}.

Definition error_text (e : string) : string := "[red]Error checking status: " +:+ e.

Section Poller.

Variable net : nat -> response.
Variable L : labels.

Definition poll_body (start_time : Z) : M (option (gmap string pyval)) :=
  try_except
    (record <- requests_get_json net (status_url L) ;;
     let status := dict_get record "status" (PStr "") in
     if py_eq_str status "COMPLETE" then
       update (complete_text L) ;;
       ret (Some record)
     else if py_eq_str status "FAILED" then
       update (failed_text L) ;;
       raise (failure_text L (py_str (dict_get record "error" (PStr "Unknown error"))))
     else
       t <- time ;;
       let elapsed := int_seconds (t - start_time) in
       update (waiting_text L (str_of_int elapsed)) ;;
       sleep 3 ;;
       ret None)
    (fun e =>
       update (error_text e) ;;
       sleep 5 ;;
       ret None).

Fixpoint poll_loop (fuel : nat) (start_time timeout : Z) : M (gmap string pyval) :=
  match fuel with
  | O => diverge
  | S fuel' =>
      t <- time ;;
      if t - start_time <? timeout * ms_per_second then
        r <- poll_body start_time ;;
        match r with
        | Some record => ret record
        | None => poll_loop fuel' start_time timeout
        end
      else
        update (timed_out_text L) ;;
        raise (timeout_text L (str_of_int timeout))
  end.

Definition poll (fuel : nat) (timeout : Z) : M (gmap string pyval) :=
  start_time <- time ;;
  add_task (initial_text L) ;;
  poll_loop fuel start_time timeout.

End Poller.

Definition generation_labels (generation_id : string) : labels := {|
  status_url := API_BASE_URL +:+ "/generations/" +:+ generation_id;
  initial_text := "[yellow]Waiting for generation...";
  complete_text := "[green]Generation complete!";
  failed_text := "[red]Generation failed!";
  failure_text := fun detail => "Generation failed: " +:+ detail;
  waiting_text := fun elapsed => "[yellow]Waiting for generation... (" +:+ elapsed +:+ "s)";
  timed_out_text := "[red]Generation timed out!";
  timeout_text := fun timeout => "Generation timed out after " +:+ timeout +:+ " seconds"
|}.

Definition motion_labels (generation_id : string) : labels := {|
  status_url := API_BASE_URL +:+ "/generations-motion-svd/" +:+ generation_id;
  initial_text := "[yellow]Waiting for video generation...";
  complete_text := "[green]Video generation complete!";
  failed_text := "[red]Video generation failed!";
  failure_text := fun detail => "Generation failed: " +:+ detail;
  waiting_text := fun elapsed =>
    "[yellow]Waiting for video generation... (" +:+ elapsed +:+ "s)";
  timed_out_text := "[red]Video generation timed out!";
  timeout_text := fun timeout =>
    "Motion generation timed out after " +:+ timeout +:+ " seconds"
|}.

Definition variation_labels (variation_id variation_type : string) : labels := {|
  status_url :=
    API_BASE_URL +:+ "/variations/" +:+ variation_type +:+ "/" +:+ variation_id;
  initial_text := "[yellow]Waiting for " +:+ variation_type +:+ " to complete...";
  complete_text := "[green]" +:+ capitalize variation_type +:+ " complete!";
  failed_text := "[red]" +:+ capitalize variation_type +:+ " failed!";
  failure_text := fun detail => "Variation failed: " +:+ detail;
  waiting_text := fun elapsed =>
    "[yellow]Waiting for " +:+ variation_type +:+ " to complete... ("
    +:+ elapsed +:+ "s)";
  timed_out_text := "[red]" +:+ capitalize variation_type +:+ " timed out!";
  timeout_text := fun timeout => "Variation timed out after " +:+ timeout +:+ " seconds"
|}.

(** ** One pass through the loop body, in closed form *)

(** The status field as the loops read it: [record.get("status", "")]. *)
Definition status_of (record : gmap string pyval) : pyval :=
  dict_get record "status" (PStr "").

(** The detail of a failure: [record.get('error', 'Unknown error')]. *)
Definition error_of (record : gmap string pyval) : string :=
  py_str (dict_get record "error" (PStr "Unknown error")).

Definition is_complete (r : fetch_result) : bool :=
  match r with
  | FetchOk record => py_eq_str (status_of record) "COMPLETE"
  | FetchRaise _ => false
  end.

Definition is_failed (r : fetch_result) : bool :=
  match r with
  | FetchOk record =>
      negb (py_eq_str (status_of record) "COMPLETE") && py_eq_str (status_of record) "FAILED"
  | FetchRaise _ => false
  end.

(** What a pass hands back: the record when it returns, nothing when it
    falls through to the loop test. *)
Definition pass_result (r : fetch_result) : option (gmap string pyval) :=
  match r with
  | FetchOk record => if is_complete r then Some record else None
  | FetchRaise _ => None
  end.

(** Seconds slept during a pass. *)
Definition pass_pause (r : fetch_result) : Z :=
  match r with
  | FetchRaise _ => 5
  | FetchOk _ => if is_complete r then 0 else if is_failed r then 5 else 3
  end.

(** What a pass displays and sleeps once the response has arrived, at
    clock reading [arrived]. *)
Definition pass_events (L : labels) (start_time arrived : Z) (r : fetch_result)
  : list event :=
  match r with
  | FetchRaise msg => [Update (error_text msg); Sleep 5]
  | FetchOk record =>
      if is_complete r then [Update (complete_text L)]
      else if is_failed r then
        [Update (failed_text L);
         Update (error_text (failure_text L (error_of record)));
         Sleep 5]
      else
        [Update (waiting_text L (str_of_int (int_seconds (arrived - start_time))));
         Sleep 3]
  end.

(** The world after a pass that started in [w]. *)
Definition pass_world (net : nat -> response) (L : labels) (start_time : Z) (w : world)
  : world :=
  let r := net (calls w) in
  let arrived := now w + Z.of_N (latency r) in
  World (arrived + pass_pause (result r) * ms_per_second)
        (S (calls w))
        (trace w ++ Get (status_url L) :: pass_events L start_time arrived (result r)).

(** Time spent inside the first [n] requests of a run. *)
Fixpoint fetch_time (net : nat -> response) (n : nat) : Z :=
  match n with
  | O => 0
  | S n' => fetch_time net n' + Z.of_N (latency (net n'))
  end.

(** An event with its texts forgotten. *)
Inductive shape : Type :=
  | SAddTask
  | SUpdate
  | SGet
  | SSleep (seconds : Z).

Definition shape_of (e : event) : shape :=
  match e with
  | AddTask _ => SAddTask
  | Update _ => SUpdate
  | Get _ => SGet
  | Sleep n => SSleep n
  end.

(** Three outcomes that are the same up to the operation's own wording:
    the same record returned, or the time-out raised by each, or fuel
    exhausted in each. *)
Inductive agree (timeout : Z)
  : res (gmap string pyval) -> res (gmap string pyval) -> res (gmap string pyval) -> Prop :=
  | agree_returned record :
      agree timeout (Val record) (Val record) (Val record)
  | agree_timed_out :
      agree timeout
        (Exn ("Generation timed out after " +:+ str_of_int timeout +:+ " seconds"))
        (Exn ("Motion generation timed out after " +:+ str_of_int timeout +:+ " seconds"))
        (Exn ("Variation timed out after " +:+ str_of_int timeout +:+ " seconds"))
  | agree_out_of_fuel :
      agree timeout Div Div Div.

(** The progress updates of [wait_for_generation] that report elapsed
    time. *)
Definition is_elapsed_report (description : string) : bool :=
  String.prefix "[yellow]Waiting for generation... (" description.

Definition elapsed_reports (tr : list event) : list string :=
  flat_map (fun e => match e with
                     | Update d => if is_elapsed_report d then [d] else []
                     | _ => []
                     end) tr.

(** Two outcomes that are the same up to the wording [m1], [m2] of the
    exception raised. *)
Inductive similar (m1 m2 : string)
  : res (gmap string pyval) -> res (gmap string pyval) -> Prop :=
  | similar_val record : similar m1 m2 (Val record) (Val record)
  | similar_exn : similar m1 m2 (Exn m1) (Exn m2)
  | similar_div : similar m1 m2 Div Div.

(** What [n] passes that each end in a request error leave on the
    trace, when the i-th error reads [msg i]. *)
Definition error_rounds (url : string) (msg : nat -> string) (n : nat) : list event :=
  flat_map (fun i => [Get url; Update (error_text (msg i)); Sleep 5]) (seq 0 n).

(** The world once [n] such passes have gone by in a run of [poll]
    started at clock reading [t0]. *)
Definition after_errors (net : nat -> response) (L : labels) (msg : nat -> string)
    (t0 : Z) (n : nat) : world :=
  World (t0 + fetch_time net n + 5000 * Z.of_nat n) n
        (AddTask (initial_text L) :: error_rounds (status_url L) msg n).

(** Two worlds that differ in wording only. *)
Definition alike (w1 w2 : world) : Prop :=
  now w1 = now w2 /\ calls w1 = calls w2
  /\ map shape_of (trace w1) = map shape_of (trace w2).

(** The time a run may take: its budget, the longest a request may take,
    and one back-off.  A budget below zero counts as an empty one. *)
Definition deadline_ms (timeout bound : Z) : Z :=
  Z.max 0 (timeout * ms_per_second) + bound + 5 * ms_per_second.

(** A run that came to an end, by returning or by raising. *)
Definition finished {A} (r : res A) : Prop :=
  match r with
  | Div => False
  | _ => True
  end.

(** ** Sample records and networks *)

Definition complete_record : gmap string pyval :=
  {[ "status" := PStr "COMPLETE" ]}.

Definition pending_record : gmap string pyval :=
  {[ "status" := PStr "PENDING" ]}.

Definition failed_record : gmap string pyval :=
  {[ "status" := PStr "FAILED"; "error" := PStr "boom" ]}.

(** A network that answers every request alike. *)
Definition always (r : response) : nat -> response := fun _ => r.

(** A network that answers the first requests as listed and all later
    ones with [rest]. *)
Definition script (rs : list response) (rest : response) : nat -> response :=
  fun i => nth i rs rest.

(** * Configuration profiles

    [save_config], [load_config], [get_active_profile], [get_api_key],
    [get_client] and the commands [use_profile] and [delete_profile] of
    [leonardo_cli.py] (lines 456-646).  They read and write one JSON file,
    [CONFIG_PATH], and print to the console.

    Modelling conventions.  The file is known by what [json.load] makes of
    it: nothing (no file), a [JSONDecodeError], or a value; writing with
    [json.dump] leaves a file that loads as the value written.  A Python
    [dict] is the list of its items in insertion order, the keys distinct;
    [None] is [JNull].  Exceptions are known by their class. *)

(** ** JSON values, as Python holds them *)

#[warnings="-register-all"]
Inductive json : Type :=
  | JNull
  | JBool (b : bool)
  | JInt (z : Z)
  | JFloat (f : float)
  | JStr (s : string)
  | JArr (items : list json)
  | JObj (fields : list (string * json)).

Inductive pyexn : Type :=
  | TypeError
  | KeyError
  | AttributeError
  | StopIteration
  | SystemExit (code : Z).

Inductive outcome (A : Type) : Type :=
  | Ok (a : A)
  | Raised (e : pyexn).

Arguments Ok {A} a.
Arguments Raised {A} e.

(** *** Dictionaries *)

Fixpoint fields_get (key : string) (fields : list (string * json)) : option json :=
  match fields with
  | [] => None
  | (k, v) :: rest => if String.eqb k key then Some v else fields_get key rest
  end.

Fixpoint fields_replace (key : string) (x : json) (fields : list (string * json))
  : list (string * json) :=
  match fields with
  | [] => []
  | (k, v) :: rest =>
      (k, if String.eqb k key then x else v) :: fields_replace key x rest
  end.

(** [d[key] = x]: an existing key keeps its place, a new one goes last. *)
Definition fields_set (key : string) (x : json) (fields : list (string * json))
  : list (string * json) :=
  match fields_get key fields with
  | Some _ => fields_replace key x fields
  | None => fields ++ [(key, x)]
  end.

Definition fields_del (key : string) (fields : list (string * json))
  : list (string * json) :=
  List.filter (fun kv => negb (String.eqb (fst kv) key)) fields.

(** *** The operations of Python the code applies to such values *)

(** [bool(v)], the test of [if v:] and [not v]. *)
Definition truthy (v : json) : bool :=
  match v with
  | JNull => false
  | JBool b => b
  | JInt z => negb (z =? 0)
  | JFloat f => negb (PrimFloat.eqb f 0%float)
  | JStr s => negb (String.eqb s "")
  | JArr [] => false
  | JArr (_ :: _) => true
  | JObj [] => false
  | JObj (_ :: _) => true
  end.

(** [v == "text"] *)
Definition eq_str (v : json) (text : string) : bool :=
  match v with
  | JStr s => String.eqb s text
  | _ => false
  end.

(** ["needle" in "hay"] *)
Fixpoint substring_of (needle hay : string) : bool :=
  String.prefix needle hay
  || match hay with
     | EmptyString => false
     | String _ hay' => substring_of needle hay'
     end.

(** [key in v], for a string [key]. *)
Definition py_in (key : string) (v : json) : outcome bool :=
  match v with
  | JObj fields =>
      Ok (match fields_get key fields with Some _ => true | None => false end)
  | JArr items => Ok (existsb (fun x => eq_str x key) items)
  | JStr s => Ok (substring_of key s)
  | JNull | JBool _ | JInt _ | JFloat _ => Raised TypeError
  end.

(** [v[key]], for a string [key]. *)
Definition getitem (v : json) (key : string) : outcome json :=
  match v with
  | JObj fields =>
      match fields_get key fields with
      | Some x => Ok x
      | None => Raised KeyError
      end
  | _ => Raised TypeError
  end.

(** [v.get(key, dflt)]; [key] may be any value. *)
Definition get_method (v : json) (key : json) (dflt : json) : outcome json :=
  match v with
  | JObj fields =>
      match key with
      | JStr k =>
          Ok (match fields_get k fields with Some x => x | None => dflt end)
      | JArr _ | JObj _ => Raised TypeError
      | JNull | JBool _ | JInt _ | JFloat _ => Ok dflt
      end
  | _ => Raised AttributeError
  end.

(** [v[key] = x] *)
Definition setitem (v : json) (key : string) (x : json) : outcome json :=
  match v with
  | JObj fields => Ok (JObj (fields_set key x fields))
  | _ => Raised TypeError
  end.

(** [del v[key]] *)
Definition delitem (v : json) (key : string) : outcome json :=
  match v with
  | JObj fields =>
      match fields_get key fields with
      | Some _ => Ok (JObj (fields_del key fields))
      | None => Raised KeyError
      end
  | _ => Raised TypeError
  end.

(** [v.pop(key, None)], for what it leaves of [v]. *)
Definition pop_method (v : json) (key : string) : outcome json :=
  match v with
  | JObj fields => Ok (JObj (fields_del key fields))
  | JArr _ => Raised TypeError
  | _ => Raised AttributeError
  end.

(** [v.keys()] *)
Definition keys_method (v : json) : outcome (list string) :=
  match v with
  | JObj fields => Ok (map fst fields)
  | _ => Raised AttributeError
  end.

(** ** The configuration file and the console *)

Inductive file_state : Type :=
  | Missing
  | Undecodable
  | Holds (value : json).

(** A printed line: its literal text, and the values formatted into it. *)
Inductive fragment : Type :=
  | Text (s : string)
  | Shown (v : json).

Record disk : Type := Disk {
  config_file : file_state;
  console : list (list fragment)
}.

Definition IO (A : Type) : Type := disk -> outcome A * disk.

Definition io_ret {A} (a : A) : IO A := fun d => (Ok a, d).

Definition io_bind {A B} (m : IO A) (k : A -> IO B) : IO B :=
  fun d =>
    match m d with
    | (Ok a, d') => k a d'
    | (Raised e, d') => (Raised e, d')
    end.

Definition lift {A} (o : outcome A) : IO A := fun d => (o, d).

Declare Scope io_scope.
Delimit Scope io_scope with io.
Notation "x <- m ;; k" := (io_bind m (fun x => k))
  (at level 100, m at next level, right associativity) : io_scope.
Notation "m ;; k" := (io_bind m (fun _ => k))
  (at level 100, right associativity) : io_scope.
Local Open Scope io_scope.

(** [console.print(...)] *)
Definition console_print (line : list fragment) : IO unit :=
  fun d => (Ok tt, Disk (config_file d) (console d ++ [line])).

(** [with open(CONFIG_PATH, "w") as f: json.dump(config, f, indent=2)] *)
Definition write_config (config : json) : IO unit :=
  fun d => (Ok tt, Disk (Holds config) (console d)).

(** [os.makedirs(os.path.dirname(CONFIG_PATH), exist_ok=True)] *)
Definition ensure_config_dir : IO unit := io_ret tt.

Definition load_config : IO json :=
  fun d =>
    match config_file d with
    | Holds value => (Ok value, d)
    | Undecodable => (Ok JNull, d)
    | Missing => (Ok JNull, d)
    end.

Definition save_config (api_key profile : string) : IO unit :=
  ensure_config_dir ;;
  config <- (fun d =>
               match config_file d with
               | Holds value => (Ok value, d)
               | Undecodable => (Ok (JObj []), d)
               | Missing => (Ok (JObj []), d)
               end) ;;
  has_profiles <- lift (py_in "profiles" config) ;;
  config <- (if negb has_profiles then lift (setitem config "profiles" (JObj []))
             else io_ret config) ;;
  profiles <- lift (getitem config "profiles") ;;
  profiles <- lift (setitem profiles profile (JObj [("api_key", JStr api_key)])) ;;
  config <- lift (setitem config "profiles" profiles) ;;
  config <- lift (setitem config "active_profile" (JStr profile)) ;;
  write_config config.

Definition get_active_profile : IO json :=
  config <- load_config ;;
  if truthy config then
    has_active <- lift (py_in "active_profile" config) ;;
    if has_active then lift (getitem config "active_profile")
    else io_ret (JStr "default")
  else io_ret (JStr "default").

Definition get_api_key (profile : option string) : IO json :=
  config <- load_config ;;
  if negb (truthy config) then io_ret JNull
  else
    has_profiles <- lift (py_in "profiles" config) ;;
    if negb has_profiles then io_ret JNull
    else
      active <- (match profile with
                 | Some s =>
                     if String.eqb s "" then
                       lift (get_method config (JStr "active_profile") (JStr "default"))
                     else io_ret (JStr s)
                 | None =>
                     lift (get_method config (JStr "active_profile") (JStr "default"))
                 end) ;;
      let profile_name := active in
      profiles <- lift (getitem config "profiles") ;;
      profile_data <- lift (get_method profiles profile_name JNull) ;;
      if negb (truthy profile_data) then io_ret JNull
      else lift (get_method profile_data (JStr "api_key") JNull).

(** A client, known by the key it was made with. *)
Inductive LeonardoClient : Type :=
  | Client (api_key : json).

Definition get_client (profile : option string) : IO LeonardoClient :=
  api_key <- get_api_key profile ;;
  if negb (truthy api_key) then
    console_print [Text "[bold red]No API key configured![/bold red]"] ;;
    console_print [Text "Please run: leonardo-cli configure"] ;;
    lift (Raised (SystemExit 1))
  else io_ret (Client api_key).

(** [for p in keys: console.print(f"  - {p}")] *)
Fixpoint print_keys (keys : list string) : IO unit :=
  match keys with
  | [] => io_ret tt
  | p :: rest => console_print [Text ("  - " +:+ p)] ;; print_keys rest
  end.

Definition use_profile (profile : string) : IO unit :=
  config <- load_config ;;
  no_profiles <- (if negb (truthy config) then io_ret true
                  else has <- lift (py_in "profiles" config) ;; io_ret (negb has)) ;;
  if no_profiles : bool then
    console_print [Text "[bold red]No profiles configured. Run 'leonardo-cli configure' first.[/bold red]"]
  else
    profiles <- lift (getitem config "profiles") ;;
    known <- lift (py_in profile profiles) ;;
    if negb known then
      console_print [Text ("[bold red]Profile '" +:+ profile
                           +:+ "' not found. Available profiles:[/bold red]")] ;;
      profiles <- lift (getitem config "profiles") ;;
      keys <- lift (keys_method profiles) ;;
      print_keys keys
    else
      config <- lift (setitem config "active_profile" (JStr profile)) ;;
      write_config config ;;
      console_print [Text ("[bold green]Now using profile: [italic]" +:+ profile
                           +:+ "[/italic][/bold green]")].

Definition delete_profile (profile : string) : IO unit :=
  config <- load_config ;;
  no_profiles <- (if negb (truthy config) then io_ret true
                  else has <- lift (py_in "profiles" config) ;; io_ret (negb has)) ;;
  if no_profiles : bool then
    console_print [Text "[bold red]No profiles configured.[/bold red]"]
  else
    profiles <- lift (getitem config "profiles") ;;
    known <- lift (py_in profile profiles) ;;
    if negb known then
      console_print [Text ("[bold red]Profile '" +:+ profile
                           +:+ "' not found.[/bold red]")]
    else
      profiles <- lift (getitem config "profiles") ;;
      profiles <- lift (delitem profiles profile) ;;
      config <- lift (setitem config "profiles" profiles) ;;
      active <- lift (get_method config (JStr "active_profile") JNull) ;;
      config <- (if eq_str active profile then
                   profiles <- lift (getitem config "profiles") ;;
                   if truthy profiles then
                     keys <- lift (keys_method profiles) ;;
                     match keys with
                     | first :: _ => lift (setitem config "active_profile" (JStr first))
                     | [] => lift (Raised StopIteration)
                     end
                   else lift (pop_method config "active_profile")
                 else io_ret config) ;;
      write_config config ;;
      console_print [Text ("[bold green]Profile '[italic]" +:+ profile
                           +:+ "[/italic]' deleted.[/bold green]")] ;;
      has_active <- lift (py_in "active_profile" config) ;;
      if has_active : bool then
        active <- lift (getitem config "active_profile") ;;
        console_print [Text "Active profile is now: [italic]"; Shown active;
                       Text "[/italic]"]
      else io_ret tt.

(** The key as the [profiles] command shows it (line 582), for a key that
    is a string. *)
Definition masked_key (api_key : string) : string :=
  if (16 <? Z.of_nat (String.length api_key)) then
    String.substring 0 8 api_key +:+ "..."
    +:+ String.substring (String.length api_key - 8) 8 api_key
  else "********".

(** The profiles a configuration file holds: the items of its "profiles"
    dictionary, none when there is no such dictionary. *)
Definition stored_profiles (file : file_state) : list (string * json) :=
  match file with
  | Holds (JObj fields) =>
      match fields_get "profiles" fields with
      | Some (JObj profiles) => profiles
      | _ => []
      end
  | _ => []
  end.

(** The value of the "active_profile" field of a configuration file. *)
Definition stored_active (file : file_state) : option json :=
  match file with
  | Holds (JObj fields) => fields_get "active_profile" fields
  | _ => None
  end.

(** What [get_api_key] makes of the data stored for a profile. *)
Definition key_of (profile_data : option json) : outcome json :=
  match profile_data with
  | None => Ok JNull
  | Some data =>
      if truthy data then get_method data (JStr "api_key") JNull else Ok JNull
  end.

(** The files [save_config] can add a profile to: none, an undecodable
    one, or a dictionary whose "profiles" field, if any, is a dictionary. *)
Definition usable (file : file_state) : Prop :=
  match file with
  | Holds (JObj fields) =>
      match fields_get "profiles" fields with
      | Some (JObj _) | None => True
      | Some _ => False
      end
  | Holds _ => False
  | Missing | Undecodable => True
  end.

Local Close Scope io_scope.

(** * Requests, batches, templates

    The body [create_generation] posts (lines 101-160),
    [BatchProcessor.process_batch] of [advanced_features.py] (lines 77-109),
    [TemplateManager.list_templates] (lines 433-442), the extension test of
    [upload_init_image] (lines 213-216) and the contrast settings of the
    [generate] command (lines 801-812).

    Modelling conventions.  A string is a sequence of 8-bit characters,
    and [lower()] acts on the letters A-Z; an optional argument is [None]
    or a value of its annotated type; a float is a binary64 number. *)

(** ** The body of a generation request *)

(** An optional string, an optional float, an optional list, as values. *)
Definition of_str (s : option string) : json :=
  match s with
  | Some text => JStr text
  | None => JNull
  end.

Definition of_float (x : option float) : json :=
  match x with
  | Some f => JFloat f
  | None => JNull
  end.

Definition of_strs (l : option (list string)) : json :=
  match l with
  | Some items => JArr (map JStr items)
  | None => JNull
  end.

Definition of_list (l : option (list json)) : json :=
  match l with
  | Some items => JArr items
  | None => JNull
  end.

(** [v is not None] *)
Definition is_not_none (v : json) : bool :=
  match v with
  | JNull => false
  | _ => true
  end.

(** [if test: payload[key] = value] *)
Definition set_when (test : bool) (key : string) (value : json)
    (payload : list (string * json)) : list (string * json) :=
  if test then fields_set key value payload else payload.

Definition create_generation_payload
    (prompt : string) (model_id : option string) (num_images width height : Z)
    (negative_prompt : option string) (guidance_scale : option float)
    (preset_style : option string) (alchemy photoreal : bool)
    (photoreal_version init_image_id : option string) (init_strength : option float)
    (init_generation_image_id : option string) (image_prompts : option (list string))
    (controlnets : option (list json)) (is_phoenix : bool) (contrast : option float)
  : list (string * json) :=
  let payload :=
    [("prompt", JStr prompt); ("width", JInt width); ("height", JInt height);
     ("num_images", JInt num_images)] in
  let payload := set_when (truthy (of_str model_id)) "modelId" (of_str model_id) payload in
  let payload :=
    set_when (truthy (of_str negative_prompt)) "negative_prompt" (of_str negative_prompt)
      payload in
  let payload :=
    set_when (is_not_none (of_float guidance_scale)) "guidance_scale"
      (of_float guidance_scale) payload in
  let payload :=
    set_when (truthy (of_str preset_style)) "presetStyle" (of_str preset_style) payload in
  let payload := set_when alchemy "alchemy" (JBool true) payload in
  let payload :=
    if photoreal then
      let payload := fields_set "photoReal" (JBool true) payload in
      set_when (truthy (of_str photoreal_version)) "photoRealVersion"
        (of_str photoreal_version) payload
    else payload in
  let payload :=
    if truthy (of_str init_image_id) then
      let payload := fields_set "init_image_id" (of_str init_image_id) payload in
      set_when (is_not_none (of_float init_strength)) "init_strength"
        (of_float init_strength) payload
    else payload in
  let payload :=
    set_when (truthy (of_str init_generation_image_id)) "init_generation_image_id"
      (of_str init_generation_image_id) payload in
  let payload :=
    set_when (truthy (of_strs image_prompts)) "imagePrompts" (of_strs image_prompts)
      payload in
  let payload :=
    set_when (truthy (of_list controlnets)) "controlnets" (of_list controlnets) payload in
  if is_phoenix then
    let payload := fields_set "isPhoenix" (JBool true) payload in
    let payload :=
      set_when (is_not_none (of_float contrast)) "contrast" (of_float contrast) payload in
    let payload := fields_del "photoReal" payload in
    fields_del "photoRealVersion" payload
  else payload.

(** ** [BatchProcessor.process_batch] *)

(** What one call of [client.create_generation] does: it returns the
    decoded response, or raises an exception whose [str()] is [text]. *)
Inductive call_result : Type :=
  | Returns (response : json)
  | Throws (text : string).

(** [type(v).__name__] *)
Definition type_name (v : json) : string :=
  match v with
  | JNull => "NoneType"
  | JBool _ => "bool"
  | JInt _ => "int"
  | JFloat _ => "float"
  | JStr _ => "str"
  | JArr _ => "list"
  | JObj _ => "dict"
  end.

(** [v.get(key, dflt)] inside a [try] block whose handler takes the text
    of the exception: the value, or the text of the [AttributeError]. *)
Definition try_get (v : json) (key : string) (dflt : json) : string + json :=
  match v with
  | JObj fields =>
      inr (match fields_get key fields with Some x => x | None => dflt end)
  | _ => inl ("'" +:+ type_name v +:+ "' object has no attribute 'get'")
  end.

(** The body of the [try] of one round: the generation id, or the text
    of the exception raised. *)
Definition batch_attempt (r : call_result) : string + json :=
  match r with
  | Throws text => inl text
  | Returns response =>
      match try_get response "sdGenerationJob" (JObj []) with
      | inl text => inl text
      | inr job => try_get job "generationId" JNull
      end
  end.

(** One round of the loop: the lines printed and the result appended. *)
Definition batch_round (total i : nat) (prompt : string) (r : call_result)
  : list (list fragment) * json :=
  let progress :=
    [Text ("[bold blue]Processing prompt " +:+ str_of_int (Z.of_nat i + 1) +:+ "/"
           +:+ str_of_int (Z.of_nat total) +:+ ": " +:+ String.substring 0 50 prompt
           +:+ "...[/bold blue]")] in
  match batch_attempt r with
  | inr generation_id =>
      if truthy generation_id then
        ([progress],
         JObj [("prompt", JStr prompt); ("generation_id", generation_id);
               ("status", JStr "started")])
      else
        ([progress],
         JObj [("prompt", JStr prompt); ("generation_id", JNull);
               ("status", JStr "failed")])
  | inl text =>
      ([progress;
        [Text ("[bold red]Error with prompt '" +:+ prompt +:+ "': " +:+ text
               +:+ "[/bold red]")]],
       JObj [("prompt", JStr prompt); ("generation_id", JNull);
             ("status", JStr "error"); ("error", JStr text)])
  end.

(** The loop from round [i] on; [client k prompt] is what the [k]-th
    call of [client.create_generation], made with [prompt], does. *)
Fixpoint process_batch_from (total i : nat) (prompts : list string)
    (client : nat -> string -> call_result) : list (list fragment) * list json :=
  match prompts with
  | [] => ([], [])
  | prompt :: rest =>
      let (printed, item) := batch_round total i prompt (client i prompt) in
      let (printed', items) := process_batch_from total (S i) rest client in
      ((printed ++ printed')%list, item :: items)
  end.

Definition process_batch (prompts : list string) (client : nat -> string -> call_result)
  : list (list fragment) * list json :=
  process_batch_from (length prompts) 0 prompts client.

(** ** [BatchProcessor.process_batch], with the console as [rich] has it

    [console.print] reads its text as markup and raises [MarkupError] on a
    closing tag that no open tag matches, as in "a [/red] cat".  The line
    printed at the start of a round (line 82) holds the first fifty
    characters of the prompt and stands outside the [try]; the line
    printed by the handler (line 101) holds the prompt and the text of the
    exception and stands inside the handler.  A [MarkupError] raised by
    either leaves [process_batch] at once, and the results gathered so far
    are lost.  Which texts [rich] takes is a parameter, [renders]. *)

(** How a call of [process_batch] ends. *)
Inductive batch_end : Type :=
  | Returned (results : list json)
  | MarkupError.

(** The line printed at the start of round [i] (line 82). *)
Definition progress_line (total i : nat) (prompt : string) : string :=
  "[bold blue]Processing prompt " +:+ str_of_int (Z.of_nat i + 1) +:+ "/"
  +:+ str_of_int (Z.of_nat total) +:+ ": " +:+ String.substring 0 50 prompt
  +:+ "...[/bold blue]".

(** The line printed by the handler (line 101). *)
Definition error_line (prompt text : string) : string :=
  "[bold red]Error with prompt '" +:+ prompt +:+ "': " +:+ text +:+ "[/bold red]".

Module Rich.

Section Console.

Variable renders : string -> bool.

(** One round of the loop: the lines printed, and the result appended,
    or nothing when a [MarkupError] was raised. *)
Definition batch_round (total i : nat) (prompt : string) (r : call_result)
  : list (list fragment) * option json :=
  if renders (progress_line total i prompt) then
    match batch_attempt r with
    | inr generation_id =>
        if truthy generation_id then
          ([[Text (progress_line total i prompt)]],
           Some (JObj [("prompt", JStr prompt); ("generation_id", generation_id);
                       ("status", JStr "started")]))
        else
          ([[Text (progress_line total i prompt)]],
           Some (JObj [("prompt", JStr prompt); ("generation_id", JNull);
                       ("status", JStr "failed")]))
    | inl text =>
        if renders (error_line prompt text) then
          ([[Text (progress_line total i prompt)]; [Text (error_line prompt text)]],
           Some (JObj [("prompt", JStr prompt); ("generation_id", JNull);
                       ("status", JStr "error"); ("error", JStr text)]))
        else ([[Text (progress_line total i prompt)]], None)
    end
  else ([], None).

(** The loop from round [i] on, [results] being the list gathered so
    far. *)
Fixpoint process_batch_from (total i : nat) (prompts : list string)
    (client : nat -> string -> call_result) (results : list json)
  : list (list fragment) * batch_end :=
  match prompts with
  | [] => ([], Returned results)
  | prompt :: rest =>
      match batch_round total i prompt (client i prompt) with
      | (printed, Some item) =>
          let (printed', ending) :=
            process_batch_from total (S i) rest client (results ++ [item]) in
          ((printed ++ printed')%list, ending)
      | (printed, None) => (printed, MarkupError)
      end
  end.

Definition process_batch (prompts : list string) (client : nat -> string -> call_result)
  : list (list fragment) * batch_end :=
  process_batch_from (length prompts) 0 prompts client [].

End Console.

End Rich.

(** ** [TemplateManager.list_templates] *)

(** [s.endswith(suffix)] *)
Definition endswith (s suffix : string) : bool :=
  (String.length suffix <=? String.length s)%nat
  && String.eqb (String.substring (String.length s - String.length suffix)
                   (String.length suffix) s) suffix.

(** The loop over [os.listdir(TEMPLATES_DIR)], given what it lists. *)
Fixpoint list_templates (listing : list string) : list string :=
  match listing with
  | [] => []
  | filename :: rest =>
      if endswith filename ".json" then
        String.substring 0 (String.length filename - 5) filename :: list_templates rest
      else list_templates rest
  end.

(** ** The contrast of the Phoenix model *)

#[warnings="-inexact-float"]
Definition valid_contrasts : list float :=
  [1.0; 1.3; 1.8; 2.5; 3.0; 3.5; 4.0; 4.5]%float.

(** [x in items], for floats. *)
Definition float_in (x : float) (items : list float) : bool :=
  existsb (fun item => PrimFloat.eqb x item) items.

(** [min(items, key=key)] from a first candidate on: a later item
    replaces the candidate when its key is less. *)
Fixpoint min_from (key : float -> float) (best : float) (items : list float) : float :=
  match items with
  | [] => best
  | item :: rest =>
      if PrimFloat.ltb (key item) (key best) then min_from key item rest
      else min_from key best rest
  end.

(** Lines 801-812 of [generate], taken when [--phoenix] is given: the
    contrast used, and what is printed on the way. *)
Definition phoenix_contrast (contrast : option float) (alchemy : bool)
  : float * list (list fragment) :=
  let contrast :=
    match contrast with
    | Some c => if negb (truthy (JFloat c)) then 3.5%float else c
    | None => 3.5%float
    end in
  let (contrast, printed) :=
    if alchemy && PrimFloat.ltb contrast 2.5%float then
      (2.5%float,
       [[Text "[bold yellow]When using Phoenix with Alchemy, contrast must be 2.5 or higher. Setting to 2.5.[/bold yellow]"]])
    else (contrast, []) in
  if negb (float_in contrast valid_contrasts) then
    let nearest :=
      match valid_contrasts with
      | first :: rest =>
          min_from (fun x => PrimFloat.abs (PrimFloat.sub x contrast)) first rest
      | [] => contrast
      end in
    (nearest,
     (printed
      ++ [[Text "[bold yellow]Contrast value "; Shown (JFloat contrast);
           Text " is not valid for Phoenix. Using nearest valid value: ";
           Shown (JFloat nearest); Text "[/bold yellow]"]])%list)
  else (contrast, printed).

(** * The waiting loop in an environment that may misbehave

    The loops above run in a world where every request comes back and
    the clock only moves forward.  The code itself secures neither:
    [requests.get] is called without a time-out (lines 170, 281 and 343),
    so a request may never come back; and [time.time()] (lines 177, 186
    and 199) reads the wall clock, which can be set, backwards too, while
    a run is under way.

    [Wall] holds the three operations once more, statement by statement,
    over an environment that may do both.  For the i-th request of the run
    the environment says how the request ends, and by how much the reading
    of the wall clock has changed when it does: the time the request took,
    plus whatever the clock was set by in the meantime.  The other
    conventions stay: [time.sleep(n)] moves the clock by [n] seconds and
    the other statements take no time. *)

(** How a request ends. *)
Inductive reply : Type :=
  | Answers (body : gmap string pyval)
  | Raises (msg : string)
  | NeverReturns.

Record exchange : Type := Exchange {
  clock_change : Z;
  reply_of : reply
}.

Module Wall.

Section Environment.

Variable env : nat -> exchange.

(** [requests.get(url, headers=...)], [raise_for_status()] and
    [response.json()] taken together.  A request that never comes back
    leaves the computation without a result. *)
Definition requests_get_json (url : string) : M (gmap string pyval) :=
  fun w =>
    let x := env (calls w) in
    let w' := World (now w + clock_change x) (S (calls w)) (trace w ++ [Get url]) in
    match reply_of x with
    | Answers body => (Val body, w')
    | Raises msg => (Exn msg, w')
    | NeverReturns => (Div, World (now w) (S (calls w)) (trace w ++ [Get url]))
    end.

Definition get_generation (generation_id : string) : M (gmap string pyval) :=
  requests_get_json (API_BASE_URL +:+ "/generations/" +:+ generation_id).

Definition wait_for_generation_body (generation_id : string) (start_time : Z)
  : M (option (gmap string pyval)) :=
  try_except
    (generation <- get_generation generation_id ;;
     let status := dict_get generation "status" (PStr "") in
     if py_eq_str status "COMPLETE" then
       update "[green]Generation complete!" ;;
       ret (Some generation)
     else if py_eq_str status "FAILED" then
       update "[red]Generation failed!" ;;
       raise ("Generation failed: "
              +:+ py_str (dict_get generation "error" (PStr "Unknown error")))
     else
       t <- time ;;
       let elapsed := int_seconds (t - start_time) in
       update ("[yellow]Waiting for generation... (" +:+ str_of_int elapsed +:+ "s)") ;;
       sleep 3 ;;
       ret None)
    (fun e =>
       update ("[red]Error checking status: " +:+ e) ;;
       sleep 5 ;;
       ret None).

Fixpoint wait_for_generation_loop (fuel : nat) (generation_id : string)
    (start_time timeout : Z) : M (gmap string pyval) :=
  match fuel with
  | O => diverge
  | S fuel' =>
      t <- time ;;
      if t - start_time <? timeout * ms_per_second then
        r <- wait_for_generation_body generation_id start_time ;;
        match r with
        | Some generation => ret generation
        | None => wait_for_generation_loop fuel' generation_id start_time timeout
        end
      else
        update "[red]Generation timed out!" ;;
        raise ("Generation timed out after " +:+ str_of_int timeout +:+ " seconds")
  end.

Definition wait_for_generation (fuel : nat) (generation_id : string) (timeout : Z)
  : M (gmap string pyval) :=
  start_time <- time ;;
  add_task "[yellow]Waiting for generation..." ;;
  wait_for_generation_loop fuel generation_id start_time timeout.

Definition get_motion_generation (generation_id : string) : M (gmap string pyval) :=
  requests_get_json (API_BASE_URL +:+ "/generations-motion-svd/" +:+ generation_id).

Definition get_variation (variation_id variation_type : string) : M (gmap string pyval) :=
  requests_get_json
    (API_BASE_URL +:+ "/variations/" +:+ variation_type +:+ "/" +:+ variation_id).

Definition wait_for_motion_generation_body (generation_id : string) (start_time : Z)
  : M (option (gmap string pyval)) :=
  try_except
    (generation <- get_motion_generation generation_id ;;
     let status := dict_get generation "status" (PStr "") in
     if py_eq_str status "COMPLETE" then
       update "[green]Video generation complete!" ;;
       ret (Some generation)
     else if py_eq_str status "FAILED" then
       update "[red]Video generation failed!" ;;
       raise ("Generation failed: "
              +:+ py_str (dict_get generation "error" (PStr "Unknown error")))
     else
       t <- time ;;
       let elapsed := int_seconds (t - start_time) in
       update ("[yellow]Waiting for video generation... ("
               +:+ str_of_int elapsed +:+ "s)") ;;
       sleep 3 ;;
       ret None)
    (fun e =>
       update ("[red]Error checking status: " +:+ e) ;;
       sleep 5 ;;
       ret None).

Fixpoint wait_for_motion_generation_loop (fuel : nat) (generation_id : string)
    (start_time timeout : Z) : M (gmap string pyval) :=
  match fuel with
  | O => diverge
  | S fuel' =>
      t <- time ;;
      if t - start_time <? timeout * ms_per_second then
        r <- wait_for_motion_generation_body generation_id start_time ;;
        match r with
        | Some generation => ret generation
        | None => wait_for_motion_generation_loop fuel' generation_id start_time timeout
        end
      else
        update "[red]Video generation timed out!" ;;
        raise ("Motion generation timed out after "
               +:+ str_of_int timeout +:+ " seconds")
  end.

Definition wait_for_motion_generation (fuel : nat) (generation_id : string)
    (timeout : Z) : M (gmap string pyval) :=
  start_time <- time ;;
  add_task "[yellow]Waiting for video generation..." ;;
  wait_for_motion_generation_loop fuel generation_id start_time timeout.

Definition wait_for_variation_body (variation_id variation_type : string)
    (start_time : Z) : M (option (gmap string pyval)) :=
  try_except
    (variation <- get_variation variation_id variation_type ;;
     let status := dict_get variation "status" (PStr "") in
     if py_eq_str status "COMPLETE" then
       update ("[green]" +:+ capitalize variation_type +:+ " complete!") ;;
       ret (Some variation)
     else if py_eq_str status "FAILED" then
       update ("[red]" +:+ capitalize variation_type +:+ " failed!") ;;
       raise ("Variation failed: "
              +:+ py_str (dict_get variation "error" (PStr "Unknown error")))
     else
       t <- time ;;
       let elapsed := int_seconds (t - start_time) in
       update ("[yellow]Waiting for " +:+ variation_type +:+ " to complete... ("
               +:+ str_of_int elapsed +:+ "s)") ;;
       sleep 3 ;;
       ret None)
    (fun e =>
       update ("[red]Error checking status: " +:+ e) ;;
       sleep 5 ;;
       ret None).

Fixpoint wait_for_variation_loop (fuel : nat) (variation_id variation_type : string)
    (start_time timeout : Z) : M (gmap string pyval) :=
  match fuel with
  | O => diverge
  | S fuel' =>
      t <- time ;;
      if t - start_time <? timeout * ms_per_second then
        r <- wait_for_variation_body variation_id variation_type start_time ;;
        match r with
        | Some variation => ret variation
        | None =>
            wait_for_variation_loop fuel' variation_id variation_type start_time timeout
        end
      else
        update ("[red]" +:+ capitalize variation_type +:+ " timed out!") ;;
        raise ("Variation timed out after " +:+ str_of_int timeout +:+ " seconds")
  end.

Definition wait_for_variation (fuel : nat) (variation_id variation_type : string)
    (timeout : Z) : M (gmap string pyval) :=
  start_time <- time ;;
  add_task ("[yellow]Waiting for " +:+ variation_type +:+ " to complete...") ;;
  wait_for_variation_loop fuel variation_id variation_type start_time timeout.

(** The three loops with their texts as parameters, as [poll] above. *)
Definition poll_body (L : labels) (start_time : Z) : M (option (gmap string pyval)) :=
  try_except
    (record <- requests_get_json (status_url L) ;;
     let status := dict_get record "status" (PStr "") in
     if py_eq_str status "COMPLETE" then
       update (complete_text L) ;;
       ret (Some record)
     else if py_eq_str status "FAILED" then
       update (failed_text L) ;;
       raise (failure_text L (py_str (dict_get record "error" (PStr "Unknown error"))))
     else
       t <- time ;;
       let elapsed := int_seconds (t - start_time) in
       update (waiting_text L (str_of_int elapsed)) ;;
       sleep 3 ;;
       ret None)
    (fun e =>
       update (error_text e) ;;
       sleep 5 ;;
       ret None).

Fixpoint poll_loop (L : labels) (fuel : nat) (start_time timeout : Z)
  : M (gmap string pyval) :=
  match fuel with
  | O => diverge
  | S fuel' =>
      t <- time ;;
      if t - start_time <? timeout * ms_per_second then
        r <- poll_body L start_time ;;
        match r with
        | Some record => ret record
        | None => poll_loop L fuel' start_time timeout
        end
      else
        update (timed_out_text L) ;;
        raise (timeout_text L (str_of_int timeout))
  end.

Definition poll (L : labels) (fuel : nat) (timeout : Z) : M (gmap string pyval) :=
  start_time <- time ;;
  add_task (initial_text L) ;;
  poll_loop L fuel start_time timeout.

End Environment.

End Wall.

(** An environment that behaves, seen as a network: every request comes
    back, after the time by which the clock has moved. *)
Definition as_network (env : nat -> exchange) : nat -> response :=
  fun i =>
    Response (Z.to_N (clock_change (env i)))
             (match reply_of (env i) with
              | Answers body => FetchOk body
              | Raises msg => FetchRaise msg
              | NeverReturns => FetchRaise ""
              end).

(** A network seen as an environment: the clock moves by the time each
    request takes. *)
Definition as_environment (net : nat -> response) : nat -> exchange :=
  fun i =>
    Exchange (Z.of_N (latency (net i)))
             (match result (net i) with
              | FetchOk body => Answers body
              | FetchRaise msg => Raises msg
              end).

(** ** Passes that do not end the run *)

(** A response that tells neither success nor failure: the request
    raised, or the record's status is neither COMPLETE nor FAILED. *)
Definition still_running (r : fetch_result) : bool :=
  negb (is_complete r) && negb (is_failed r).

(** Milliseconds slept in the first [n] passes of a run. *)
Fixpoint pause_time (net : nat -> response) (n : nat) : Z :=
  match n with
  | O => 0
  | S n' => pause_time net n' + pass_pause (result (net n')) * ms_per_second
  end.

(** Milliseconds between the start of a run and its loop test number [n]
    (counted from zero), when no earlier pass has returned: the time spent
    in the [n] requests and in the [n] sleeps before it. *)
Definition request_time (net : nat -> response) (n : nat) : Z :=
  fetch_time net n + pause_time net n.

(** What the first [n] passes of such a run leave on the trace. *)
Definition rounds (net : nat -> response) (L : labels) (t0 : Z) (n : nat) : list event :=
  flat_map (fun i =>
              Get (status_url L)
              :: pass_events L t0 (t0 + request_time net i + Z.of_N (latency (net i)))
                   (result (net i)))
           (seq 0 n).

(** The world at loop test number [n] of such a run of [poll], started at
    clock reading [t0]. *)
Definition after_rounds (net : nat -> response) (L : labels) (t0 : Z) (n : nat) : world :=
  World (t0 + request_time net n) n (AddTask (initial_text L) :: rounds net L t0 n).

(** ** The three operations are instances of [poll] *)

Lemma wait_for_generation_loop_poll net fuel generation_id start_time timeout :
  wait_for_generation_loop net fuel generation_id start_time timeout
  = poll_loop net (generation_labels generation_id) fuel start_time timeout.
Proof.
  induction fuel as [|fuel IH]; [reflexivity|].
  simpl. rewrite IH. reflexivity.
Qed.

Lemma wait_for_generation_poll net fuel generation_id timeout w :
  wait_for_generation net fuel generation_id timeout w
  = poll net (generation_labels generation_id) fuel timeout w.
Proof.
  unfold wait_for_generation, poll, bind; simpl.
  now rewrite wait_for_generation_loop_poll.
Qed.

Lemma wait_for_motion_generation_loop_poll net fuel generation_id start_time timeout :
  wait_for_motion_generation_loop net fuel generation_id start_time timeout
  = poll_loop net (motion_labels generation_id) fuel start_time timeout.
Proof.
  induction fuel as [|fuel IH]; [reflexivity|].
  simpl. rewrite IH. reflexivity.
Qed.

Lemma wait_for_motion_generation_poll net fuel generation_id timeout w :
  wait_for_motion_generation net fuel generation_id timeout w
  = poll net (motion_labels generation_id) fuel timeout w.
Proof.
  unfold wait_for_motion_generation, poll, bind; simpl.
  now rewrite wait_for_motion_generation_loop_poll.
Qed.

Lemma wait_for_variation_loop_poll net fuel variation_id variation_type start_time timeout :
  wait_for_variation_loop net fuel variation_id variation_type start_time timeout
  = poll_loop net (variation_labels variation_id variation_type) fuel start_time timeout.
Proof.
  induction fuel as [|fuel IH]; [reflexivity|].
  simpl. rewrite IH. reflexivity.
Qed.

Lemma wait_for_variation_poll net fuel variation_id variation_type timeout w :
  wait_for_variation net fuel variation_id variation_type timeout w
  = poll net (variation_labels variation_id variation_type) fuel timeout w.
Proof.
  unfold wait_for_variation, poll, bind; simpl.
  now rewrite wait_for_variation_loop_poll.
Qed.

(** ** One pass and one turn of the loop *)

Section PollFacts.

Variable net : nat -> response.
Variable L : labels.

Lemma poll_body_eq start_time w :
  poll_body net L start_time w
  = (Val (pass_result (result (net (calls w)))), pass_world net L start_time w).
Proof.
  unfold poll_body, pass_world, try_except, bind, requests_get_json.
  destruct (result (net (calls w))) as [record|msg] eqn:E; simpl.
  - unfold status_of.
    destruct (py_eq_str (dict_get record "status" (PStr "")) "COMPLETE"); simpl.
    + unfold update, ret, emit; simpl. rewrite <- app_assoc. simpl.
      do 2 f_equal. unfold ms_per_second. lia.
    + destruct (py_eq_str (dict_get record "status" (PStr "")) "FAILED"); simpl.
      * unfold emit, advance; simpl. rewrite <- !app_assoc. reflexivity.
      * unfold emit, advance; simpl. rewrite <- !app_assoc. reflexivity.
  - unfold emit, advance; simpl. rewrite <- !app_assoc. reflexivity.
Qed.

(** The loop test fails: the time-out is displayed and raised. *)
Lemma poll_loop_expired fuel start_time timeout w :
  timeout * ms_per_second <= now w - start_time ->
  poll_loop net L (S fuel) start_time timeout w
  = (Exn (timeout_text L (str_of_int timeout)), emit (Update (timed_out_text L)) w).
Proof.
  intros H. simpl. unfold bind, time.
  destruct (Z.ltb_spec (now w - start_time) (timeout * ms_per_second)); [lia|].
  reflexivity.
Qed.

(** The loop test holds and the pass returns. *)
Lemma poll_loop_return fuel start_time timeout w record :
  now w - start_time < timeout * ms_per_second ->
  pass_result (result (net (calls w))) = Some record ->
  poll_loop net L (S fuel) start_time timeout w
  = (Val record, pass_world net L start_time w).
Proof.
  intros H E. simpl. unfold bind at 1. unfold time.
  destruct (Z.ltb_spec (now w - start_time) (timeout * ms_per_second)); [|lia].
  unfold bind. rewrite poll_body_eq, E. reflexivity.
Qed.

(** The loop test holds and the pass falls through. *)
Lemma poll_loop_again fuel start_time timeout w :
  now w - start_time < timeout * ms_per_second ->
  pass_result (result (net (calls w))) = None ->
  poll_loop net L (S fuel) start_time timeout w
  = poll_loop net L fuel start_time timeout (pass_world net L start_time w).
Proof.
  intros H E. simpl. unfold bind at 1. unfold time.
  destruct (Z.ltb_spec (now w - start_time) (timeout * ms_per_second)); [|lia].
  unfold bind. rewrite poll_body_eq, E. reflexivity.
Qed.

Lemma poll_eq fuel timeout w :
  poll net L fuel timeout w
  = poll_loop net L fuel (now w) timeout (emit (AddTask (initial_text L)) w).
Proof. reflexivity. Qed.

Lemma pass_pause_range r : 0 <= pass_pause r <= 5.
Proof.
  unfold pass_pause. destruct r; [|lia].
  destruct (is_complete _); [lia|]. destruct (is_failed _); lia.
Qed.

Lemma pass_pause_again r : pass_result r = None -> 3 <= pass_pause r.
Proof.
  unfold pass_pause, pass_result. destruct r; [|lia].
  destruct (is_complete _); [discriminate|]. destruct (is_failed _); lia.
Qed.

Lemma pass_pause_return r record : pass_result r = Some record -> pass_pause r = 0.
Proof.
  unfold pass_pause, pass_result. destruct r; [|discriminate].
  destruct (is_complete _); [reflexivity|discriminate].
Qed.

Lemma pass_result_complete r record :
  pass_result r = Some record <-> r = FetchOk record /\ is_complete r = true.
Proof.
  unfold pass_result. destruct r as [body|msg].
  - destruct (is_complete (FetchOk body)) eqn:E; split.
    + intros [= ->]. auto.
    + intros [[= ->] _]. reflexivity.
    + discriminate.
    + intros [_ ?]. discriminate.
  - split; [discriminate|]. intros [? _]. discriminate.
Qed.

Lemma pass_result_none r : pass_result r = None <-> is_complete r = false.
Proof.
  unfold pass_result. destruct r as [body|msg]; [|simpl; tauto].
  destruct (is_complete (FetchOk body)); split; congruence.
Qed.

(** *** The loop ends, and when *)

Section Bounded.

Variables start_time timeout bound : Z.
Hypothesis latency_bound : forall i, Z.of_N (latency (net i)) <= bound.

Lemma poll_loop_bounded fuel : forall w,
  timeout * ms_per_second - (now w - start_time) <= 3000 * Z.of_nat fuel ->
  0 <= now w - start_time <= deadline_ms timeout bound ->
  fst (poll_loop net L (S fuel) start_time timeout w) <> Div
  /\ now w <= now (snd (poll_loop net L (S fuel) start_time timeout w))
  /\ now (snd (poll_loop net L (S fuel) start_time timeout w)) - start_time
     <= deadline_ms timeout bound.
Proof.
  unfold deadline_ms, ms_per_second.
  induction fuel as [|fuel IH]; intros w Hfuel Hnow.
  - rewrite poll_loop_expired by (unfold ms_per_second; lia).
    simpl. repeat split; try lia. discriminate.
  - destruct (Z.lt_ge_cases (now w - start_time) (timeout * 1000)) as [Hlt|Hge].
    + pose proof (latency_bound (calls w)) as Hlat.
      pose proof (pass_pause_range (result (net (calls w)))) as Hp.
      destruct (pass_result (result (net (calls w)))) as [record|] eqn:E.
      * rewrite (poll_loop_return _ _ _ _ record) by (unfold ms_per_second; auto).
        apply pass_pause_return in E. simpl. rewrite E.
        unfold ms_per_second. repeat split; try lia. discriminate.
      * rewrite poll_loop_again by (unfold ms_per_second; auto).
        apply pass_pause_again in E.
        destruct (IH (pass_world net L start_time w)) as (Hd & Hlo & Hhi);
          simpl; unfold ms_per_second; try lia.
        repeat split; auto. simpl in Hlo. unfold ms_per_second in Hlo. lia.
    + rewrite poll_loop_expired by (unfold ms_per_second; lia).
      simpl. repeat split; try lia. discriminate.
Qed.

End Bounded.

(** *** What the loop can hand back *)

Lemma poll_loop_outcome start_time timeout fuel : forall w,
  match poll_loop net L fuel start_time timeout w with
  | (Val record, w') =>
      (calls w < calls w')%nat
      /\ result (net (pred (calls w'))) = FetchOk record
      /\ py_eq_str (status_of record) "COMPLETE" = true
  | (Exn msg, w') =>
      msg = timeout_text L (str_of_int timeout)
      /\ timeout * ms_per_second <= now w' - start_time
  | (Div, _) => True
  end.
Proof.
  induction fuel as [|fuel IH]; intros w; [exact I|].
  destruct (Z.lt_ge_cases (now w - start_time) (timeout * ms_per_second)) as [Hlt|Hge].
  - destruct (pass_result (result (net (calls w)))) as [record|] eqn:E.
    + rewrite (poll_loop_return _ _ _ _ record) by auto.
      apply pass_result_complete in E as [E1 E2]. simpl.
      rewrite E1 in E2. auto.
    + rewrite poll_loop_again by auto.
      specialize (IH (pass_world net L start_time w)).
      destruct (poll_loop net L fuel start_time timeout _) as [[record|msg|] w'];
        auto.
      simpl in IH. destruct IH as (? & ? & ?). repeat split; auto; lia.
  - rewrite poll_loop_expired by auto. simpl. auto.
Qed.

(** *** Request errors followed by a response *)

Lemma fetch_time_nonneg n : 0 <= fetch_time net n.
Proof. induction n; simpl; lia. Qed.

Lemma fetch_time_mono n m : (n <= m)%nat -> fetch_time net n <= fetch_time net m.
Proof. induction 1; simpl; lia. Qed.

Section Errors.

Variable msg : nat -> string.
Variables t0 timeout : Z.
Variable N : nat.
Hypothesis raises : forall i, (i < N)%nat -> result (net i) = FetchRaise (msg i).
Hypothesis in_time : 5000 * Z.of_nat N + fetch_time net N < timeout * ms_per_second.

Local Abbreviation after := (after_errors net L msg t0).

Lemma poll_loop_errors n : (n <= N)%nat -> forall fuel,
  poll_loop net L (n + fuel) t0 timeout (after 0)
  = poll_loop net L fuel t0 timeout (after n).
Proof.
  induction n as [|n IH]; intros Hn fuel; [reflexivity|].
  replace (S n + fuel)%nat with (n + S fuel)%nat by lia.
  rewrite IH by lia.
  pose proof (fetch_time_mono n N ltac:(lia)).
  rewrite poll_loop_again.
  - f_equal. unfold pass_world, after_errors. simpl calls. rewrite raises by lia.
    simpl. f_equal.
    + unfold ms_per_second. lia.
    + unfold error_rounds. rewrite seq_S, flat_map_app. reflexivity.
  - simpl. lia.
  - simpl. rewrite raises by lia. reflexivity.
Qed.

Lemma poll_errors_then_complete record fuel :
  result (net N) = FetchOk record ->
  py_eq_str (status_of record) "COMPLETE" = true ->
  (N < fuel)%nat ->
  poll net L fuel timeout (fresh t0)
  = (Val record,
     World (t0 + fetch_time net (S N) + 5000 * Z.of_nat N) (S N)
           (AddTask (initial_text L)
            :: error_rounds (status_url L) msg N
            ++ [Get (status_url L); Update (complete_text L)])).
Proof.
  intros Hok Hc Hfuel. rewrite poll_eq.
  replace fuel with (N + S (fuel - S N))%nat by lia.
  replace (emit _ _) with (after 0)
    by (unfold after_errors, emit, fresh; simpl; f_equal; lia).
  rewrite poll_loop_errors by lia.
  rewrite (poll_loop_return _ _ _ _ record).
  - unfold pass_world, after_errors. simpl calls. rewrite Hok. simpl.
    unfold is_complete. rewrite Hc. simpl. do 2 f_equal.
    unfold ms_per_second. lia.
  - simpl. lia.
  - simpl. rewrite Hok. simpl. rewrite Hc. reflexivity.
Qed.

End Errors.

End PollFacts.

(** ** Two sets of labels, one behaviour *)

Section Similar.

Variable net : nat -> response.
Variables L1 L2 : labels.

Lemma pass_events_shape start_time arrived r :
  map shape_of (pass_events L1 start_time arrived r)
  = map shape_of (pass_events L2 start_time arrived r).
Proof.
  unfold pass_events. destruct r; [|reflexivity].
  destruct (is_complete _); [reflexivity|].
  destruct (is_failed _); reflexivity.
Qed.

Lemma pass_world_alike start_time w1 w2 :
  alike w1 w2 ->
  alike (pass_world net L1 start_time w1) (pass_world net L2 start_time w2).
Proof.
  intros (Hn & Hc & Ht). unfold alike, pass_world. simpl.
  rewrite Hn, Hc. repeat split.
  rewrite !map_app. simpl. rewrite Ht. do 2 f_equal.
  apply pass_events_shape.
Qed.

Lemma emit_alike e1 e2 w1 w2 :
  shape_of e1 = shape_of e2 -> alike w1 w2 -> alike (emit e1 w1) (emit e2 w2).
Proof.
  intros He (Hn & Hc & Ht). unfold alike, emit. simpl.
  rewrite !map_app. simpl. rewrite Ht, He. auto.
Qed.

Lemma poll_loop_similar start_time timeout fuel : forall w1 w2,
  alike w1 w2 ->
  similar (timeout_text L1 (str_of_int timeout)) (timeout_text L2 (str_of_int timeout))
    (fst (poll_loop net L1 fuel start_time timeout w1))
    (fst (poll_loop net L2 fuel start_time timeout w2))
  /\ alike (snd (poll_loop net L1 fuel start_time timeout w1))
           (snd (poll_loop net L2 fuel start_time timeout w2)).
Proof.
  induction fuel as [|fuel IH]; intros w1 w2 Hw.
  - simpl. split; [constructor|assumption].
  - pose proof Hw as (Hn & Hc & _).
    destruct (Z.lt_ge_cases (now w1 - start_time) (timeout * ms_per_second))
      as [Hlt|Hge].
    + destruct (pass_result (result (net (calls w1)))) as [record|] eqn:E.
      * rewrite (poll_loop_return _ _ _ _ _ _ record) by auto.
        rewrite (poll_loop_return _ _ _ _ _ _ record) by (rewrite <- ?Hn, <- ?Hc; auto).
        simpl. split; [constructor|]. now apply pass_world_alike.
      * rewrite poll_loop_again by auto.
        rewrite (poll_loop_again _ L2) by (rewrite <- ?Hn, <- ?Hc; auto).
        apply IH. now apply pass_world_alike.
    + rewrite poll_loop_expired by auto.
      rewrite poll_loop_expired by (rewrite <- Hn; auto).
      simpl. split; [constructor|]. now apply emit_alike.
Qed.

Lemma poll_similar timeout fuel w :
  similar (timeout_text L1 (str_of_int timeout)) (timeout_text L2 (str_of_int timeout))
    (fst (poll net L1 fuel timeout w)) (fst (poll net L2 fuel timeout w))
  /\ alike (snd (poll net L1 fuel timeout w)) (snd (poll net L2 fuel timeout w)).
Proof.
  rewrite !poll_eq. apply poll_loop_similar.
  apply emit_alike; [reflexivity|]. repeat split.
Qed.

End Similar.

(** ** Elapsed time as [wait_for_generation] reports it *)

Section Reports.

Variable net : nat -> response.
Variable generation_id : string.

Local Abbreviation G := (generation_labels generation_id).

Lemma int_seconds_mono a b : a <= b -> int_seconds a <= int_seconds b.
Proof. intros H. unfold int_seconds, ms_per_second. apply Z.quot_le_mono; lia. Qed.

Lemma elapsed_reports_app tr1 tr2 :
  elapsed_reports (tr1 ++ tr2) = (elapsed_reports tr1 ++ elapsed_reports tr2)%list.
Proof. apply flat_map_app. Qed.

Lemma is_elapsed_report_waiting elapsed :
  is_elapsed_report (waiting_text G elapsed) = true.
Proof.
  unfold is_elapsed_report. simpl.
  destruct (elapsed +:+ "s)"); reflexivity.
Qed.

Lemma elapsed_reports_pass start_time arrived r :
  elapsed_reports (Get (status_url G) :: pass_events G start_time arrived r)
  = if (is_complete r || is_failed r)%bool then []
    else match r with
         | FetchOk _ =>
             [waiting_text G (str_of_int (int_seconds (arrived - start_time)))]
         | FetchRaise _ => []
         end.
Proof.
  unfold pass_events. destruct r as [record|msg]; [|reflexivity].
  destruct (is_complete _); [reflexivity|].
  destruct (is_failed _); [reflexivity|].
  cbn [orb elapsed_reports flat_map app].
  now rewrite is_elapsed_report_waiting.
Qed.

Lemma generation_reports_sorted start_time timeout fuel : forall w,
  exists es,
    elapsed_reports (trace (snd (poll_loop net G fuel start_time timeout w)))
    = (elapsed_reports (trace w)
       ++ map (fun e => waiting_text G (str_of_int e)) es)%list
    /\ Sorted Z.le es
    /\ Forall (fun e => int_seconds (now w - start_time) <= e) es.
Proof.
  induction fuel as [|fuel IH]; intros w.
  - exists []. simpl. rewrite app_nil_r. auto.
  - destruct (Z.lt_ge_cases (now w - start_time) (timeout * ms_per_second))
      as [Hlt|Hge].
    + destruct (pass_result (result (net (calls w)))) as [record|] eqn:E.
      * rewrite (poll_loop_return _ _ _ _ _ _ record) by auto.
        exists []. simpl. rewrite elapsed_reports_app, elapsed_reports_pass.
        apply pass_result_complete in E as [_ ->]. simpl. auto.
      * rewrite poll_loop_again by auto.
        destruct (IH (pass_world net G start_time w)) as (es & Htr & Hs & Hlo).
        rewrite Htr. simpl trace. rewrite elapsed_reports_app, elapsed_reports_pass.
        pose proof (pass_pause_range (result (net (calls w)))) as Hp.
        assert (Hmono : forall e,
                   int_seconds (now (pass_world net G start_time w) - start_time) <= e ->
                   int_seconds (now w + Z.of_N (latency (net (calls w))) - start_time) <= e).
        { intros e He. etransitivity; [|exact He]. apply int_seconds_mono.
          simpl. unfold ms_per_second. lia. }
        assert (Hlo' : Forall (fun e => int_seconds (now w + Z.of_N (latency (net (calls w)))
                                                      - start_time) <= e) es).
        { eapply List.Forall_impl; [exact Hmono|exact Hlo]. }
        assert (Hstart : forall e,
                   int_seconds (now w + Z.of_N (latency (net (calls w))) - start_time) <= e ->
                   int_seconds (now w - start_time) <= e).
        { intros e He. etransitivity; [|exact He]. apply int_seconds_mono. lia. }
        apply pass_result_none in E. rewrite E. simpl orb.
        destruct (is_failed _).
        -- exists es. rewrite app_nil_r. repeat split; auto.
           eapply List.Forall_impl; [exact Hstart|exact Hlo'].
        -- destruct (result (net (calls w))) as [record|msg].
           ++ exists (int_seconds (now w + Z.of_N (latency (net (calls w))) - start_time)
                      :: es).
              rewrite <- app_assoc. repeat split.
              ** constructor; [assumption|].
                 destruct es; constructor. now inversion Hlo'.
              ** constructor.
                 --- apply int_seconds_mono. lia.
                 --- eapply List.Forall_impl; [exact Hstart|exact Hlo'].
           ++ exists es. rewrite app_nil_r. repeat split; auto.
              eapply List.Forall_impl; [exact Hstart|exact Hlo'].
    + rewrite poll_loop_expired by auto.
      exists []. simpl. rewrite elapsed_reports_app. simpl. auto.
Qed.

End Reports.

(** ** Further facts about [poll] *)

Section MoreFacts.

Variable net : nat -> response.
Variable L : labels.

Lemma py_eq_str_false v lit : v <> PStr lit -> py_eq_str v lit = false.
Proof.
  destruct v as [s|repr]; simpl; [|reflexivity].
  intros H. apply String.eqb_neq. congruence.
Qed.

(** A run only adds to the trace and to the count of requests. *)
Lemma poll_loop_extends start_time timeout fuel : forall w,
  (calls w <= calls (snd (poll_loop net L fuel start_time timeout w)))%nat
  /\ exists tr, trace (snd (poll_loop net L fuel start_time timeout w)) = (trace w ++ tr)%list.
Proof.
  induction fuel as [|fuel IH]; intros w.
  - simpl. split; [lia|]. exists []. now rewrite app_nil_r.
  - destruct (Z.lt_ge_cases (now w - start_time) (timeout * ms_per_second)) as [Hlt|Hge].
    + destruct (pass_result (result (net (calls w)))) as [record|] eqn:E.
      * rewrite (poll_loop_return _ _ _ _ _ _ record) by auto. simpl.
        split; [lia|]. eauto.
      * rewrite poll_loop_again by auto.
        destruct (IH (pass_world net L start_time w)) as (Hc & tr & Ht).
        change (calls (pass_world net L start_time w)) with (S (calls w)) in Hc.
        split; [lia|]. rewrite Ht. simpl.
        rewrite <- app_assoc. eauto.
    + rewrite poll_loop_expired by auto. simpl. split; [lia|]. eauto.
Qed.

(** With a positive budget the first thing a run does after setting up
    the display is to request the status. *)
Lemma poll_first_request fuel timeout t0 :
  0 < timeout ->
  (0 < calls (snd (poll net L (S fuel) timeout (fresh t0))))%nat
  /\ exists tr,
      trace (snd (poll net L (S fuel) timeout (fresh t0)))
      = AddTask (initial_text L) :: Get (status_url L) :: tr.
Proof.
  intros Hpos. rewrite poll_eq.
  set (w := emit (AddTask (initial_text L)) (fresh t0)).
  assert (Hlt : now w - now (fresh t0) < timeout * ms_per_second)
    by (simpl; unfold ms_per_second; lia).
  destruct (pass_result (result (net (calls w)))) as [record|] eqn:E.
  - rewrite (poll_loop_return _ _ _ _ _ _ record) by auto. simpl. split; [lia|]. eauto.
  - rewrite poll_loop_again by auto.
    destruct (poll_loop_extends (now (fresh t0)) timeout fuel
                (pass_world net L (now (fresh t0)) w)) as (Hc & tr & Ht).
    change (calls (pass_world net L (now (fresh t0)) w)) with (S (calls w)) in Hc.
    split; [lia|]. rewrite Ht. simpl. eauto.
Qed.

(** Without a budget nothing is requested. *)
Lemma poll_no_budget fuel timeout t0 :
  timeout <= 0 ->
  poll net L (S fuel) timeout (fresh t0)
  = (Exn (timeout_text L (str_of_int timeout)),
     World t0 0 [AddTask (initial_text L); Update (timed_out_text L)]).
Proof.
  intros H. rewrite poll_eq, poll_loop_expired; [reflexivity|].
  simpl. unfold ms_per_second. lia.
Qed.

Lemma poll_bounded fuel timeout t0 bound :
  (forall i, Z.of_N (latency (net i)) <= bound) ->
  (Z.to_nat timeout < fuel)%nat ->
  finished (fst (poll net L fuel timeout (fresh t0)))
  /\ 0 <= elapsed_ms t0 (snd (poll net L fuel timeout (fresh t0)))
     <= deadline_ms timeout bound.
Proof.
  intros Hlat Hfuel. rewrite poll_eq.
  destruct fuel as [|fuel]; [lia|].
  pose proof (Hlat 0%nat) as H0.
  destruct (poll_loop_bounded net L t0 timeout bound Hlat fuel
              (emit (AddTask (initial_text L)) (fresh t0))) as (Hd & Hlo & Hhi).
  - simpl. unfold ms_per_second. lia.
  - simpl. unfold deadline_ms, ms_per_second. lia.
  - change (now (fresh t0)) with t0.
    change (now (emit (AddTask (initial_text L)) (fresh t0))) with t0 in Hlo.
    unfold elapsed_ms. split; [|lia].
    destruct (fst _); simpl; auto.
Qed.

End MoreFacts.

Lemma similar_same m r1 r2 : similar m m r1 r2 -> r1 = r2.
Proof. now destruct 1. Qed.

(** The only exception a run raises is the time-out. *)
Lemma poll_raises_only_timeout net L fuel timeout w msg :
  fst (poll net L fuel timeout w) = Exn msg -> msg = timeout_text L (str_of_int timeout).
Proof.
  rewrite poll_eq. intros H.
  pose proof (poll_loop_outcome net L (now w) timeout fuel
                (emit (AddTask (initial_text L)) w)) as Ho.
  destruct (poll_loop net L fuel (now w) timeout _) as [[record|msg'|] w'];
    simpl in H; try discriminate.
  destruct Ho as [-> _]. congruence.
Qed.

(** ** Runs pass by pass *)

Section RoundFacts.

Variable net : nat -> response.
Variable L : labels.

Lemma pause_time_mono n m : (n <= m)%nat -> pause_time net n <= pause_time net m.
Proof.
  induction 1 as [|m Hle IH]; [lia|]. simpl.
  pose proof (pass_pause_range (result (net m))). unfold ms_per_second. lia.
Qed.

Lemma request_time_mono n m : (n <= m)%nat -> request_time net n <= request_time net m.
Proof.
  intros H. unfold request_time.
  pose proof (fetch_time_mono net n m H). pose proof (pause_time_mono n m H). lia.
Qed.

(** A pass that falls through takes three seconds at least. *)
Lemma request_time_step n :
  pass_result (result (net n)) = None ->
  request_time net n + 3000 <= request_time net (S n).
Proof.
  intros E. apply pass_pause_again in E. unfold request_time. simpl.
  unfold ms_per_second. lia.
Qed.

Lemma rounds_S t0 n :
  rounds net L t0 (S n)
  = (rounds net L t0 n
     ++ Get (status_url L)
        :: pass_events L t0 (t0 + request_time net n + Z.of_N (latency (net n)))
             (result (net n)))%list.
Proof.
  unfold rounds. rewrite seq_S, flat_map_app. simpl. now rewrite app_nil_r.
Qed.

Lemma pass_world_rounds t0 n :
  pass_world net L t0 (after_rounds net L t0 n) = after_rounds net L t0 (S n).
Proof.
  unfold pass_world, after_rounds. simpl calls. simpl now. simpl trace.
  rewrite rounds_S. f_equal.
  unfold request_time. simpl. lia.
Qed.

Lemma after_rounds_0 t0 :
  emit (AddTask (initial_text L)) (fresh t0) = after_rounds net L t0 0.
Proof.
  unfold after_rounds, emit, fresh, request_time. simpl. f_equal. lia.
Qed.

(** [n] passes that fall through, each begun within the budget. *)
Lemma poll_loop_rounds t0 timeout n : forall fuel,
  (forall i, (i < n)%nat -> pass_result (result (net i)) = None) ->
  (forall i, (i < n)%nat -> request_time net i < timeout * ms_per_second) ->
  poll_loop net L (n + fuel) t0 timeout (after_rounds net L t0 0)
  = poll_loop net L fuel t0 timeout (after_rounds net L t0 n).
Proof.
  induction n as [|n IH]; intros fuel Hnone Htime; [reflexivity|].
  replace (S n + fuel)%nat with (n + S fuel)%nat by lia.
  rewrite IH by (intros; (apply Hnone || apply Htime); lia).
  rewrite poll_loop_again.
  - now rewrite pass_world_rounds.
  - simpl. specialize (Htime n ltac:(lia)). lia.
  - simpl. apply Hnone. lia.
Qed.

Lemma poll_run_rounds t0 timeout n fuel :
  (forall i, (i < n)%nat -> pass_result (result (net i)) = None) ->
  (forall i, (i < n)%nat -> request_time net i < timeout * ms_per_second) ->
  poll net L (n + fuel) timeout (fresh t0)
  = poll_loop net L fuel t0 timeout (after_rounds net L t0 n).
Proof.
  intros Hnone Htime. rewrite poll_eq, after_rounds_0.
  now apply poll_loop_rounds.
Qed.

(** Such passes and then a record that says COMPLETE. *)
Lemma poll_rounds_then_complete t0 timeout n fuel record :
  (forall i, (i < n)%nat -> pass_result (result (net i)) = None) ->
  request_time net n < timeout * ms_per_second ->
  result (net n) = FetchOk record ->
  py_eq_str (status_of record) "COMPLETE" = true ->
  (n < fuel)%nat ->
  poll net L fuel timeout (fresh t0)
  = (Val record,
     World (t0 + request_time net n + Z.of_N (latency (net n))) (S n)
           (AddTask (initial_text L)
            :: rounds net L t0 n ++ [Get (status_url L); Update (complete_text L)])).
Proof.
  intros Hnone Htime Hok Hc Hfuel.
  replace fuel with (n + S (fuel - S n))%nat by lia.
  rewrite poll_run_rounds; auto.
  - rewrite (poll_loop_return _ _ _ _ _ _ record).
    + unfold pass_world, after_rounds. simpl calls. simpl now. simpl trace.
      rewrite Hok. simpl. unfold is_complete. rewrite Hc. simpl.
      do 2 f_equal. unfold ms_per_second. lia.
    + simpl. lia.
    + simpl. rewrite Hok. simpl. now rewrite Hc.
  - intros i Hi. pose proof (request_time_mono i n ltac:(lia)). lia.
Qed.

(** When every pass begun within the budget falls through, the run ends
    with the time-out, at the first loop test that finds the budget
    spent. *)
Lemma poll_loop_rounds_time_out t0 timeout fuel : forall m,
  (forall i, request_time net i < timeout * ms_per_second ->
             pass_result (result (net i)) = None) ->
  (forall i, (i < m)%nat -> request_time net i < timeout * ms_per_second) ->
  timeout * ms_per_second - request_time net m <= 3000 * Z.of_nat fuel ->
  exists n,
    poll_loop net L (S fuel) t0 timeout (after_rounds net L t0 m)
    = (Exn (timeout_text L (str_of_int timeout)),
       emit (Update (timed_out_text L)) (after_rounds net L t0 n))
    /\ timeout * ms_per_second <= request_time net n
    /\ forall i, (i < n)%nat -> request_time net i < timeout * ms_per_second.
Proof.
  induction fuel as [|fuel IH]; intros m Hnone Hbefore Hfuel.
  - exists m. rewrite poll_loop_expired by (simpl; lia). repeat split; auto. lia.
  - destruct (Z.lt_ge_cases (request_time net m) (timeout * ms_per_second))
      as [Hlt|Hge].
    + rewrite poll_loop_again by (simpl; auto; lia).
      rewrite pass_world_rounds. apply IH; auto.
      * intros i Hi. destruct (Nat.eq_dec i m) as [->|]; [assumption|].
        apply Hbefore. lia.
      * pose proof (request_time_step m (Hnone m Hlt)). lia.
    + exists m. rewrite poll_loop_expired by (simpl; lia). repeat split; auto.
Qed.

(** A run that is still under way after [k] passes goes on, given more
    fuel, from the world it has reached. *)
Lemma poll_loop_resume start_time timeout k : forall w0 w m,
  poll_loop net L k start_time timeout w0 = (Div, w) ->
  poll_loop net L (k + m) start_time timeout w0 = poll_loop net L m start_time timeout w.
Proof.
  induction k as [|k IH]; intros w0 w m H.
  - simpl in H. unfold diverge in H. now injection H as ->.
  - destruct (Z.lt_ge_cases (now w0 - start_time) (timeout * ms_per_second)) as [Hlt|Hge].
    + destruct (pass_result (result (net (calls w0)))) as [record|] eqn:E.
      * rewrite (poll_loop_return _ _ _ _ _ _ record) in H by auto. discriminate.
      * rewrite poll_loop_again in H by auto.
        change (S k + m)%nat with (S (k + m)). rewrite poll_loop_again by auto.
        now apply IH.
    + rewrite poll_loop_expired in H by auto. discriminate.
Qed.

(** One more pass of such a run, when that pass falls through: the run
    is at the loop test again, and from there either raises the time-out
    or makes the next request. *)
Lemma poll_pass_continues timeout t0 k w :
  poll net L k timeout (fresh t0) = (Div, w) ->
  now w - t0 < timeout * ms_per_second ->
  pass_result (result (net (calls w))) = None ->
  poll net L (k + 1) timeout (fresh t0) = (Div, pass_world net L t0 w)
  /\ (timeout * ms_per_second <= now (pass_world net L t0 w) - t0 ->
      forall fuel,
        poll net L (k + 2 + fuel) timeout (fresh t0)
        = (Exn (timeout_text L (str_of_int timeout)),
           emit (Update (timed_out_text L)) (pass_world net L t0 w)))
  /\ (now (pass_world net L t0 w) - t0 < timeout * ms_per_second ->
      forall fuel,
        (calls w + 2 <= calls (snd (poll net L (k + 2 + fuel) timeout (fresh t0))))%nat
        /\ exists tr,
            trace (snd (poll net L (k + 2 + fuel) timeout (fresh t0)))
            = (trace (pass_world net L t0 w) ++ Get (status_url L) :: tr)%list).
Proof.
  rewrite !poll_eq. change (now (fresh t0)) with t0. intros Hk Hlt E.
  set (w' := pass_world net L t0 w).
  split; [|split].
  - rewrite (poll_loop_resume _ _ _ _ _ _ Hk). now rewrite poll_loop_again.
  - intros Hge fuel. rewrite poll_eq. change (now (fresh t0)) with t0.
    replace (k + 2 + fuel)%nat with (k + S (S fuel))%nat by lia.
    rewrite (poll_loop_resume _ _ _ _ _ _ Hk), poll_loop_again by auto.
    now rewrite poll_loop_expired.
  - intros Hlt' fuel. rewrite poll_eq. change (now (fresh t0)) with t0.
    replace (k + 2 + fuel)%nat with (k + S (S fuel))%nat by lia.
    rewrite (poll_loop_resume _ _ _ _ _ _ Hk), poll_loop_again by auto.
    fold w'.
    destruct (pass_result (result (net (calls w')))) as [record|] eqn:E'.
    + rewrite (poll_loop_return _ _ _ _ _ _ record) by auto. simpl.
      split; [lia|]. eauto.
    + rewrite poll_loop_again by auto.
      destruct (poll_loop_extends net L t0 timeout fuel (pass_world net L t0 w'))
        as (Hc & tr & Ht).
      change (calls (pass_world net L t0 w')) with (S (calls w')) in Hc.
      change (calls w') with (S (calls w)) in Hc.
      split; [lia|]. rewrite Ht. simpl trace. rewrite <- app_assoc. simpl. eauto.
Qed.

End RoundFacts.

(** ** The environment at large and the network *)

Section WallFacts.

Variable env : nat -> exchange.

Lemma wall_generation_loop_poll fuel generation_id start_time timeout :
  Wall.wait_for_generation_loop env fuel generation_id start_time timeout
  = Wall.poll_loop env (generation_labels generation_id) fuel start_time timeout.
Proof.
  induction fuel as [|fuel IH]; [reflexivity|].
  simpl. rewrite IH. reflexivity.
Qed.

Lemma wall_generation_poll fuel generation_id timeout w :
  Wall.wait_for_generation env fuel generation_id timeout w
  = Wall.poll env (generation_labels generation_id) fuel timeout w.
Proof.
  unfold Wall.wait_for_generation, Wall.poll, bind; simpl.
  now rewrite wall_generation_loop_poll.
Qed.

Lemma wall_motion_loop_poll fuel generation_id start_time timeout :
  Wall.wait_for_motion_generation_loop env fuel generation_id start_time timeout
  = Wall.poll_loop env (motion_labels generation_id) fuel start_time timeout.
Proof.
  induction fuel as [|fuel IH]; [reflexivity|].
  simpl. rewrite IH. reflexivity.
Qed.

Lemma wall_motion_poll fuel generation_id timeout w :
  Wall.wait_for_motion_generation env fuel generation_id timeout w
  = Wall.poll env (motion_labels generation_id) fuel timeout w.
Proof.
  unfold Wall.wait_for_motion_generation, Wall.poll, bind; simpl.
  now rewrite wall_motion_loop_poll.
Qed.



Variable L : labels.

Lemma wall_loop_step fuel start_time timeout w :
  Wall.poll_loop env L (S fuel) start_time timeout w
  = if now w - start_time <? timeout * ms_per_second then
      match Wall.poll_body env L start_time w with
      | (Val (Some record), w') => (Val record, w')
      | (Val None, w') => Wall.poll_loop env L fuel start_time timeout w'
      | (Exn msg, w') => (Exn msg, w')
      | (Div, w') => (Div, w')
      end
    else
      (Exn (timeout_text L (str_of_int timeout)), emit (Update (timed_out_text L)) w).
Proof.
  simpl. unfold bind at 1. unfold time.
  destruct (now w - start_time <? timeout * ms_per_second); [|reflexivity].
  unfold bind.
  destruct (Wall.poll_body env L start_time w) as [[[record|]|msg|] w']; reflexivity.
Qed.

(** A request that comes back, the clock not set back meanwhile: the pass
    is the pass of the well-behaved world. *)
Lemma wall_body_returns start_time w :
  reply_of (env (calls w)) <> NeverReturns ->
  0 <= clock_change (env (calls w)) ->
  Wall.poll_body env L start_time w = poll_body (as_network env) L start_time w.
Proof.
  intros Hr Hc.
  unfold Wall.poll_body, poll_body, try_except, bind,
    Wall.requests_get_json, requests_get_json, as_network.
  cbn [latency result]. rewrite Z2N.id by exact Hc.
  destruct (reply_of (env (calls w))); [reflexivity|reflexivity|contradiction].
Qed.

(** A request that never comes back: so much for the pass. *)
Lemma wall_body_blocks start_time w :
  reply_of (env (calls w)) = NeverReturns ->
  Wall.poll_body env L start_time w
  = (Div, World (now w) (S (calls w)) (trace w ++ [Get (status_url L)])).
Proof.
  intros Hr. unfold Wall.poll_body, try_except, bind, Wall.requests_get_json.
  now rewrite Hr.
Qed.

(** As long as the clock is not set back, a run in the environment at
    large is the run of the well-behaved world, up to the first request
    that never comes back. *)
Lemma wall_loop_cases start_time timeout :
  (forall i, 0 <= clock_change (env i)) ->
  forall fuel w,
    Wall.poll_loop env L fuel start_time timeout w
    = poll_loop (as_network env) L fuel start_time timeout w
    \/ exists k w1,
        (k < fuel)%nat
        /\ poll_loop (as_network env) L k start_time timeout w = (Div, w1)
        /\ reply_of (env (calls w1)) = NeverReturns
        /\ Wall.poll_loop env L fuel start_time timeout w
           = (Div, World (now w1) (S (calls w1)) (trace w1 ++ [Get (status_url L)])).
Proof.
  intros Hclock. induction fuel as [|fuel IH]; intros w; [now left|].
  rewrite wall_loop_step.
  destruct (Z.ltb_spec (now w - start_time) (timeout * ms_per_second)) as [Hlt|Hge].
  - destruct (reply_of (env (calls w))) eqn:Er.
    1,2: rewrite wall_body_returns by (rewrite ?Er; auto; discriminate);
      rewrite poll_body_eq;
      (destruct (pass_result (result (as_network env (calls w)))) as [record|] eqn:E;
       [ left; now rewrite (poll_loop_return _ _ _ _ _ _ record) by auto
       | rewrite poll_loop_again by auto;
         destruct (IH (pass_world (as_network env) L start_time w))
           as [Hsame|(k & w1 & Hk & Hrun & Hblock & Hwall)];
         [ left; exact Hsame
         | right; exists (S k), w1; repeat split; auto; [lia|];
           now rewrite poll_loop_again by auto ] ]).
    right. exists 0%nat, w. repeat split; auto; [lia|].
    now rewrite wall_body_blocks.
  - left. now rewrite poll_loop_expired by lia.
Qed.

Lemma wall_poll_cases timeout fuel w :
  (forall i, 0 <= clock_change (env i)) ->
  Wall.poll env L fuel timeout w = poll (as_network env) L fuel timeout w
  \/ exists k w1,
      (k < fuel)%nat
      /\ poll (as_network env) L k timeout w = (Div, w1)
      /\ reply_of (env (calls w1)) = NeverReturns
      /\ Wall.poll env L fuel timeout w
         = (Div, World (now w1) (S (calls w1)) (trace w1 ++ [Get (status_url L)])).
Proof.
  intros Hclock. unfold Wall.poll, poll, bind, time, add_task.
  apply wall_loop_cases. exact Hclock.
Qed.

(** With every request coming back as well, the two runs are the same. *)
Lemma wall_poll_settled timeout fuel w :
  (forall i, reply_of (env i) <> NeverReturns) ->
  (forall i, 0 <= clock_change (env i)) ->
  Wall.poll env L fuel timeout w = poll (as_network env) L fuel timeout w.
Proof.
  intros Hback Hclock.
  destruct (wall_poll_cases timeout fuel w Hclock)
    as [H|(k & w1 & _ & _ & Hblock & _)]; [exact H|].
  now destruct (Hback (calls w1)).
Qed.

(** The run ends, and when. *)
Lemma wall_poll_bounded timeout t0 bound fuel :
  (forall i, reply_of (env i) <> NeverReturns) ->
  (forall i, 0 <= clock_change (env i) <= bound) ->
  (Z.to_nat timeout < fuel)%nat ->
  finished (fst (Wall.poll env L fuel timeout (fresh t0)))
  /\ 0 <= elapsed_ms t0 (snd (Wall.poll env L fuel timeout (fresh t0)))
     <= deadline_ms timeout bound.
Proof.
  intros Hback Hclock Hfuel.
  rewrite wall_poll_settled by (auto; intros i; apply Hclock).
  apply poll_bounded; [|assumption].
  intros i. unfold as_network. cbn [latency].
  rewrite Z2N.id; apply Hclock.
Qed.

(** A first request that never comes back. *)
Lemma wall_poll_blocks timeout t0 fuel :
  0 < timeout ->
  reply_of (env 0%nat) = NeverReturns ->
  Wall.poll env L (S fuel) timeout (fresh t0)
  = (Div, World t0 1 [AddTask (initial_text L); Get (status_url L)]).
Proof.
  intros Hpos Hblock. unfold Wall.poll, bind, time, add_task.
  rewrite wall_loop_step.
  destruct (Z.ltb_spec (now (emit (AddTask (initial_text L)) (fresh t0)) - now (fresh t0))
              (timeout * ms_per_second)) as [_|Hge];
    [|simpl in Hge; unfold ms_per_second in Hge; lia].
  now rewrite wall_body_blocks.
Qed.

End WallFacts.

Lemma wall_run_cases env generation_id timeout fuel w :
  (forall i, 0 <= clock_change (env i)) ->
  Wall.wait_for_generation env fuel generation_id timeout w
  = wait_for_generation (as_network env) fuel generation_id timeout w
  \/ exists k w1,
      (k < fuel)%nat
      /\ wait_for_generation (as_network env) k generation_id timeout w = (Div, w1)
      /\ reply_of (env (calls w1)) = NeverReturns
      /\ Wall.wait_for_generation env fuel generation_id timeout w
         = (Div, World (now w1) (S (calls w1))
                   (trace w1
                    ++ [Get (API_BASE_URL +:+ "/generations/" +:+ generation_id)])).
Proof.
  intros Hclock. rewrite wall_generation_poll, wait_for_generation_poll.
  destruct (wall_poll_cases env (generation_labels generation_id) timeout fuel w Hclock)
    as [H|(k & w1 & Hk & Hrun & Hblock & Hwall)]; [now left|].
  right. exists k, w1. rewrite wait_for_generation_poll. auto.
Qed.

(** The well-behaved world is the environment at large when it behaves:
    over a network seen as an environment, the two embeddings of
    [wait_for_generation] run alike. *)
Lemma wall_run_network net generation_id timeout fuel w :
  Wall.wait_for_generation (as_environment net) fuel generation_id timeout w
  = wait_for_generation net fuel generation_id timeout w.
Proof.
  rewrite wall_generation_poll, wait_for_generation_poll.
  unfold Wall.poll, poll, bind, time, add_task.
  generalize (emit (AddTask (initial_text (generation_labels generation_id))) w) as w1.
  generalize (now w) as start_time.
  intros start_time. induction fuel as [|fuel IH]; intros w1; [reflexivity|].
  rewrite wall_loop_step. simpl poll_loop. unfold bind at 1. unfold time.
  destruct (now w1 - start_time <? timeout * ms_per_second); [|reflexivity].
  assert (Hbody : Wall.poll_body (as_environment net) (generation_labels generation_id)
                    start_time w1
                  = poll_body net (generation_labels generation_id) start_time w1).
  { unfold Wall.poll_body, poll_body, try_except, bind,
      Wall.requests_get_json, requests_get_json, as_environment.
    cbn [clock_change reply_of].
    destruct (result (net (calls w1))); reflexivity. }
  rewrite Hbody. unfold bind.
  destruct (poll_body net (generation_labels generation_id) start_time w1)
    as [[[record|]|msg|] w']; try reflexivity.
  apply IH.
Qed.

(** ** Responses that tell neither success nor failure *)

Lemma still_running_spec r :
  still_running r = true <-> is_complete r = false /\ is_failed r = false.
Proof.
  unfold still_running. destruct (is_complete r), (is_failed r); simpl; intuition congruence.
Qed.

Lemma still_running_falls_through r : still_running r = true -> pass_result r = None.
Proof. intros H. apply pass_result_none. now apply still_running_spec in H. Qed.

Lemma rounds_still_running net L t0 n :
  (forall i, (i < n)%nat -> still_running (result (net i)) = true) ->
  rounds net L t0 n
  = flat_map (fun i =>
                match result (net i) with
                | FetchRaise msg => [Get (status_url L); Update (error_text msg); Sleep 5]
                | FetchOk _ =>
                    [Get (status_url L);
                     Update (waiting_text L
                               (str_of_int (int_seconds (request_time net i
                                                         + Z.of_N (latency (net i))))));
                     Sleep 3]
                end) (seq 0 n).
Proof.
  induction n as [|n IH]; intros H; [reflexivity|].
  rewrite rounds_S, seq_S, flat_map_app, IH by (intros; apply H; lia).
  f_equal. simpl. rewrite app_nil_r.
  specialize (H n ltac:(lia)). apply still_running_spec in H as [Hc Hf].
  unfold pass_events. destruct (result (net n)) as [record|msg]; [|reflexivity].
  rewrite Hc, Hf.
  now replace (t0 + request_time net n + Z.of_N (latency (net n)) - t0)
    with (request_time net n + Z.of_N (latency (net n))) by lia.
Qed.

(** When the first [n] requests all raise, the [n] passes take the time of
    the requests and [n] sleeps of five seconds. *)
Lemma request_time_errors net n :
  (forall i, (i < n)%nat -> exists msg, result (net i) = FetchRaise msg) ->
  request_time net n = fetch_time net n + 5000 * Z.of_nat n.
Proof.
  unfold request_time. induction n as [|n IH]; intros H; [reflexivity|].
  specialize (IH ltac:(intros; apply H; lia)).
  destruct (H n ltac:(lia)) as [msg Hmsg].
  simpl. rewrite Hmsg. simpl. unfold ms_per_second. lia.
Qed.

(** The state of a run after [k] passes that neither returned nor told a
    failure, each begun within the budget; and what one more pass that
    falls through leads to. *)
Lemma poll_rounds_continue net L timeout t0 k :
  (forall i, (i < k)%nat -> still_running (result (net i)) = true) ->
  request_time net k < timeout * ms_per_second ->
  pass_result (result (net k)) = None ->
  poll net L k timeout (fresh t0) = (Div, after_rounds net L t0 k)
  /\ poll net L (k + 1) timeout (fresh t0) = (Div, after_rounds net L t0 (S k))
  /\ (timeout * ms_per_second <= request_time net (S k) ->
      forall fuel,
        poll net L (k + 2 + fuel) timeout (fresh t0)
        = (Exn (timeout_text L (str_of_int timeout)),
           emit (Update (timed_out_text L)) (after_rounds net L t0 (S k))))
  /\ (request_time net (S k) < timeout * ms_per_second ->
      forall fuel,
        (k + 2 <= calls (snd (poll net L (k + 2 + fuel) timeout (fresh t0))))%nat
        /\ exists tr,
            trace (snd (poll net L (k + 2 + fuel) timeout (fresh t0)))
            = (trace (after_rounds net L t0 (S k)) ++ Get (status_url L) :: tr)%list).
Proof.
  intros Hrun Htime Hres.
  assert (Hk : poll net L k timeout (fresh t0) = (Div, after_rounds net L t0 k)).
  { replace k with (k + 0)%nat at 1 by lia. rewrite poll_run_rounds; [reflexivity| |].
    - intros i Hi. apply still_running_falls_through. now apply Hrun.
    - intros i Hi. pose proof (request_time_mono net i k ltac:(lia)). lia. }
  split; [exact Hk|].
  destruct (poll_pass_continues net L timeout t0 k (after_rounds net L t0 k) Hk)
    as (Hnext & Hspent & Hgoes); [simpl; lia|exact Hres|].
  rewrite pass_world_rounds in Hnext, Hspent, Hgoes.
  split; [exact Hnext|]. split.
  - intros Hge. apply Hspent. simpl. lia.
  - intros Hlt. apply Hgoes. simpl. lia.
Qed.

(** The elapsed-time reports of a run in the well-behaved world. *)
Lemma generation_run_reports net generation_id timeout t0 fuel :
  exists es : list Z,
    elapsed_reports
      (trace (snd (wait_for_generation net fuel generation_id timeout (fresh t0))))
    = map (fun e => "[yellow]Waiting for generation... (" +:+ str_of_int e +:+ "s)") es
    /\ Sorted Z.le es
    /\ Forall (fun e => 0 <= e) es.
Proof.
  rewrite wait_for_generation_poll, poll_eq.
  destruct (generation_reports_sorted net generation_id (now (fresh t0)) timeout fuel
              (emit (AddTask (initial_text (generation_labels generation_id))) (fresh t0)))
    as (es & Htr & Hs & Hlo).
  exists es. split; [|split].
  - rewrite Htr. reflexivity.
  - exact Hs.
  - eapply List.Forall_impl; [|exact Hlo].
    intros e He. simpl in He. rewrite Z.sub_diag in He. exact He.
Qed.

(** ** The claims *)

(** C1.  [wait_for_generation] on a job whose status is FAILED.  The
    [raise] of line 196 sits inside the [try] of line 187, whose handler
    catches every [Exception]: the failure is displayed as an error of the
    status check, the loop sleeps five seconds and asks again, and what the
    caller finally gets is the time-out.  Here with a ten-second budget,
    instantaneous requests and a job that reports FAILED with error
    "boom" every time. *)
Theorem wait_for_generation_failed_is_retried :
  wait_for_generation (always (Response 0 (FetchOk failed_record))) 11 "abc" 10 (fresh 0)
  = (Exn "Generation timed out after 10 seconds",
     World 10000 2
       [AddTask "[yellow]Waiting for generation...";
        Get "https://cloud.leonardo.ai/api/rest/v1/generations/abc";
        Update "[red]Generation failed!";
        Update "[red]Error checking status: Generation failed: boom";
        Sleep 5;
        Get "https://cloud.leonardo.ai/api/rest/v1/generations/abc";
        Update "[red]Generation failed!";
        Update "[red]Error checking status: Generation failed: boom";
        Sleep 5;
        Update "[red]Generation timed out!"]).
Proof. vm_compute. reflexivity. Qed.

(** C2, as the specification has it, at a seven-second budget.  When
    every request fails after a second and a half, the run ends thirteen
    seconds after it started: later than the budget plus one back-off of
    five seconds.  And when the first request never comes back (the code
    sets no time-out on its requests), the run has not come to an end
    whatever the fuel. *)
Lemma bounded_counterexample :
  Wall.wait_for_generation (fun _ => Exchange 1500 (Raises "reset")) 8 "abc" 7 (fresh 0)
  = (Exn "Generation timed out after 7 seconds",
     World 13000 2
       [AddTask "[yellow]Waiting for generation...";
        Get "https://cloud.leonardo.ai/api/rest/v1/generations/abc";
        Update "[red]Error checking status: reset";
        Sleep 5;
        Get "https://cloud.leonardo.ai/api/rest/v1/generations/abc";
        Update "[red]Error checking status: reset";
        Sleep 5;
        Update "[red]Generation timed out!"])
  /\ 7 * 1000 + 5 * 1000 < 13000
  /\ (forall fuel,
        fst (Wall.wait_for_generation (fun _ => Exchange 0 NeverReturns) fuel "abc" 7
               (fresh 0)) = Div).
Proof.
  split; [vm_compute; reflexivity|]. split; [lia|].
  intros [|fuel]; [reflexivity|].
  rewrite wall_generation_poll, wall_poll_blocks; [reflexivity|lia|reflexivity].
Qed.

(** C2, amended.  When every status request comes back, the wall clock
    having moved on by [bound] milliseconds at most and not been set back
    meanwhile, [wait_for_generation] comes to an end whatever the requests
    answer (it runs out of fuel for no amount above the budget in
    seconds), and it does so no later than the budget plus [bound] plus one
    five-second back-off after it started. *)
Theorem wait_for_generation_bounded
    (env : nat -> exchange) (generation_id : string) (timeout t0 bound : Z) (fuel : nat) :
  (forall i, reply_of (env i) <> NeverReturns) ->
  (forall i, 0 <= clock_change (env i) <= bound) ->
  (Z.to_nat timeout < fuel)%nat ->
  finished (fst (Wall.wait_for_generation env fuel generation_id timeout (fresh t0)))
  /\ 0 <= elapsed_ms t0
            (snd (Wall.wait_for_generation env fuel generation_id timeout (fresh t0)))
     <= deadline_ms timeout bound.
Proof.
  intros Hback Hclock Hfuel. rewrite wall_generation_poll.
  now apply wall_poll_bounded.
Qed.

Lemma wait_for_generation_bounded_witness :
  finished (fst (Wall.wait_for_generation (fun _ => Exchange 200 (Raises "reset"))
                   11 "abc" 10 (fresh 0)))
  /\ 0 <= elapsed_ms 0 (snd (Wall.wait_for_generation
                               (fun _ => Exchange 200 (Raises "reset"))
                               11 "abc" 10 (fresh 0)))
     <= deadline_ms 10 200.
Proof.
  apply (wait_for_generation_bounded
           (fun _ => Exchange 200 (Raises "reset")) "abc" 10 0 200 11).
  - intros i. discriminate.
  - intros i. simpl. lia.
  - simpl. lia.
Defined.

(** C6.  When the first status request yields a record whose status is
    COMPLETE, [wait_for_generation] returns that very record; it has made
    one request, shown the completion message, and slept not at all.  (A
    first request is made exactly when the budget is positive.) *)
Theorem wait_for_generation_complete_at_once
    (net : nat -> response) (generation_id : string) (timeout t0 : Z) (fuel : nat)
    (record : gmap string pyval) :
  0 < timeout ->
  result (net 0%nat) = FetchOk record ->
  status_of record = PStr "COMPLETE" ->
  wait_for_generation net (S fuel) generation_id timeout (fresh t0)
  = (Val record,
     World (t0 + Z.of_N (latency (net 0%nat))) 1
           [AddTask "[yellow]Waiting for generation...";
            Get (API_BASE_URL +:+ "/generations/" +:+ generation_id);
            Update "[green]Generation complete!"])
  /\ sleeps (trace (snd (wait_for_generation net (S fuel) generation_id timeout
                           (fresh t0)))) = [].
Proof.
  intros Hpos Hok Hst. rewrite wait_for_generation_poll.
  rewrite (poll_errors_then_complete net (generation_labels generation_id)
             (fun _ => "") t0 timeout 0 (fun i Hi => ltac:(lia))
             ltac:(simpl; unfold ms_per_second; lia) record (S fuel) Hok
             ltac:(rewrite Hst; reflexivity) ltac:(lia)).
  split; [|reflexivity]. simpl. do 2 f_equal. lia.
Qed.

Lemma wait_for_generation_complete_at_once_witness :
  wait_for_generation (always (Response 200 (FetchOk complete_record))) 1 "abc" 10 (fresh 0)
  = (Val complete_record,
     World (0 + Z.of_N (latency (always (Response 200 (FetchOk complete_record)) 0%nat))) 1
           [AddTask "[yellow]Waiting for generation...";
            Get (API_BASE_URL +:+ "/generations/" +:+ "abc");
            Update "[green]Generation complete!"])
  /\ sleeps (trace (snd (wait_for_generation
                           (always (Response 200 (FetchOk complete_record))) 1 "abc" 10
                           (fresh 0)))) = [].
Proof.
  apply (wait_for_generation_complete_at_once
           (always (Response 200 (FetchOk complete_record))) "abc" 10 0 0 complete_record).
  - lia.
  - reflexivity.
  - reflexivity.
Defined.

(** C10.  With a budget of zero or less [wait_for_generation] requests
    nothing and raises the time-out at once, whatever the state of the job;
    and a run makes at least one request exactly when its budget is
    positive. *)
Theorem wait_for_generation_no_budget
    (net : nat -> response) (generation_id : string) (timeout t0 : Z) (fuel : nat) :
  (timeout <= 0 ->
   wait_for_generation net (S fuel) generation_id timeout (fresh t0)
   = (Exn ("Generation timed out after " +:+ str_of_int timeout +:+ " seconds"),
      World t0 0 [AddTask "[yellow]Waiting for generation...";
                  Update "[red]Generation timed out!"]))
  /\ ((0 < requests_made
             (snd (wait_for_generation net (S fuel) generation_id timeout (fresh t0))))%nat
      <-> 0 < timeout).
Proof.
  split.
  - intros H. rewrite wait_for_generation_poll. now apply poll_no_budget.
  - rewrite wait_for_generation_poll. unfold requests_made. split.
    + intros Hc. destruct (Z.lt_ge_cases 0 timeout) as [|Hle]; [assumption|].
      rewrite poll_no_budget in Hc by lia. simpl in Hc. lia.
    + intros Hpos. now apply poll_first_request.
Qed.

Lemma wait_for_generation_no_budget_witness :
  wait_for_generation (always (Response 200 (FetchOk complete_record))) 1 "abc" 0 (fresh 0)
  = (Exn ("Generation timed out after " +:+ str_of_int 0 +:+ " seconds"),
     World 0 0 [AddTask "[yellow]Waiting for generation...";
                Update "[red]Generation timed out!"]).
Proof.
  apply (proj1 (wait_for_generation_no_budget
                  (always (Response 200 (FetchOk complete_record))) "abc" 0 0 0)).
  lia.
Defined.

(** C3, as the specification has it, at a six-second budget: one request
    error and then COMPLETE, with one back-off of five seconds below the
    budget.  The failing request took a second and a half, so the budget is
    spent when the loop test comes round, and the run times out. *)
Lemma errors_then_complete_counterexample :
  result (script [Response 1500 (FetchRaise "read timed out")]
                 (Response 100 (FetchOk complete_record)) 0%nat)
  = FetchRaise "read timed out"
  /\ result (script [Response 1500 (FetchRaise "read timed out")]
                    (Response 100 (FetchOk complete_record)) 1%nat)
     = FetchOk complete_record
  /\ 1 * 5 < 6
  /\ fst (wait_for_generation
            (script [Response 1500 (FetchRaise "read timed out")]
                    (Response 100 (FetchOk complete_record)))
            7 "abc" 6 (fresh 0))
     = Exn "Generation timed out after 6 seconds".
Proof. repeat split; vm_compute; reflexivity. Qed.

(** C3, amended.  Status requests that raise, before the one that yields
    a COMPLETE record, do not end [wait_for_generation], wherever they
    stand among the requests: with the first [N] requests each raising or
    yielding a record that is neither COMPLETE nor FAILED, and the loop
    test before request [N] reached within the budget, the run returns the
    COMPLETE record.  Each error went to the progress display and was
    followed by a sleep of five seconds and a new request (a record still
    under way by the elapsed seconds and a sleep of three).  The time to
    stay below the budget is the time spent in the [N] requests and in the
    [N] sleeps; and whatever the budget, the only exception a run over such
    a network can raise is the time-out. *)
Theorem wait_for_generation_errors_then_complete
    (net : nat -> response) (generation_id : string)
    (timeout t0 : Z) (N fuel : nat) (record : gmap string pyval) :
  (forall i, (i < N)%nat -> still_running (result (net i)) = true) ->
  result (net N) = FetchOk record ->
  status_of record = PStr "COMPLETE" ->
  request_time net N < timeout * ms_per_second ->
  (N < fuel)%nat ->
  wait_for_generation net fuel generation_id timeout (fresh t0)
  = (Val record,
     World (t0 + request_time net N + Z.of_N (latency (net N))) (S N)
           (AddTask "[yellow]Waiting for generation..."
            :: flat_map
                 (fun i =>
                    match result (net i) with
                    | FetchRaise msg =>
                        [Get (API_BASE_URL +:+ "/generations/" +:+ generation_id);
                         Update ("[red]Error checking status: " +:+ msg);
                         Sleep 5]
                    | FetchOk _ =>
                        [Get (API_BASE_URL +:+ "/generations/" +:+ generation_id);
                         Update ("[yellow]Waiting for generation... ("
                                 +:+ str_of_int
                                       (int_seconds (request_time net i
                                                     + Z.of_N (latency (net i))))
                                 +:+ "s)");
                         Sleep 3]
                    end) (seq 0 N)
            ++ [Get (API_BASE_URL +:+ "/generations/" +:+ generation_id);
                Update "[green]Generation complete!"]))
  /\ (forall fuel' timeout' e,
        fst (wait_for_generation net fuel' generation_id timeout' (fresh t0)) = Exn e ->
        e = "Generation timed out after " +:+ str_of_int timeout' +:+ " seconds").
Proof.
  intros Hrun Hok Hst Htime Hfuel. split.
  - rewrite wait_for_generation_poll.
    rewrite (poll_rounds_then_complete net (generation_labels generation_id)
               t0 timeout N fuel record); auto.
    + now rewrite (rounds_still_running _ _ _ _ Hrun).
    + intros i Hi. apply still_running_falls_through. now apply Hrun.
    + now rewrite Hst.
  - intros fuel' timeout' e. rewrite wait_for_generation_poll.
    apply poll_raises_only_timeout.
Qed.

Lemma wait_for_generation_errors_then_complete_witness :
  fst (wait_for_generation
         (script [Response 100 (FetchOk pending_record);
                  Response 100 (FetchRaise "reset")]
                 (Response 100 (FetchOk complete_record)))
         3 "abc" 12 (fresh 0))
  = Val complete_record.
Proof.
  refine (f_equal fst
            (proj1 (wait_for_generation_errors_then_complete
                      (script [Response 100 (FetchOk pending_record);
                               Response 100 (FetchRaise "reset")]
                              (Response 100 (FetchOk complete_record)))
                      "abc" 12 0 2 3 complete_record _ _ _ _ _))).
  - intros [|[|i]] Hi; [reflexivity|reflexivity|lia].
  - reflexivity.
  - reflexivity.
  - vm_compute. reflexivity.
  - lia.
Defined.

(** C4, as the specification has it: the text raised when the budget is
    spent is not "operation timed out after 10 seconds". *)
Lemma timeout_text_counterexample :
  fst (wait_for_generation (always (Response 0 (FetchRaise "reset"))) 11 "abc" 10 (fresh 0))
  = Exn "Generation timed out after 10 seconds"
  /\ fst (wait_for_generation (always (Response 0 (FetchRaise "reset"))) 11 "abc" 10
            (fresh 0))
     <> Exn "operation timed out after 10 seconds".
Proof. split; [vm_compute; reflexivity|]. vm_compute. discriminate. Qed.

(** C4, amended.  When every status request made within the budget
    raises or yields a record that is neither COMPLETE nor FAILED,
    [wait_for_generation] ends by raising
    "Generation timed out after {timeout} seconds", and not an error of a
    request.  It does so at the first loop test that finds the budget
    spent, which is the test before request [n]: the [n] requests before
    it were made within the budget, each followed by its sleep, and the
    last thing displayed is the time-out.  Nothing is asked of the requests
    that are not made: the loop test before request [i] comes
    [request_time net i] milliseconds after the start. *)
Theorem wait_for_generation_times_out
    (net : nat -> response) (generation_id : string) (timeout t0 : Z) (fuel : nat) :
  (forall i, request_time net i < timeout * ms_per_second ->
             still_running (result (net i)) = true) ->
  (Z.to_nat timeout < fuel)%nat ->
  exists n,
    wait_for_generation net fuel generation_id timeout (fresh t0)
    = (Exn ("Generation timed out after " +:+ str_of_int timeout +:+ " seconds"),
       World (t0 + request_time net n) n
             (AddTask "[yellow]Waiting for generation..."
              :: flat_map
                   (fun i =>
                      match result (net i) with
                      | FetchRaise msg =>
                          [Get (API_BASE_URL +:+ "/generations/" +:+ generation_id);
                           Update ("[red]Error checking status: " +:+ msg);
                           Sleep 5]
                      | FetchOk _ =>
                          [Get (API_BASE_URL +:+ "/generations/" +:+ generation_id);
                           Update ("[yellow]Waiting for generation... ("
                                   +:+ str_of_int
                                         (int_seconds (request_time net i
                                                       + Z.of_N (latency (net i))))
                                   +:+ "s)");
                           Sleep 3]
                      end) (seq 0 n)
              ++ [Update "[red]Generation timed out!"]))
    /\ timeout * ms_per_second <= request_time net n
    /\ forall i, (i < n)%nat -> request_time net i < timeout * ms_per_second.
Proof.
  intros Hrun Hfuel. destruct fuel as [|fuel]; [lia|].
  rewrite wait_for_generation_poll, poll_eq, after_rounds_0 with (net := net).
  destruct (poll_loop_rounds_time_out net (generation_labels generation_id)
              t0 timeout fuel 0) as (n & Hend & Hspent & Hbefore).
  - intros i Hi. apply still_running_falls_through. now apply Hrun.
  - intros i Hi. lia.
  - unfold request_time, ms_per_second. simpl. lia.
  - exists n. split; [|split; assumption].
    change (now (fresh t0)) with t0. rewrite Hend.
    unfold emit, after_rounds. simpl.
    rewrite (rounds_still_running net _ t0 n) by (intros i Hi; apply Hrun; now apply Hbefore).
    reflexivity.
Qed.

Lemma wait_for_generation_times_out_witness :
  exists n,
    fst (wait_for_generation
           (script [Response 0 (FetchOk pending_record);
                    Response 0 (FetchRaise "reset");
                    Response 0 (FetchOk pending_record)]
                   (Response 0 (FetchOk complete_record)))
           11 "abc" 10 (fresh 0))
    = Exn ("Generation timed out after " +:+ str_of_int 10 +:+ " seconds")
    /\ 10 * ms_per_second
       <= request_time (script [Response 0 (FetchOk pending_record);
                                Response 0 (FetchRaise "reset");
                                Response 0 (FetchOk pending_record)]
                               (Response 0 (FetchOk complete_record))) n.
Proof.
  destruct (wait_for_generation_times_out
              (script [Response 0 (FetchOk pending_record);
                       Response 0 (FetchRaise "reset");
                       Response 0 (FetchOk pending_record)]
                      (Response 0 (FetchOk complete_record)))
              "abc" 10 0 11) as (n & Hend & Hspent & _).
  - intros [|[|[|i]]] Hi; [reflexivity|reflexivity|reflexivity|].
    exfalso.
    pose proof (request_time_mono
                  (script [Response 0 (FetchOk pending_record);
                           Response 0 (FetchRaise "reset");
                           Response 0 (FetchOk pending_record)]
                          (Response 0 (FetchOk complete_record)))
                  3 (S (S (S i))) ltac:(lia)) as Hmono.
    change (request_time _ 3) with 11000 in Hmono.
    unfold ms_per_second in Hi. lia.
  - simpl. lia.
  - exists n. rewrite Hend. split; [reflexivity|exact Hspent].
Defined.

(** C5, as the specification has it, at the empty job handle: the status
    is requested (from the URL that ends where the handle would stand) and
    the run returns the record it got; nothing is refused. *)
Lemma empty_handle_counterexample :
  wait_for_generation (always (Response 200 (FetchOk complete_record))) 1 "" 10 (fresh 0)
  = (Val complete_record,
     World 200 1
           [AddTask "[yellow]Waiting for generation...";
            Get "https://cloud.leonardo.ai/api/rest/v1/generations/";
            Update "[green]Generation complete!"]).
Proof. vm_compute. reflexivity. Qed.

(** C5, amended.  [wait_for_generation] does not look at the job handle:
    with a positive budget the first thing it does, once the display is set
    up, is to request the status for the handle it was given, the empty one
    included; and two runs that differ in the handle only end the same way,
    after as many requests and at the same time. *)
Theorem wait_for_generation_ignores_handle
    (net : nat -> response) (generation_id other_id : string) (timeout t0 : Z)
    (fuel : nat) :
  0 < timeout ->
  (exists tr,
      trace (snd (wait_for_generation net (S fuel) generation_id timeout (fresh t0)))
      = AddTask "[yellow]Waiting for generation..."
        :: Get (API_BASE_URL +:+ "/generations/" +:+ generation_id) :: tr)
  /\ fst (wait_for_generation net (S fuel) generation_id timeout (fresh t0))
     = fst (wait_for_generation net (S fuel) other_id timeout (fresh t0))
  /\ alike (snd (wait_for_generation net (S fuel) generation_id timeout (fresh t0)))
           (snd (wait_for_generation net (S fuel) other_id timeout (fresh t0))).
Proof.
  intros Hpos. rewrite !wait_for_generation_poll. split.
  - now apply (poll_first_request net (generation_labels generation_id)).
  - destruct (poll_similar net (generation_labels generation_id)
                (generation_labels other_id) timeout (S fuel) (fresh t0)) as [Hs Ha].
    split; [|exact Ha]. exact (similar_same _ _ _ Hs).
Qed.

Lemma wait_for_generation_ignores_handle_witness :
  (exists tr,
      trace (snd (wait_for_generation (always (Response 200 (FetchOk pending_record)))
                    4 "" 10 (fresh 0)))
      = AddTask "[yellow]Waiting for generation..."
        :: Get (API_BASE_URL +:+ "/generations/" +:+ "") :: tr)
  /\ fst (wait_for_generation (always (Response 200 (FetchOk pending_record)))
            4 "" 10 (fresh 0))
     = fst (wait_for_generation (always (Response 200 (FetchOk pending_record)))
              4 "abc" 10 (fresh 0))
  /\ alike (snd (wait_for_generation (always (Response 200 (FetchOk pending_record)))
                   4 "" 10 (fresh 0)))
           (snd (wait_for_generation (always (Response 200 (FetchOk pending_record)))
                   4 "abc" 10 (fresh 0))).
Proof.
  apply (wait_for_generation_ignores_handle
           (always (Response 200 (FetchOk pending_record))) "" "abc" 10 0 3).
  lia.
Defined.

(** C7.  A record whose status is neither "COMPLETE" nor "FAILED" (some
    other text, no text at all, no status field) does not end
    [wait_for_generation], at whichever pass it is fetched.  Let request
    [k] yield such a record, the requests before it having raised or
    yielded such records too, and the budget not being spent at the loop
    test before request [k], which comes [request_time net k] milliseconds
    after the start.  Then after [k] passes the run stands at that loop
    test, in world [w]; the next pass requests the status, displays the
    elapsed whole seconds and sleeps three seconds, and leaves the run at
    the loop test again, in world [w'].  From there it raises the time-out
    if the budget is spent by then, and makes the next request if it is
    not.  (A run on fuel [k] that gives out is a run that has not ended
    after [k] passes.) *)
Theorem wait_for_generation_keeps_waiting
    (net : nat -> response) (generation_id : string) (timeout t0 : Z)
    (k : nat) (record : gmap string pyval) :
  (forall i, (i < k)%nat -> still_running (result (net i)) = true) ->
  request_time net k < timeout * ms_per_second ->
  result (net k) = FetchOk record ->
  status_of record <> PStr "COMPLETE" ->
  status_of record <> PStr "FAILED" ->
  let url := API_BASE_URL +:+ "/generations/" +:+ generation_id in
  let waiting elapsed :=
    Update ("[yellow]Waiting for generation... ("
            +:+ str_of_int (int_seconds elapsed) +:+ "s)") in
  let w :=
    World (t0 + request_time net k) k
          (AddTask "[yellow]Waiting for generation..."
           :: flat_map
                (fun i =>
                   match result (net i) with
                   | FetchRaise msg =>
                       [Get url; Update ("[red]Error checking status: " +:+ msg); Sleep 5]
                   | FetchOk _ =>
                       [Get url;
                        waiting (request_time net i + Z.of_N (latency (net i)));
                        Sleep 3]
                   end) (seq 0 k)) in
  let arrived := request_time net k + Z.of_N (latency (net k)) in
  let w' :=
    World (t0 + arrived + 3 * ms_per_second) (S k)
          (trace w ++ [Get url; waiting arrived; Sleep 3]) in
  wait_for_generation net k generation_id timeout (fresh t0) = (Div, w)
  /\ wait_for_generation net (k + 1) generation_id timeout (fresh t0) = (Div, w')
  /\ (timeout * ms_per_second <= arrived + 3 * ms_per_second ->
      forall fuel,
        wait_for_generation net (k + 2 + fuel) generation_id timeout (fresh t0)
        = (Exn ("Generation timed out after " +:+ str_of_int timeout +:+ " seconds"),
           emit (Update "[red]Generation timed out!") w'))
  /\ (arrived + 3 * ms_per_second < timeout * ms_per_second ->
      forall fuel,
        (k + 2 <= requests_made (snd (wait_for_generation net (k + 2 + fuel) generation_id
                                        timeout (fresh t0))))%nat
        /\ exists tr,
            trace (snd (wait_for_generation net (k + 2 + fuel) generation_id timeout
                          (fresh t0)))
            = (trace w' ++ Get url :: tr)%list).
Proof.
  intros Hrun Htime Hok Hc Hf url waiting w arrived w'.
  apply py_eq_str_false in Hc, Hf.
  assert (Hres : pass_result (result (net k)) = None)
    by (rewrite Hok; simpl; now rewrite Hc).
  assert (Hstep : request_time net (S k) = arrived + 3 * ms_per_second).
  { unfold request_time, arrived. simpl. rewrite Hok. unfold pass_pause.
    unfold is_complete, is_failed. rewrite Hc, Hf.
    unfold request_time, ms_per_second. simpl. lia. }
  assert (Hw : after_rounds net (generation_labels generation_id) t0 k = w).
  { unfold after_rounds, w. now rewrite (rounds_still_running _ _ _ _ Hrun). }
  assert (Hw' : after_rounds net (generation_labels generation_id) t0 (S k) = w').
  { rewrite <- pass_world_rounds, Hw. unfold pass_world, w'. simpl calls. simpl now.
    rewrite Hok. simpl. unfold is_complete, is_failed. rewrite Hc, Hf. simpl.
    unfold arrived, waiting, url.
    replace (t0 + request_time net k + Z.of_N (latency (net k)) - t0)
      with (request_time net k + Z.of_N (latency (net k))) by lia.
    f_equal. unfold ms_per_second. lia. }
  destruct (poll_rounds_continue net (generation_labels generation_id) timeout t0 k
              Hrun Htime Hres) as (H0 & H1 & Hspent & Hgoes).
  rewrite Hstep in Hspent, Hgoes. rewrite Hw in H0. rewrite Hw' in H1, Hspent, Hgoes.
  split; [|split; [|split]].
  - now rewrite wait_for_generation_poll.
  - now rewrite wait_for_generation_poll.
  - intros Hge fuel. rewrite wait_for_generation_poll. now apply Hspent.
  - intros Hlt fuel. rewrite wait_for_generation_poll. now apply Hgoes.
Qed.

Lemma wait_for_generation_keeps_waiting_witness :
  wait_for_generation
    (script [Response 200 (FetchOk pending_record)] (Response 200 (FetchOk ∅)))
    (1 + 1) "abc" 10 (fresh 0)
  = (Div,
     World 6400 2
       [AddTask "[yellow]Waiting for generation...";
        Get "https://cloud.leonardo.ai/api/rest/v1/generations/abc";
        Update "[yellow]Waiting for generation... (0s)";
        Sleep 3;
        Get "https://cloud.leonardo.ai/api/rest/v1/generations/abc";
        Update "[yellow]Waiting for generation... (3s)";
        Sleep 3]).
Proof.
  refine (proj1 (proj2 (wait_for_generation_keeps_waiting
                          (script [Response 200 (FetchOk pending_record)]
                                  (Response 200 (FetchOk ∅)))
                          "abc" 10 0 1 ∅ _ _ _ _ _))).
  - intros [|i] Hi; [reflexivity|lia].
  - vm_compute. reflexivity.
  - reflexivity.
  - discriminate.
  - discriminate.
Defined.

(** C8, as the specification has it.  The elapsed time is the difference
    of two readings of the wall clock (lines 177 and 199).  Here the first
    request takes four seconds, and while the second is under way the
    clock is set back, so that it comes back with the clock six seconds
    behind: the display shows four seconds, then one. *)
Lemma elapsed_counterexample :
  elapsed_reports
    (trace (snd (Wall.wait_for_generation
                   (fun i =>
                      match i with
                      | 0%nat => Exchange 4000 (Answers pending_record)
                      | 1%nat => Exchange (-6000) (Answers pending_record)
                      | _ => Exchange 0 (Answers complete_record)
                      end)
                   4 "abc" 30 (fresh 0))))
  = ["[yellow]Waiting for generation... (4s)";
     "[yellow]Waiting for generation... (1s)"]
  /\ ~ Sorted Z.le [4; 1].
Proof.
  split; [vm_compute; reflexivity|].
  intros H. inversion H as [|? ? _ Hhd]. inversion Hhd. lia.
Qed.

(** C8, amended.  When the wall clock is not set back while a request is
    under way, the progress updates of a run of [wait_for_generation] that
    report elapsed time are, in the order shown, the renderings of a
    sequence of whole seconds that never goes down (and starts at zero or
    above); this also holds of a run that a request brings to a halt by
    never coming back. *)
Theorem wait_for_generation_elapsed_monotone
    (env : nat -> exchange) (generation_id : string) (timeout t0 : Z) (fuel : nat) :
  (forall i, 0 <= clock_change (env i)) ->
  exists es : list Z,
    elapsed_reports
      (trace (snd (Wall.wait_for_generation env fuel generation_id timeout (fresh t0))))
    = map (fun e => "[yellow]Waiting for generation... (" +:+ str_of_int e +:+ "s)") es
    /\ Sorted Z.le es
    /\ Forall (fun e => 0 <= e) es.
Proof.
  intros Hclock.
  destruct (wall_run_cases env generation_id timeout fuel (fresh t0) Hclock)
    as [Hsame|(k & w1 & _ & Hrun & _ & Hwall)].
  - rewrite Hsame. apply generation_run_reports.
  - destruct (generation_run_reports (as_network env) generation_id timeout t0 k)
      as (es & Hes & Hsorted & Hpos).
    exists es. rewrite Hwall. rewrite Hrun in Hes. simpl in *.
    rewrite elapsed_reports_app. simpl. rewrite app_nil_r. auto.
Qed.

Lemma wait_for_generation_elapsed_monotone_witness :
  exists es : list Z,
    elapsed_reports
      (trace (snd (Wall.wait_for_generation
                     (fun i =>
                        match i with
                        | 0%nat => Exchange 4000 (Answers pending_record)
                        | 1%nat => Exchange 500 (Answers pending_record)
                        | _ => Exchange 0 (Answers complete_record)
                        end)
                     4 "abc" 30 (fresh 0))))
    = map (fun e => "[yellow]Waiting for generation... (" +:+ str_of_int e +:+ "s)") es
    /\ Sorted Z.le es
    /\ Forall (fun e => 0 <= e) es.
Proof.
  apply (wait_for_generation_elapsed_monotone
           (fun i =>
              match i with
              | 0%nat => Exchange 4000 (Answers pending_record)
              | 1%nat => Exchange 500 (Answers pending_record)
              | _ => Exchange 0 (Answers complete_record)
              end) "abc" 30 0 4).
  intros [|[|i]]; simpl; lia.
Defined.

(** C9.  Given the same network, budget and fuel, the three operations
    end alike: each returns the same record, or each raises its own
    time-out, or each runs out of fuel; they make the same number of
    requests, stop at the same clock reading, and their traces are the same
    once the texts are forgotten (same requests, updates and sleeps in the
    same order, the sleeps of the same length).  Their default budgets are
    120, 300 and 120 seconds. *)
Theorem wait_operations_agree
    (net : nat -> response) (generation_id motion_id variation_id variation_type : string)
    (timeout t0 : Z) (fuel : nat) :
  agree timeout
    (fst (wait_for_generation net fuel generation_id timeout (fresh t0)))
    (fst (wait_for_motion_generation net fuel motion_id timeout (fresh t0)))
    (fst (wait_for_variation net fuel variation_id variation_type timeout (fresh t0)))
  /\ alike (snd (wait_for_generation net fuel generation_id timeout (fresh t0)))
           (snd (wait_for_motion_generation net fuel motion_id timeout (fresh t0)))
  /\ alike (snd (wait_for_generation net fuel generation_id timeout (fresh t0)))
           (snd (wait_for_variation net fuel variation_id variation_type timeout
                   (fresh t0)))
  /\ (wait_for_generation_default_timeout,
      wait_for_motion_generation_default_timeout,
      wait_for_variation_default_timeout) = (120, 300, 120).
Proof.
  rewrite wait_for_generation_poll, wait_for_motion_generation_poll,
    wait_for_variation_poll.
  destruct (poll_similar net (generation_labels generation_id) (motion_labels motion_id)
              timeout fuel (fresh t0)) as [Hm Am].
  destruct (poll_similar net (generation_labels generation_id)
              (variation_labels variation_id variation_type)
              timeout fuel (fresh t0)) as [Hv Av].
  repeat split; try apply Am; try apply Av.
  destruct Hm; inversion Hv; subst; constructor.
Qed.

(** ** More about the three loops *)

Section LoopFacts.

Variable net : nat -> response.
Variable L : labels.

(** What a run returns is the body of the last request it made, and that
    body says COMPLETE. *)
Lemma poll_returns_last_response fuel timeout t0 record :
  fst (poll net L fuel timeout (fresh t0)) = Val record ->
  (0 < requests_made (snd (poll net L fuel timeout (fresh t0))))%nat
  /\ result (net (pred (requests_made (snd (poll net L fuel timeout (fresh t0))))))
     = FetchOk record
  /\ status_of record = PStr "COMPLETE".
Proof.
  rewrite poll_eq. intros H.
  pose proof (poll_loop_outcome net L (now (fresh t0)) timeout fuel
                (emit (AddTask (initial_text L)) (fresh t0))) as Ho.
  destruct (poll_loop net L fuel (now (fresh t0)) timeout _) as [[r|msg|] w'];
    simpl in H; try discriminate.
  injection H as ->. destruct Ho as (Hc & Hres & Hst).
  unfold requests_made. simpl in *. split; [lia|]. split; [assumption|].
  unfold py_eq_str in Hst. destruct (status_of record); [|discriminate].
  apply String.eqb_eq in Hst. now subst.
Qed.



Lemma sleeps_app tr1 tr2 : sleeps (tr1 ++ tr2) = (sleeps tr1 ++ sleeps tr2)%list.
Proof. apply flat_map_app. Qed.

Lemma sleeps_pass start_time arrived r :
  sleeps (Get (status_url L) :: pass_events L start_time arrived r)
  = if is_complete r then [] else [pass_pause r].
Proof.
  unfold pass_events, pass_pause. destruct r as [record|msg]; [|reflexivity].
  destruct (is_complete _); [reflexivity|].
  destruct (is_failed _); reflexivity.
Qed.

(** The sleeps of a run: three or five seconds each, one after every
    request but a returning one. *)
Lemma poll_loop_sleeps start_time timeout fuel : forall w,
  exists more,
    sleeps (trace (snd (poll_loop net L fuel start_time timeout w)))
    = (sleeps (trace w) ++ more)%list
    /\ Forall (fun s => s = 3 \/ s = 5) more
    /\ (length more
        <= calls (snd (poll_loop net L fuel start_time timeout w)) - calls w)%nat
    /\ (calls (snd (poll_loop net L fuel start_time timeout w)) - calls w
        <= S (length more))%nat.
Proof.
  induction fuel as [|fuel IH]; intros w.
  - exists []. simpl. rewrite app_nil_r. repeat split; auto; lia.
  - destruct (Z.lt_ge_cases (now w - start_time) (timeout * ms_per_second)) as [Hlt|Hge].
    + destruct (pass_result (result (net (calls w)))) as [record|] eqn:E.
      * rewrite (poll_loop_return _ _ _ _ _ _ record) by auto.
        exists []. simpl. rewrite sleeps_app, sleeps_pass.
        apply pass_result_complete in E as [_ ->].
        repeat split; auto; lia.
      * rewrite poll_loop_again by auto.
        destruct (IH (pass_world net L start_time w)) as (more & Hs & Hall & Hlo & Hhi).
        pose proof (poll_loop_extends net L start_time timeout fuel
                      (pass_world net L start_time w)) as [Hc _].
        change (calls (pass_world net L start_time w)) with (S (calls w)) in *.
        exists (pass_pause (result (net (calls w))) :: more).
        rewrite Hs. simpl trace. rewrite sleeps_app, sleeps_pass.
        pose proof E as Hnc. apply pass_result_none in Hnc. rewrite Hnc.
        rewrite <- app_assoc. repeat split; auto.
        -- constructor; [|assumption].
           unfold pass_pause. destruct (result (net (calls w))); [|now right].
           rewrite Hnc. destruct (is_failed _); auto.
        -- simpl. lia.
        -- simpl. lia.
    + rewrite poll_loop_expired by auto.
      exists []. simpl. rewrite sleeps_app. simpl. repeat split; auto; lia.
Qed.

Lemma poll_sleeps fuel timeout t0 :
  Forall (fun s => s = 3 \/ s = 5)
    (sleeps (trace (snd (poll net L fuel timeout (fresh t0)))))
  /\ (length (sleeps (trace (snd (poll net L fuel timeout (fresh t0)))))
      <= requests_made (snd (poll net L fuel timeout (fresh t0)))
      <= S (length (sleeps (trace (snd (poll net L fuel timeout (fresh t0)))))))%nat.
Proof.
  rewrite poll_eq. unfold requests_made.
  destruct (poll_loop_sleeps (now (fresh t0)) timeout fuel
              (emit (AddTask (initial_text L)) (fresh t0)))
    as (more & Hs & Hall & Hlo & Hhi).
  rewrite Hs. simpl in *. split; [assumption|]. lia.
Qed.

End LoopFacts.

(** ** Further properties of the waiting operations *)

(** X1.  When every status request comes back, the wall clock having
    moved on by [bound] milliseconds at most and not been set back
    meanwhile, [wait_for_motion_generation] comes to an end whatever the
    requests answer, no later than its budget plus [bound] plus five
    seconds after it started, and the only exception it raises is
    "Motion generation timed out after {timeout} seconds". *)
Theorem wait_for_motion_generation_ends
    (env : nat -> exchange) (generation_id : string) (timeout t0 bound : Z) (fuel : nat) :
  (forall i, reply_of (env i) <> NeverReturns) ->
  (forall i, 0 <= clock_change (env i) <= bound) ->
  (Z.to_nat timeout < fuel)%nat ->
  finished (fst (Wall.wait_for_motion_generation env fuel generation_id timeout (fresh t0)))
  /\ 0 <= elapsed_ms t0
            (snd (Wall.wait_for_motion_generation env fuel generation_id timeout
                    (fresh t0)))
     <= deadline_ms timeout bound
  /\ forall e,
       fst (Wall.wait_for_motion_generation env fuel generation_id timeout (fresh t0))
       = Exn e ->
       e = "Motion generation timed out after " +:+ str_of_int timeout +:+ " seconds".
Proof.
  intros Hback Hclock Hfuel. rewrite wall_motion_poll.
  destruct (wall_poll_bounded env (motion_labels generation_id) timeout t0 bound fuel
              Hback Hclock Hfuel) as [Hf Hb].
  repeat split; try apply Hf; try apply Hb.
  intros e. rewrite wall_poll_settled by (auto; intros i; apply Hclock).
  apply poll_raises_only_timeout.
Qed.

Lemma wait_for_motion_generation_ends_witness :
  finished (fst (Wall.wait_for_motion_generation
                   (fun _ => Exchange 200 (Answers pending_record)) 11 "abc" 10 (fresh 0)))
  /\ 0 <= elapsed_ms 0
            (snd (Wall.wait_for_motion_generation
                    (fun _ => Exchange 200 (Answers pending_record)) 11 "abc" 10 (fresh 0)))
     <= deadline_ms 10 200
  /\ forall e,
       fst (Wall.wait_for_motion_generation
              (fun _ => Exchange 200 (Answers pending_record)) 11 "abc" 10 (fresh 0))
       = Exn e ->
       e = "Motion generation timed out after " +:+ str_of_int 10 +:+ " seconds".
Proof.
  apply (wait_for_motion_generation_ends
           (fun _ => Exchange 200 (Answers pending_record)) "abc" 10 0 200 11).
  - intros i. discriminate.
  - intros i. simpl. lia.
  - simpl. lia.
Defined.



(** X3.  What [wait_for_generation] returns is the body of the last
    status request it made, and the status of that body is "COMPLETE": it
    never returns a record of a job that is pending or has failed, nor a
    record fetched earlier. *)
Theorem wait_for_generation_returns_last_response
    (net : nat -> response) (generation_id : string) (timeout t0 : Z) (fuel : nat)
    (record : gmap string pyval) :
  fst (wait_for_generation net fuel generation_id timeout (fresh t0)) = Val record ->
  (0 < requests_made (snd (wait_for_generation net fuel generation_id timeout (fresh t0))))%nat
  /\ result (net (pred (requests_made
                          (snd (wait_for_generation net fuel generation_id timeout
                                  (fresh t0))))))
     = FetchOk record
  /\ status_of record = PStr "COMPLETE".
Proof.
  rewrite wait_for_generation_poll. apply poll_returns_last_response.
Qed.

Lemma wait_for_generation_returns_last_response_witness :
  (0 < requests_made
         (snd (wait_for_generation
                 (script [Response 100 (FetchOk pending_record)]
                         (Response 100 (FetchOk complete_record)))
                 3 "abc" 10 (fresh 0))))%nat
  /\ result (script [Response 100 (FetchOk pending_record)]
                    (Response 100 (FetchOk complete_record))
               (pred (requests_made
                        (snd (wait_for_generation
                                (script [Response 100 (FetchOk pending_record)]
                                        (Response 100 (FetchOk complete_record)))
                                3 "abc" 10 (fresh 0))))))
     = FetchOk complete_record
  /\ status_of complete_record = PStr "COMPLETE".
Proof.
  apply (wait_for_generation_returns_last_response
           (script [Response 100 (FetchOk pending_record)]
                   (Response 100 (FetchOk complete_record)))
           "abc" 10 0 3 complete_record).
  vm_compute. reflexivity.
Defined.


(** X5.  Every sleep of [wait_for_generation] lasts three or five
    seconds, and there is one sleep after each status request except a
    returning one: the requests outnumber the sleeps by one at most. *)
Theorem wait_for_generation_sleeps
    (net : nat -> response) (generation_id : string) (timeout t0 : Z) (fuel : nat) :
  Forall (fun s => s = 3 \/ s = 5)
    (sleeps (trace (snd (wait_for_generation net fuel generation_id timeout (fresh t0)))))
  /\ (length (sleeps (trace (snd (wait_for_generation net fuel generation_id timeout
                                    (fresh t0)))))
      <= requests_made (snd (wait_for_generation net fuel generation_id timeout (fresh t0)))
      <= S (length (sleeps (trace (snd (wait_for_generation net fuel generation_id timeout
                                          (fresh t0)))))))%nat.
Proof.
  rewrite wait_for_generation_poll. apply poll_sleeps.
Qed.

(** X6.  A record whose status is "FAILED" does not end
    [wait_for_variation], at whichever pass it is fetched.  Let request
    [k] yield such a record, the requests before it having raised or
    yielded records that are neither COMPLETE nor FAILED, and the budget
    not being spent at the loop test before request [k].  Then after [k]
    passes the run stands at that loop test, in world [w]; the next pass
    displays the failure, raises "Variation failed: {error}", catches it
    in its own handler, displays it as an error of the status check and
    sleeps five seconds, and leaves the run at the loop test again, in
    world [w'].  From there it raises the time-out if the budget is spent
    by then, and makes the next request if it is not.  The detail is the
    record's "error" field, or "Unknown error" when there is none. *)
Theorem wait_for_variation_failed_is_retried
    (net : nat -> response) (variation_id variation_type : string) (timeout t0 : Z)
    (k : nat) (record : gmap string pyval) :
  (forall i, (i < k)%nat -> still_running (result (net i)) = true) ->
  request_time net k < timeout * ms_per_second ->
  result (net k) = FetchOk record ->
  status_of record = PStr "FAILED" ->
  let url :=
    API_BASE_URL +:+ "/variations/" +:+ variation_type +:+ "/" +:+ variation_id in
  let waiting elapsed :=
    Update ("[yellow]Waiting for " +:+ variation_type +:+ " to complete... ("
            +:+ str_of_int (int_seconds elapsed) +:+ "s)") in
  let w :=
    World (t0 + request_time net k) k
          (AddTask ("[yellow]Waiting for " +:+ variation_type +:+ " to complete...")
           :: flat_map
                (fun i =>
                   match result (net i) with
                   | FetchRaise msg =>
                       [Get url; Update ("[red]Error checking status: " +:+ msg); Sleep 5]
                   | FetchOk _ =>
                       [Get url;
                        waiting (request_time net i + Z.of_N (latency (net i)));
                        Sleep 3]
                   end) (seq 0 k)) in
  let w' :=
    World (t0 + request_time net k + Z.of_N (latency (net k)) + 5 * ms_per_second) (S k)
          (trace w
           ++ [Get url;
               Update ("[red]" +:+ capitalize variation_type +:+ " failed!");
               Update ("[red]Error checking status: Variation failed: "
                       +:+ py_str (dict_get record "error" (PStr "Unknown error")));
               Sleep 5]) in
  wait_for_variation net k variation_id variation_type timeout (fresh t0) = (Div, w)
  /\ wait_for_variation net (k + 1) variation_id variation_type timeout (fresh t0)
     = (Div, w')
  /\ (timeout * ms_per_second <= now w' - t0 ->
      forall fuel,
        wait_for_variation net (k + 2 + fuel) variation_id variation_type timeout (fresh t0)
        = (Exn ("Variation timed out after " +:+ str_of_int timeout +:+ " seconds"),
           emit (Update ("[red]" +:+ capitalize variation_type +:+ " timed out!")) w'))
  /\ (now w' - t0 < timeout * ms_per_second ->
      forall fuel,
        (k + 2 <= requests_made (snd (wait_for_variation net (k + 2 + fuel) variation_id
                                        variation_type timeout (fresh t0))))%nat
        /\ exists tr,
            trace (snd (wait_for_variation net (k + 2 + fuel) variation_id variation_type
                          timeout (fresh t0)))
            = (trace w' ++ Get url :: tr)%list).
Proof.
  intros Hrun Htime Hok Hst url waiting w w'.
  assert (Hres : pass_result (result (net k)) = None)
    by (rewrite Hok; simpl; now rewrite Hst).
  assert (Hstep : request_time net (S k) = now w' - t0).
  { unfold request_time, w'. simpl. rewrite Hok. unfold pass_pause.
    unfold is_complete, is_failed. rewrite Hst.
    unfold request_time, ms_per_second. simpl. lia. }
  assert (Hw : after_rounds net (variation_labels variation_id variation_type) t0 k = w).
  { unfold after_rounds, w. now rewrite (rounds_still_running _ _ _ _ Hrun). }
  assert (Hw' : after_rounds net (variation_labels variation_id variation_type) t0 (S k)
                = w').
  { rewrite <- pass_world_rounds, Hw. unfold pass_world, w'. simpl calls. simpl now.
    rewrite Hok. simpl. unfold is_complete, is_failed. rewrite Hst. reflexivity. }
  destruct (poll_rounds_continue net (variation_labels variation_id variation_type)
              timeout t0 k Hrun Htime Hres) as (H0 & H1 & Hspent & Hgoes).
  rewrite Hstep in Hspent, Hgoes. rewrite Hw in H0. rewrite Hw' in H1, Hspent, Hgoes.
  split; [|split; [|split]].
  - now rewrite wait_for_variation_poll.
  - now rewrite wait_for_variation_poll.
  - intros Hge fuel. rewrite wait_for_variation_poll. now apply Hspent.
  - intros Hlt fuel. rewrite wait_for_variation_poll. now apply Hgoes.
Qed.

Lemma wait_for_variation_failed_is_retried_witness :
  wait_for_variation (always (Response 200 (FetchOk {[ "status" := PStr "FAILED" ]})))
    (0 + 1) "abc" "upscale" 10 (fresh 0)
  = (Div,
     World 5200 1
       [AddTask "[yellow]Waiting for upscale to complete...";
        Get "https://cloud.leonardo.ai/api/rest/v1/variations/upscale/abc";
        Update "[red]Upscale failed!";
        Update "[red]Error checking status: Variation failed: Unknown error";
        Sleep 5]).
Proof.
  refine (proj1 (proj2 (wait_for_variation_failed_is_retried
                          (always (Response 200 (FetchOk {[ "status" := PStr "FAILED" ]})))
                          "abc" "upscale" 10 0 0
                          {[ "status" := PStr "FAILED" ]} _ _ _ _))).
  - intros i Hi. lia.
  - vm_compute. reflexivity.
  - reflexivity.
  - reflexivity.
Defined.

(** ** Configuration profiles *)

Lemma fields_get_replace key x fields k :
  fields_get k (fields_replace key x fields)
  = match fields_get k fields with
    | Some v => Some (if String.eqb k key then x else v)
    | None => None
    end.
Proof.
  induction fields as [|[k' v'] rest IH]; simpl; [reflexivity|].
  destruct (String.eqb_spec k' k) as [->|Hne]; [reflexivity|exact IH].
Qed.

Lemma fields_get_app k fields more :
  fields_get k (fields ++ more)
  = match fields_get k fields with
    | Some v => Some v
    | None => fields_get k more
    end.
Proof.
  induction fields as [|[k' v'] rest IH]; simpl; [reflexivity|].
  destruct (String.eqb k' k); [reflexivity|exact IH].
Qed.

Lemma fields_get_set_eq key x fields :
  fields_get key (fields_set key x fields) = Some x.
Proof.
  unfold fields_set. destruct (fields_get key fields) eqn:E.
  - rewrite fields_get_replace, E, String.eqb_refl. reflexivity.
  - rewrite fields_get_app, E. simpl. now rewrite String.eqb_refl.
Qed.

Lemma fields_get_set_ne key x fields k :
  k <> key -> fields_get k (fields_set key x fields) = fields_get k fields.
Proof.
  intros Hne. unfold fields_set. destruct (fields_get key fields) eqn:E.
  - rewrite fields_get_replace. apply String.eqb_neq in Hne. rewrite Hne.
    now destruct (fields_get k fields).
  - rewrite fields_get_app. destruct (fields_get k fields); [reflexivity|].
    simpl. apply not_eq_sym, String.eqb_neq in Hne. now rewrite Hne.
Qed.

Lemma fields_get_del_eq key fields : fields_get key (fields_del key fields) = None.
Proof.
  induction fields as [|[k v] rest IH]; simpl; [reflexivity|].
  destruct (String.eqb k key) eqn:E; simpl; [exact IH|]. now rewrite E.
Qed.

Lemma fields_get_del_ne key fields k :
  k <> key -> fields_get k (fields_del key fields) = fields_get k fields.
Proof.
  intros Hne. induction fields as [|[k' v] rest IH]; simpl; [reflexivity|].
  destruct (String.eqb_spec k' key) as [->|Hk]; simpl.
  - apply not_eq_sym, String.eqb_neq in Hne. now rewrite Hne.
  - now rewrite IH.
Qed.

Lemma fields_set_truthy key x fields : truthy (JObj (fields_set key x fields)) = true.
Proof.
  unfold fields_set. destruct (fields_get key fields) eqn:E.
  - destruct fields as [|[k v] rest]; [discriminate|reflexivity].
  - destruct fields; reflexivity.
Qed.

Lemma fields_get_truthy key fields x :
  fields_get key fields = Some x -> truthy (JObj fields) = true.
Proof. destruct fields; [discriminate|reflexivity]. Qed.

(** [get_api_key] on a file that holds a dictionary with a dictionary of
    profiles. *)
Lemma get_api_key_named d fields profiles q :
  config_file d = Holds (JObj fields) ->
  fields_get "profiles" fields = Some (JObj profiles) ->
  q <> "" ->
  get_api_key (Some q) d = (key_of (fields_get q profiles), d).
Proof.
  intros Hfile Hp Hq. unfold get_api_key, io_bind, load_config, lift, io_ret.
  rewrite Hfile. rewrite (fields_get_truthy _ _ _ Hp). simpl. rewrite Hp. simpl.
  apply String.eqb_neq in Hq. rewrite Hq. simpl.
  unfold key_of. destruct (fields_get q profiles) as [data|]; [|reflexivity].
  destruct (truthy data); simpl; [|reflexivity].
  now destruct (get_method data (JStr "api_key") JNull).
Qed.

Lemma get_api_key_active d fields profiles active :
  config_file d = Holds (JObj fields) ->
  fields_get "profiles" fields = Some (JObj profiles) ->
  fields_get "active_profile" fields = Some (JStr active) ->
  get_api_key None d = (key_of (fields_get active profiles), d)
  /\ get_api_key (Some "") d = (key_of (fields_get active profiles), d).
Proof.
  intros Hfile Hp Ha. unfold get_api_key, io_bind, load_config, lift, io_ret.
  rewrite Hfile. rewrite (fields_get_truthy _ _ _ Hp). simpl. rewrite Hp, Ha. simpl.
  unfold key_of. destruct (fields_get active profiles) as [data|]; [|now split].
  destruct (truthy data); simpl; [|now split].
  now destruct (get_method data (JStr "api_key") JNull).
Qed.

(** [get_api_key] on a file that holds no profiles. *)
Lemma get_api_key_none d profile :
  match config_file d with
  | Holds (JObj fields) => fields_get "profiles" fields = None
  | Holds _ => False
  | _ => True
  end ->
  get_api_key profile d = (Ok JNull, d).
Proof.
  unfold get_api_key, io_bind, load_config, lift, io_ret.
  destruct (config_file d) as [| |[]]; try reflexivity; try contradiction.
  intros H. destruct (truthy (JObj fields)); simpl; [|reflexivity].
  now rewrite H.
Qed.

(** What a successful [save_config] leaves in the file. *)
Lemma save_config_inv api_key profile d d' :
  save_config api_key profile d = (Ok tt, d') ->
  console d' = console d
  /\ exists fields profiles,
       config_file d' = Holds (JObj fields)
       /\ fields_get "active_profile" fields = Some (JStr profile)
       /\ fields_get "profiles" fields = Some (JObj profiles)
       /\ fields_get profile profiles = Some (JObj [("api_key", JStr api_key)])
       /\ (forall q, q <> profile ->
                     fields_get q profiles = fields_get q (stored_profiles (config_file d)))
       /\ usable (config_file d).
Proof.
  unfold usable, save_config, io_bind, ensure_config_dir, io_ret, lift, write_config.
  assert (Hempty : forall (c : disk),
             (if negb false then (setitem (JObj []) "profiles" (JObj []), c)
              else (Ok (JObj []), c))
             = (Ok (JObj [("profiles", JObj [])]), c)) by reflexivity.
  destruct (config_file d) as [| |value] eqn:Hfile.
  - simpl. intros [= <-]. simpl. split; [reflexivity|].
    eexists _, _. repeat split; try reflexivity.
    + simpl. now rewrite String.eqb_refl.
    + intros q Hq. simpl.
      assert (H : String.eqb profile q = false) by (apply String.eqb_neq; congruence).
      now rewrite H.
  - simpl. intros [= <-]. simpl. split; [reflexivity|].
    eexists _, _. repeat split; try reflexivity.
    + simpl. now rewrite String.eqb_refl.
    + intros q Hq. simpl.
      assert (H : String.eqb profile q = false) by (apply String.eqb_neq; congruence).
      now rewrite H.
  - destruct value as [|b|z|f|s|items|old]; simpl; try discriminate.
    + destruct (substring_of "profiles" s); simpl; discriminate.
    + destruct (existsb _ items); simpl; discriminate.
    + destruct (fields_get "profiles" old) as [pv|] eqn:Hp; simpl.
      * rewrite Hp. destruct pv as [| | | | | |profiles]; simpl; try discriminate.
        intros [= <-]. simpl. split; [reflexivity|].
        eexists _, _. split; [reflexivity|].
        rewrite fields_get_set_eq. split; [reflexivity|].
        rewrite fields_get_set_ne by discriminate.
        rewrite fields_get_set_eq. split; [reflexivity|].
        rewrite fields_get_set_eq. split; [reflexivity|].
        split; [|exact I].
        intros q Hq. now rewrite fields_get_set_ne.
      * rewrite fields_get_set_eq. simpl.
        intros [= <-]. simpl. split; [reflexivity|].
        eexists _, _. split; [reflexivity|].
        rewrite fields_get_set_eq. split; [reflexivity|].
        rewrite fields_get_set_ne by discriminate.
        rewrite fields_get_set_eq. split; [reflexivity|].
        rewrite fields_get_set_eq. split; [reflexivity|].
        split; [|exact I].
        intros q Hq. now rewrite fields_get_set_ne.
Qed.

Lemma get_active_profile_stored d fields active :
  config_file d = Holds (JObj fields) ->
  fields_get "active_profile" fields = Some active ->
  get_active_profile d = (Ok active, d).
Proof.
  intros Hfile Ha. unfold get_active_profile, io_bind, load_config, lift, io_ret.
  rewrite Hfile, (fields_get_truthy _ _ _ Ha). simpl. now rewrite Ha.
Qed.

Lemma get_api_key_unusable_free d q :
  usable (config_file d) ->
  q <> "" ->
  get_api_key (Some q) d = (key_of (fields_get q (stored_profiles (config_file d))), d).
Proof.
  intros Hu Hq. unfold usable in Hu.
  destruct (config_file d) as [| |value] eqn:Hfile.
  - apply get_api_key_none. now rewrite Hfile.
  - apply get_api_key_none. now rewrite Hfile.
  - destruct value as [| | | | | |fields]; try contradiction.
    destruct (fields_get "profiles" fields) as [pv|] eqn:Hp.
    + destruct pv as [| | | | | |profiles]; try contradiction.
      simpl. rewrite Hp. now apply (get_api_key_named d fields profiles).
    + simpl. rewrite Hp. apply get_api_key_none. now rewrite Hfile.
Qed.

(** X7.  What [save_config] stores can be read back: after a call that
    did not raise, [get_api_key] gives the key just saved, both for the
    profile by name and for the active profile, and [get_active_profile]
    gives the profile just saved. *)
Theorem save_config_round_trip (api_key profile : string) (d d' : disk) :
  save_config api_key profile d = (Ok tt, d') ->
  get_api_key (Some profile) d' = (Ok (JStr api_key), d')
  /\ get_api_key None d' = (Ok (JStr api_key), d')
  /\ get_active_profile d' = (Ok (JStr profile), d').
Proof.
  intros Hsave.
  destruct (save_config_inv _ _ _ _ Hsave)
    as (_ & fields & profiles & Hfile & Ha & Hp & Hk & _).
  destruct (get_api_key_active d' fields profiles profile Hfile Hp Ha) as [Hnone Hempty].
  rewrite Hk in Hnone, Hempty. simpl in Hnone, Hempty.
  split; [|split].
  - destruct (String.eqb_spec profile "") as [->|Hne]; [exact Hempty|].
    rewrite (get_api_key_named d' fields profiles profile Hfile Hp Hne), Hk.
    reflexivity.
  - exact Hnone.
  - now apply (get_active_profile_stored d' fields).
Qed.

Lemma save_config_round_trip_witness :
  get_api_key (Some "work") (Disk (Holds (JObj [("profiles", JObj [("work", JObj [("api_key", JStr "k-123")])]); ("active_profile", JStr "work")])) [])
  = (Ok (JStr "k-123"), Disk (Holds (JObj [("profiles", JObj [("work", JObj [("api_key", JStr "k-123")])]); ("active_profile", JStr "work")])) [])
  /\ get_api_key None (Disk (Holds (JObj [("profiles", JObj [("work", JObj [("api_key", JStr "k-123")])]); ("active_profile", JStr "work")])) [])
     = (Ok (JStr "k-123"), Disk (Holds (JObj [("profiles", JObj [("work", JObj [("api_key", JStr "k-123")])]); ("active_profile", JStr "work")])) [])
  /\ get_active_profile (Disk (Holds (JObj [("profiles", JObj [("work", JObj [("api_key", JStr "k-123")])]); ("active_profile", JStr "work")])) [])
     = (Ok (JStr "work"), Disk (Holds (JObj [("profiles", JObj [("work", JObj [("api_key", JStr "k-123")])]); ("active_profile", JStr "work")])) []).
Proof.
  apply (save_config_round_trip "k-123" "work" (Disk Missing [])).
  reflexivity.
Defined.


(** X9.  [save_config] leaves the other profiles alone: for any profile
    name other than the one saved (and not empty), [get_api_key] answers
    after the call as it did before. *)
Theorem save_config_keeps_other_profiles (api_key profile other : string) (d d' : disk) :
  save_config api_key profile d = (Ok tt, d') ->
  other <> profile ->
  other <> "" ->
  fst (get_api_key (Some other) d') = fst (get_api_key (Some other) d).
Proof.
  intros Hsave Hne Hnonempty.
  destruct (save_config_inv _ _ _ _ Hsave)
    as (_ & fields & profiles & Hfile & _ & Hp & _ & Hkeep & Hu).
  rewrite (get_api_key_named d' fields profiles other Hfile Hp Hnonempty).
  rewrite (get_api_key_unusable_free d other Hu Hnonempty).
  simpl. now rewrite Hkeep.
Qed.

Lemma save_config_keeps_other_profiles_witness :
  fst (get_api_key (Some "home")
         (snd (save_config "k-2" "work"
                 (Disk (Holds (JObj [("profiles", JObj [("home", JObj [("api_key", JStr "k-1")])]);
                                     ("active_profile", JStr "home")])) []))))
  = fst (get_api_key (Some "home")
           (Disk (Holds (JObj [("profiles", JObj [("home", JObj [("api_key", JStr "k-1")])]);
                               ("active_profile", JStr "home")])) [])).
Proof.
  apply (save_config_keeps_other_profiles "k-2" "work" "home"
           (Disk (Holds (JObj [("profiles", JObj [("home", JObj [("api_key", JStr "k-1")])]);
                               ("active_profile", JStr "home")])) [])).
  - reflexivity.
  - discriminate.
  - discriminate.
Defined.

(** X10.  After [save_config], [get_client] hands out a client made with
    the key just saved, unless that key is the empty string: then it
    prints that no API key is configured and exits with code 1. *)
Theorem get_client_after_save (api_key profile : string) (d d' : disk) :
  save_config api_key profile d = (Ok tt, d') ->
  get_client None d'
  = if String.eqb api_key "" then
      (Raised (SystemExit 1),
       Disk (config_file d')
            (console d' ++ [[Text "[bold red]No API key configured![/bold red]"]]
                        ++ [[Text "Please run: leonardo-cli configure"]]))
    else (Ok (Client (JStr api_key)), d').
Proof.
  intros Hsave. destruct (save_config_round_trip _ _ _ _ Hsave) as (_ & Hkey & _).
  unfold get_client, io_bind. rewrite Hkey. simpl.
  destruct (String.eqb api_key ""); simpl; [|reflexivity].
  unfold console_print. simpl. now rewrite <- app_assoc.
Qed.

Lemma get_client_after_save_witness :
  get_client None (snd (save_config "" "default" (Disk Undecodable [])))
  = if String.eqb "" "" then
      (Raised (SystemExit 1),
       Disk (config_file (snd (save_config "" "default" (Disk Undecodable []))))
            (console (snd (save_config "" "default" (Disk Undecodable [])))
             ++ [[Text "[bold red]No API key configured![/bold red]"]]
             ++ [[Text "Please run: leonardo-cli configure"]]))
    else (Ok (Client (JStr "")), snd (save_config "" "default" (Disk Undecodable []))).
Proof.
  apply (get_client_after_save "" "default" (Disk Undecodable [])).
  reflexivity.
Defined.

(** X11.  [use_profile] with the name of a stored profile makes it the
    active one and changes nothing else in the file: the keys of all
    profiles read as before, and the active key is that of the profile
    chosen. *)
Theorem use_profile_switches
    (profile : string) (d : disk) (fields profiles : list (string * json)) (data : json) :
  config_file d = Holds (JObj fields) ->
  fields_get "profiles" fields = Some (JObj profiles) ->
  fields_get profile profiles = Some data ->
  use_profile profile d
  = (Ok tt,
     Disk (Holds (JObj (fields_set "active_profile" (JStr profile) fields)))
          (console d ++ [[Text ("[bold green]Now using profile: [italic]" +:+ profile
                                +:+ "[/italic][/bold green]")]]))
  /\ get_active_profile (snd (use_profile profile d))
     = (Ok (JStr profile), snd (use_profile profile d))
  /\ fst (get_api_key None (snd (use_profile profile d))) = key_of (Some data)
  /\ forall q, q <> "" ->
       fst (get_api_key (Some q) (snd (use_profile profile d)))
       = fst (get_api_key (Some q) d).
Proof.
  intros Hfile Hp Hdata.
  assert (Hrun : use_profile profile d
                 = (Ok tt,
                    Disk (Holds (JObj (fields_set "active_profile" (JStr profile) fields)))
                         (console d
                          ++ [[Text ("[bold green]Now using profile: [italic]" +:+ profile
                                     +:+ "[/italic][/bold green]")]]))).
  { unfold use_profile, io_bind, load_config, lift, io_ret, write_config, console_print.
    rewrite Hfile, (fields_get_truthy _ _ _ Hp). simpl. rewrite Hp. simpl.
    rewrite Hdata. reflexivity. }
  rewrite Hrun. simpl snd. split; [reflexivity|].
  set (d' := Disk _ _).
  assert (Hfile' : config_file d'
                   = Holds (JObj (fields_set "active_profile" (JStr profile) fields)))
    by reflexivity.
  assert (Hp' : fields_get "profiles" (fields_set "active_profile" (JStr profile) fields)
                = Some (JObj profiles))
    by (now rewrite fields_get_set_ne by discriminate).
  split; [|split].
  - apply (get_active_profile_stored d' _ _ Hfile'). apply fields_get_set_eq.
  - destruct (get_api_key_active d' _ profiles profile Hfile' Hp'
                (fields_get_set_eq _ _ _)) as [-> _].
    simpl. now rewrite Hdata.
  - intros q Hq.
    rewrite (get_api_key_named d' _ profiles q Hfile' Hp' Hq).
    now rewrite (get_api_key_named d fields profiles q Hfile Hp Hq).
Qed.

Lemma use_profile_switches_witness :
  use_profile "home"
    (Disk (Holds (JObj [("profiles", JObj [("home", JObj [("api_key", JStr "k-1")]);
                                           ("work", JObj [("api_key", JStr "k-2")])]);
                        ("active_profile", JStr "work")])) [])
  = (Ok tt,
     Disk (Holds (JObj (fields_set "active_profile" (JStr "home")
                          [("profiles", JObj [("home", JObj [("api_key", JStr "k-1")]);
                                              ("work", JObj [("api_key", JStr "k-2")])]);
                           ("active_profile", JStr "work")])))
          (console (Disk (Holds (JObj [("profiles", JObj [("home", JObj [("api_key", JStr "k-1")]);
                                           ("work", JObj [("api_key", JStr "k-2")])]);
                        ("active_profile", JStr "work")])) [])
           ++ [[Text ("[bold green]Now using profile: [italic]" +:+ "home"
                      +:+ "[/italic][/bold green]")]])).
Proof.
  apply (use_profile_switches "home"
           (Disk (Holds (JObj [("profiles", JObj [("home", JObj [("api_key", JStr "k-1")]);
                                                  ("work", JObj [("api_key", JStr "k-2")])]);
                               ("active_profile", JStr "work")])) [])
           [("profiles", JObj [("home", JObj [("api_key", JStr "k-1")]);
                               ("work", JObj [("api_key", JStr "k-2")])]);
            ("active_profile", JStr "work")]
           [("home", JObj [("api_key", JStr "k-1")]);
            ("work", JObj [("api_key", JStr "k-2")])]
           (JObj [("api_key", JStr "k-1")])); reflexivity.
Defined.

(** X12.  Whatever the file holds and whatever name it is given,
    [use_profile] either leaves the file as it was, or sets the
    "active_profile" field of the dictionary it holds to that name and
    changes nothing else; it never adds or removes a profile. *)
Theorem use_profile_only_sets_active (profile : string) (d : disk) :
  config_file (snd (use_profile profile d)) = config_file d
  \/ exists fields,
       config_file d = Holds (JObj fields)
       /\ config_file (snd (use_profile profile d))
          = Holds (JObj (fields_set "active_profile" (JStr profile) fields)).
Proof.
  assert (Hkeys : forall keys out file,
             config_file (snd (print_keys keys (Disk file out))) = file).
  { induction keys as [|k keys IH]; intros out file; [reflexivity|].
    simpl. unfold io_bind, console_print. simpl. apply IH. }
  unfold use_profile, io_bind, load_config, lift, io_ret, write_config, console_print.
  destruct d as [file out]. simpl.
  destruct file as [| |value]; simpl; try (now left).
  destruct (truthy value) eqn:Ht; simpl; [|now left].
  destruct (py_in "profiles" value) as [has|e] eqn:Hin; simpl; [|now left].
  destruct has; simpl; [|now left].
  destruct (getitem value "profiles") as [pv|e] eqn:Hget; simpl; [|now left].
  destruct (py_in profile pv) as [known|e]; simpl; [|now left].
  destruct known; simpl.
  - destruct value; simpl in *; try discriminate. right. eauto.
  - destruct (keys_method pv) as [keys|e]; simpl; [|now left].
    left. apply Hkeys.
Qed.

(** What [delete_profile] does to a file that holds the profile. *)
Lemma delete_profile_run profile d fields profiles data :
  config_file d = Holds (JObj fields) ->
  fields_get "profiles" fields = Some (JObj profiles) ->
  fields_get profile profiles = Some data ->
  exists fields' out',
    delete_profile profile d = (Ok tt, Disk (Holds (JObj fields')) out')
    /\ fields_get "profiles" fields' = Some (JObj (fields_del profile profiles))
    /\ fields_get "active_profile" fields'
       = match fields_get "active_profile" fields with
         | Some active =>
             if eq_str active profile then
               match fields_del profile profiles with
               | (first, _) :: _ => Some (JStr first)
               | [] => None
               end
             else Some active
         | None => None
         end.
Proof.
  intros Hfile Hp Hdata.
  unfold delete_profile, io_bind, load_config, lift, io_ret, write_config, console_print.
  rewrite Hfile, (fields_get_truthy _ _ _ Hp). simpl. rewrite Hp. simpl.
  rewrite Hdata. simpl.
  set (fields1 := fields_set "profiles" (JObj (fields_del profile profiles)) fields).
  assert (Hp1 : fields_get "profiles" fields1 = Some (JObj (fields_del profile profiles)))
    by apply fields_get_set_eq.
  assert (Ha1 : fields_get "active_profile" fields1 = fields_get "active_profile" fields)
    by (now apply fields_get_set_ne).
  rewrite Ha1.
  destruct (fields_get "active_profile" fields) as [active|] eqn:Ha.
  - destruct (eq_str active profile) eqn:Heq.
    + rewrite Hp1. simpl.
      destruct (fields_del profile profiles) as [|[first v] rest] eqn:Hdel; simpl.
      * rewrite fields_get_del_eq. eexists _, _. split; [reflexivity|].
        split; [|apply fields_get_del_eq].
        now rewrite fields_get_del_ne by discriminate.
      * rewrite fields_get_set_eq. simpl. eexists _, _. split; [reflexivity|].
        split; [|apply fields_get_set_eq].
        now rewrite fields_get_set_ne by discriminate.
    + simpl. rewrite Ha1. simpl. eexists _, _. split; [reflexivity|].
      split; assumption.
  - simpl. rewrite Ha1. simpl. eexists _, _. split; [reflexivity|].
    split; assumption.
Qed.

(** X13.  [delete_profile] with the name of a stored profile removes that
    profile and no other: afterwards the file holds the same profiles in
    the same order but for the one deleted, [get_api_key] finds no key
    under the deleted name, and answers for every other name as before. *)
Theorem delete_profile_removes
    (profile : string) (d : disk) (fields profiles : list (string * json)) (data : json) :
  config_file d = Holds (JObj fields) ->
  fields_get "profiles" fields = Some (JObj profiles) ->
  fields_get profile profiles = Some data ->
  fst (delete_profile profile d) = Ok tt
  /\ stored_profiles (config_file (snd (delete_profile profile d)))
     = fields_del profile profiles
  /\ (profile <> "" ->
      fst (get_api_key (Some profile) (snd (delete_profile profile d))) = Ok JNull)
  /\ forall q, q <> "" -> q <> profile ->
       fst (get_api_key (Some q) (snd (delete_profile profile d)))
       = fst (get_api_key (Some q) d).
Proof.
  intros Hfile Hp Hdata.
  destruct (delete_profile_run profile d fields profiles data Hfile Hp Hdata)
    as (fields' & out' & Hrun & Hp' & _).
  rewrite Hrun. simpl fst. simpl snd.
  split; [reflexivity|]. split; [simpl; now rewrite Hp'|]. split.
  - intros Hne.
    rewrite (get_api_key_named (Disk (Holds (JObj fields')) out') fields'
               (fields_del profile profiles) profile eq_refl Hp' Hne).
    now rewrite fields_get_del_eq.
  - intros q Hq Hne.
    rewrite (get_api_key_named (Disk (Holds (JObj fields')) out') fields'
               (fields_del profile profiles) q eq_refl Hp' Hq).
    rewrite (get_api_key_named d fields profiles q Hfile Hp Hq).
    simpl. now rewrite fields_get_del_ne.
Qed.

Lemma delete_profile_removes_witness :
  fst (delete_profile "work"
         (Disk (Holds (JObj [("profiles", JObj [("home", JObj [("api_key", JStr "k-1")]);
                                                ("work", JObj [("api_key", JStr "k-2")])]);
                             ("active_profile", JStr "work")])) []))
  = Ok tt.
Proof.
  apply (delete_profile_removes "work"
           (Disk (Holds (JObj [("profiles", JObj [("home", JObj [("api_key", JStr "k-1")]);
                                                  ("work", JObj [("api_key", JStr "k-2")])]);
                               ("active_profile", JStr "work")])) [])
           [("profiles", JObj [("home", JObj [("api_key", JStr "k-1")]);
                               ("work", JObj [("api_key", JStr "k-2")])]);
            ("active_profile", JStr "work")]
           [("home", JObj [("api_key", JStr "k-1")]);
            ("work", JObj [("api_key", JStr "k-2")])]
           (JObj [("api_key", JStr "k-2")])); reflexivity.
Defined.

(** X14.  When the profile deleted was the active one, the first of the
    remaining profiles becomes active, so that the active profile names a
    stored profile again; when none remains the "active_profile" field is
    dropped and [get_active_profile] answers "default".  When another
    profile was active, it stays so. *)
Theorem delete_profile_active
    (profile : string) (d : disk) (fields profiles : list (string * json))
    (data active : json) :
  config_file d = Holds (JObj fields) ->
  fields_get "profiles" fields = Some (JObj profiles) ->
  fields_get profile profiles = Some data ->
  fields_get "active_profile" fields = Some active ->
  (eq_str active profile = true ->
   match fields_del profile profiles with
   | (first, first_data) :: _ =>
       get_active_profile (snd (delete_profile profile d))
       = (Ok (JStr first), snd (delete_profile profile d))
       /\ first <> profile
       /\ fields_get first (stored_profiles (config_file (snd (delete_profile profile d))))
          = Some first_data
   | [] =>
       stored_active (config_file (snd (delete_profile profile d))) = None
       /\ get_active_profile (snd (delete_profile profile d))
          = (Ok (JStr "default"), snd (delete_profile profile d))
   end)
  /\ (eq_str active profile = false ->
      stored_active (config_file (snd (delete_profile profile d))) = Some active).
Proof.
  intros Hfile Hp Hdata Ha.
  destruct (delete_profile_run profile d fields profiles data Hfile Hp Hdata)
    as (fields' & out' & Hrun & Hp' & Ha').
  rewrite Hrun, Ha in *. simpl snd. split.
  - intros Heq. rewrite Heq in Ha'.
    destruct (fields_del profile profiles) as [|[first first_data] rest] eqn:Hdel.
    + split; [exact Ha'|].
      unfold get_active_profile, io_bind, load_config, lift, io_ret.
      cbn [config_file]. rewrite (fields_get_truthy _ _ _ Hp'). simpl.
      now rewrite Ha'.
    + split; [now apply (get_active_profile_stored _ fields')|].
      assert (Hin : In (first, first_data) (fields_del profile profiles))
        by (rewrite Hdel; now left).
      apply filter_In in Hin as [_ Hne]. simpl in Hne.
      split.
      * intros ->. rewrite String.eqb_refl in Hne. discriminate.
      * simpl. rewrite Hp'. simpl. now rewrite String.eqb_refl.
  - intros Heq. rewrite Heq in Ha'. exact Ha'.
Qed.

Lemma delete_profile_active_witness :
  get_active_profile
    (snd (delete_profile "work"
            (Disk (Holds (JObj [("profiles", JObj [("home", JObj [("api_key", JStr "k-1")]);
                                                   ("work", JObj [("api_key", JStr "k-2")])]);
                                ("active_profile", JStr "work")])) [])))
  = (Ok (JStr "home"),
     snd (delete_profile "work"
            (Disk (Holds (JObj [("profiles", JObj [("home", JObj [("api_key", JStr "k-1")]);
                                                   ("work", JObj [("api_key", JStr "k-2")])]);
                                ("active_profile", JStr "work")])) []))).
Proof.
  exact (proj1
           (proj1
              (delete_profile_active "work"
                 (Disk (Holds (JObj [("profiles",
                                      JObj [("home", JObj [("api_key", JStr "k-1")]);
                                            ("work", JObj [("api_key", JStr "k-2")])]);
                                     ("active_profile", JStr "work")])) [])
                 [("profiles", JObj [("home", JObj [("api_key", JStr "k-1")]);
                                     ("work", JObj [("api_key", JStr "k-2")])]);
                  ("active_profile", JStr "work")]
                 [("home", JObj [("api_key", JStr "k-1")]);
                  ("work", JObj [("api_key", JStr "k-2")])]
                 (JObj [("api_key", JStr "k-2")])
                 (JStr "work")
                 eq_refl eq_refl eq_refl eq_refl)
              eq_refl)).
Defined.

(** ** Strings *)

Lemma append_cons x (a b : string) : String x a +:+ b = String x (a +:+ b).
Proof. reflexivity. Qed.

Lemma append_nil_l (b : string) : "" +:+ b = b.
Proof. reflexivity. Qed.

Lemma length_append (a b : string) :
  String.length (a +:+ b) = (String.length a + String.length b)%nat.
Proof.
  induction a as [|c a IH]; [reflexivity|].
  rewrite append_cons. simpl. now rewrite IH.
Qed.

Lemma append_assoc (a b c : string) : (a +:+ b) +:+ c = a +:+ (b +:+ c).
Proof.
  induction a as [|x a IH]; [reflexivity|].
  rewrite !append_cons. now rewrite IH.
Qed.

Lemma append_nil_r (a : string) : a +:+ "" = a.
Proof.
  induction a as [|x a IH]; [reflexivity|].
  rewrite append_cons. now rewrite IH.
Qed.

Lemma substring_all s : String.substring 0 (String.length s) s = s.
Proof. induction s as [|c s IH]; simpl; [reflexivity|now rewrite IH]. Qed.

Lemma substring_head (a b : string) :
  String.substring 0 (String.length a) (a +:+ b) = a.
Proof.
  induction a as [|c a IH]; [now destruct b|].
  rewrite append_cons. simpl. now rewrite IH.
Qed.

Lemma substring_skip (a b : string) m :
  String.substring (String.length a) m (a +:+ b) = String.substring 0 m b.
Proof.
  induction a as [|c a IH]; [reflexivity|].
  rewrite append_cons. simpl. exact IH.
Qed.

Lemma substring_split n s :
  (n <= String.length s)%nat ->
  String.substring 0 n s +:+ String.substring n (String.length s - n) s = s.
Proof.
  revert n. induction s as [|c s IH]; intros n Hn; simpl in Hn.
  - assert (n = 0%nat) as -> by lia. reflexivity.
  - destruct n as [|n].
    + change (String.substring 0 0 (String c s)) with "".
      rewrite append_nil_l, Nat.sub_0_r. apply substring_all.
    + simpl. rewrite append_cons, IH by lia. reflexivity.
Qed.

(** ** The masked key *)

(** X15.  The key shown by the [profiles] command never shows the whole
    key.  A key of sixteen characters or fewer is shown as eight stars; a
    longer one as its first eight characters, three dots and its last eight
    characters, so that two keys which differ in the middle only are shown
    alike. *)
Theorem masked_key_hides_middle (head middle tail : string) :
  String.length head = 8%nat ->
  String.length tail = 8%nat ->
  middle <> "" ->
  masked_key (head +:+ middle +:+ tail) = head +:+ "..." +:+ tail
  /\ masked_key (head +:+ tail) = "********"
  /\ forall short, (String.length short <= 16)%nat -> masked_key short = "********".
Proof.
  intros Hh Ht Hm. split; [|split].
  - unfold masked_key. rewrite !length_append, Hh, Ht.
    assert (Hlen : (0 < String.length middle)%nat)
      by (destruct middle; [contradiction|simpl; lia]).
    destruct (Z.ltb_spec 16 (Z.of_nat (8 + (String.length middle + 8)))); [|lia].
    f_equal.
    + rewrite <- Hh at 1. apply substring_head.
    + f_equal.
      replace (8 + (String.length middle + 8) - 8)%nat
        with (String.length (head +:+ middle)) by (rewrite length_append; lia).
      rewrite <- append_assoc, substring_skip, <- Ht. apply substring_all.
  - unfold masked_key. rewrite length_append, Hh, Ht. reflexivity.
  - intros short Hs. unfold masked_key.
    destruct (Z.ltb_spec 16 (Z.of_nat (String.length short))); [lia|reflexivity].
Qed.

Lemma masked_key_hides_middle_witness :
  masked_key ("abcdefgh" +:+ "SECRET" +:+ "stuvwxyz") = "abcdefgh" +:+ "..." +:+ "stuvwxyz".
Proof.
  apply (masked_key_hides_middle "abcdefgh" "SECRET" "stuvwxyz");
    [reflexivity|reflexivity|discriminate].
Defined.

(** ** The templates listed *)

Lemma endswith_split s suffix :
  endswith s suffix = true ->
  String.substring 0 (String.length s - String.length suffix) s +:+ suffix = s.
Proof.
  unfold endswith. intros H. apply andb_prop in H as [Hlen Heq].
  apply Nat.leb_le in Hlen. apply String.eqb_eq in Heq.
  pose proof (substring_split (String.length s - String.length suffix) s) as Hs.
  replace (String.length s - (String.length s - String.length suffix))%nat
    with (String.length suffix) in Hs by lia.
  rewrite Heq in Hs. apply Hs. lia.
Qed.

Lemma endswith_append name suffix : endswith (name +:+ suffix) suffix = true.
Proof.
  unfold endswith. rewrite length_append. apply andb_true_intro. split.
  - apply Nat.leb_le. lia.
  - replace (String.length name + String.length suffix - String.length suffix)%nat
      with (String.length name) by lia.
    rewrite substring_skip, substring_all. apply String.eqb_refl.
Qed.

Lemma list_templates_cons_json name listing :
  list_templates ((name +:+ ".json") :: listing) = name :: list_templates listing.
Proof.
  simpl. rewrite endswith_append. f_equal.
  rewrite length_append.
  replace (String.length name + String.length ".json" - 5)%nat
    with (String.length name) by (simpl; lia).
  apply substring_head.
Qed.

(** X16.  [TemplateManager.list_templates] lists exactly the files of the
    templates directory whose name ends in ".json", in the order of the
    directory listing and with that ending taken off: putting the ending
    back on the names returned gives the listing filtered by the ending. *)
Theorem list_templates_are_the_json_files (listing : list string) :
  map (fun name => name +:+ ".json") (list_templates listing)
  = List.filter (fun filename => endswith filename ".json") listing.
Proof.
  induction listing as [|filename rest IH]; [reflexivity|].
  simpl. destruct (endswith filename ".json") eqn:He; [|exact IH].
  simpl. rewrite IH. f_equal.
  exact (endswith_split filename ".json" He).
Qed.

(** X17.  A template stored as the file [name.json] is listed under [name]:
    when the directory listing holds [name.json], the list returned holds
    [name]; and a name is only listed when its file is in the listing. *)
Theorem list_templates_lists_stored (listing : list string) (name : string) :
  In (name +:+ ".json") listing <-> In name (list_templates listing).
Proof.
  induction listing as [|filename rest IH]; [reflexivity|].
  split.
  - intros [->|Hin].
    + rewrite list_templates_cons_json. now left.
    + simpl. destruct (endswith filename ".json"); [right|]; now apply IH.
  - simpl. destruct (endswith filename ".json") eqn:He.
    + intros [Hn|Hin]; [left|right; now apply IH].
      rewrite <- Hn. symmetry. exact (endswith_split filename ".json" He).
    + intros Hin. right. now apply IH.
Qed.

(** ** The request body of [create_generation] *)

Lemma fields_get_set k key x fields :
  fields_get k (fields_set key x fields)
  = if String.eqb k key then Some x else fields_get k fields.
Proof.
  destruct (String.eqb_spec k key) as [->|Hne].
  - apply fields_get_set_eq.
  - now apply fields_get_set_ne.
Qed.

Lemma fields_get_del k key fields :
  fields_get k (fields_del key fields)
  = if String.eqb k key then None else fields_get k fields.
Proof.
  destruct (String.eqb_spec k key) as [->|Hne].
  - apply fields_get_del_eq.
  - now apply fields_get_del_ne.
Qed.

Lemma fields_get_set_when k test key x fields :
  fields_get k (set_when test key x fields)
  = if test && String.eqb k key then Some x else fields_get k fields.
Proof. destruct test; simpl; [apply fields_get_set|reflexivity]. Qed.

Ltac payload_get :=
  unfold create_generation_payload; cbv zeta;
  repeat match goal with
    | |- context [if ?b then fields_set _ _ _ else _] => destruct b
    | |- context [if ?b then set_when _ _ _ _ else _] => destruct b
    | |- context [if ?b then fields_del _ _ else _] => destruct b
    end;
  repeat (rewrite fields_get_set_when || rewrite fields_get_set
          || rewrite fields_get_del);
  cbn [String.eqb Ascii.eqb Bool.eqb andb fields_get];
  rewrite ?andb_false_r, ?andb_true_r.

(** X18.  Whatever options are given, the request body that
    [create_generation] sends carries the prompt, the width, the height and
    the number of images it was called with: no later step of the
    function overwrites or removes them. *)
Theorem create_generation_payload_required
    prompt model_id num_images width height negative_prompt guidance_scale
    preset_style alchemy photoreal photoreal_version init_image_id init_strength
    init_generation_image_id image_prompts controlnets is_phoenix contrast :
  let payload :=
    create_generation_payload prompt model_id num_images width height negative_prompt
      guidance_scale preset_style alchemy photoreal photoreal_version init_image_id
      init_strength init_generation_image_id image_prompts controlnets is_phoenix
      contrast in
  fields_get "prompt" payload = Some (JStr prompt)
  /\ fields_get "width" payload = Some (JInt width)
  /\ fields_get "height" payload = Some (JInt height)
  /\ fields_get "num_images" payload = Some (JInt num_images).
Proof.
  cbv zeta. repeat split; payload_get; reflexivity.
Qed.

(** X19.  For the Phoenix model the request body carries [isPhoenix] set
    to true and neither [photoReal] nor [photoRealVersion], also when
    photoreal was asked for together with a version; the contrast is in the
    body exactly when one was given. *)
Theorem create_generation_payload_phoenix
    prompt model_id num_images width height negative_prompt guidance_scale
    preset_style alchemy photoreal photoreal_version init_image_id init_strength
    init_generation_image_id image_prompts controlnets contrast :
  let payload :=
    create_generation_payload prompt model_id num_images width height negative_prompt
      guidance_scale preset_style alchemy photoreal photoreal_version init_image_id
      init_strength init_generation_image_id image_prompts controlnets true
      contrast in
  fields_get "isPhoenix" payload = Some (JBool true)
  /\ fields_get "photoReal" payload = None
  /\ fields_get "photoRealVersion" payload = None
  /\ fields_get "contrast" payload
     = match contrast with Some c => Some (JFloat c) | None => None end.
Proof.
  cbv zeta. repeat split; payload_get; try reflexivity;
    destruct contrast; reflexivity.
Qed.

(** X20.  Without the Phoenix flag the request body has no [isPhoenix]
    field and no [contrast] field, whatever contrast was passed;
    [photoReal] is in it exactly when photoreal was asked for, and
    [photoRealVersion] only then and only for a version that is not
    empty. *)
Theorem create_generation_payload_not_phoenix
    prompt model_id num_images width height negative_prompt guidance_scale
    preset_style alchemy photoreal photoreal_version init_image_id init_strength
    init_generation_image_id image_prompts controlnets contrast :
  let payload :=
    create_generation_payload prompt model_id num_images width height negative_prompt
      guidance_scale preset_style alchemy photoreal photoreal_version init_image_id
      init_strength init_generation_image_id image_prompts controlnets false
      contrast in
  fields_get "isPhoenix" payload = None
  /\ fields_get "contrast" payload = None
  /\ fields_get "photoReal" payload = (if photoreal then Some (JBool true) else None)
  /\ fields_get "photoRealVersion" payload
     = match photoreal, photoreal_version with
       | true, Some version => if String.eqb version "" then None else Some (JStr version)
       | _, _ => None
       end.
Proof.
  cbv zeta. repeat split; payload_get; try reflexivity.
  all: destruct photoreal_version as [version|]; simpl; [|reflexivity].
  all: now destruct (String.eqb version "").
Qed.

(** X21.  The strength of the image guidance is sent only together with
    the image it applies to: [init_strength] is in the request body exactly
    when a strength was given and the id of the initial image is a string
    that is not empty, and then [init_image_id] is in the body as well. *)
Theorem create_generation_payload_init_strength
    prompt model_id num_images width height negative_prompt guidance_scale
    preset_style alchemy photoreal photoreal_version init_image_id init_strength
    init_generation_image_id image_prompts controlnets is_phoenix contrast :
  let payload :=
    create_generation_payload prompt model_id num_images width height negative_prompt
      guidance_scale preset_style alchemy photoreal photoreal_version init_image_id
      init_strength init_generation_image_id image_prompts controlnets is_phoenix
      contrast in
  fields_get "init_strength" payload
  = match init_image_id, init_strength with
    | Some image, Some strength =>
        if String.eqb image "" then None else Some (JFloat strength)
    | _, _ => None
    end
  /\ fields_get "init_image_id" payload
     = match init_image_id with
       | Some image => if String.eqb image "" then None else Some (JStr image)
       | None => None
       end.
Proof.
  cbv zeta. split.
  - destruct init_image_id as [image|]; [destruct (String.eqb image "") eqn:He|];
      destruct init_strength as [strength|];
      unfold create_generation_payload; cbv zeta;
      cbn [of_str of_float truthy is_not_none negb]; rewrite ?He;
      cbn [negb]; payload_get; reflexivity.
  - destruct init_image_id as [image|]; [destruct (String.eqb image "") eqn:He|];
      unfold create_generation_payload; cbv zeta;
      cbn [of_str of_float truthy is_not_none negb]; rewrite ?He;
      cbn [negb]; payload_get; reflexivity.
Qed.

(** ** The batch of prompts *)

Lemma process_batch_from_cons total i prompt rest client :
  snd (process_batch_from total i (prompt :: rest) client)
  = snd (batch_round total i prompt (client i prompt))
    :: snd (process_batch_from total (S i) rest client).
Proof.
  simpl. destruct (batch_round total i prompt (client i prompt)).
  now destruct (process_batch_from total (S i) rest client).
Qed.

Lemma batch_round_prompt total i prompt r :
  get_method (snd (batch_round total i prompt r)) (JStr "prompt") JNull
  = Ok (JStr prompt).
Proof.
  unfold batch_round. destruct (batch_attempt r) as [text|id]; [reflexivity|].
  now destruct (truthy id).
Qed.

Lemma process_batch_from_nth total prompts client : forall i k prompt,
  nth_error prompts k = Some prompt ->
  nth_error (snd (process_batch_from total i prompts client)) k
  = Some (snd (batch_round total (i + k) prompt (client (i + k)%nat prompt))).
Proof.
  induction prompts as [|p rest IH]; intros i k prompt Hk.
  - now destruct k.
  - rewrite process_batch_from_cons. destruct k as [|k]; simpl in *.
    + injection Hk as ->. now rewrite Nat.add_0_r.
    + rewrite (IH (S i) k prompt Hk). now rewrite Nat.add_succ_r.
Qed.

Lemma process_batch_from_length total prompts client : forall i,
  length (snd (process_batch_from total i prompts client)) = length prompts.
Proof.
  induction prompts as [|p rest IH]; intros i; [reflexivity|].
  rewrite process_batch_from_cons. simpl. now rewrite IH.
Qed.

Lemma process_batch_from_prompts total prompts client : forall i,
  map (fun item => get_method item (JStr "prompt") JNull)
      (snd (process_batch_from total i prompts client))
  = map (fun prompt => Ok (JStr prompt)) prompts.
Proof.
  induction prompts as [|prompt rest IH]; intros i; [reflexivity|].
  rewrite process_batch_from_cons. simpl.
  now rewrite batch_round_prompt, IH.
Qed.

(** A run that returns, with the console as [rich] has it: every line
    printed was taken, and the results are those of the run in which no
    print raises. *)
Lemma rich_process_batch_returned renders total client :
  forall prompts i gathered printed results,
    Rich.process_batch_from renders total i prompts client gathered
    = (printed, Returned results) ->
    results = (gathered ++ snd (process_batch_from total i prompts client))%list
    /\ forall k prompt,
        nth_error prompts k = Some prompt ->
        renders (progress_line total (i + k) prompt) = true
        /\ forall text,
            client (i + k)%nat prompt = Throws text ->
            renders (error_line prompt text) = true.
Proof.
  induction prompts as [|p rest IH]; intros i gathered printed results H.
  - simpl in H. injection H as _ <-. rewrite app_nil_r. split; [reflexivity|].
    intros [|k] prompt Hk; discriminate.
  - rewrite process_batch_from_cons. simpl in H.
    unfold Rich.batch_round, batch_round in *.
    destruct (renders (progress_line total i p)) eqn:Hp; [|discriminate].
    assert (Hgo : forall item printed0,
               (let (printed', ending) :=
                  Rich.process_batch_from renders total (S i) rest client
                    (gathered ++ [item]) in
                ((printed0 ++ printed')%list, ending)) = (printed, Returned results) ->
               results
               = (gathered ++ item :: snd (process_batch_from total (S i) rest client))%list
               /\ forall k prompt,
                   nth_error rest k = Some prompt ->
                   renders (progress_line total (S i + k) prompt) = true
                   /\ forall text,
                       client (S i + k)%nat prompt = Throws text ->
                       renders (error_line prompt text) = true).
    { intros item printed0 Hrun.
      destruct (Rich.process_batch_from renders total (S i) rest client (gathered ++ [item]))
        as [printed' ending] eqn:Hrec.
      injection Hrun as _ ->.
      destruct (IH _ _ _ _ Hrec) as [-> Hlines].
      split; [now rewrite <- app_assoc|exact Hlines]. }
    assert (Hhere : forall text, client i p = Throws text ->
                                 batch_attempt (client i p) = inl text)
      by (intros text ->; reflexivity).
    destruct (batch_attempt (client i p)) as [text|id] eqn:Ha.
    + destruct (renders (error_line p text)) eqn:He; [|discriminate].
      destruct (Hgo _ _ H) as [-> Hlines]. split; [reflexivity|].
      intros [|k] prompt Hk.
      * injection Hk as <-. rewrite Nat.add_0_r. split; [exact Hp|].
        intros text' Ht. apply Hhere in Ht. now injection Ht as <-.
      * rewrite Nat.add_succ_r. now apply Hlines.
    + assert (Hno : forall text, client i p = Throws text -> False)
        by (intros text Ht; apply Hhere in Ht; discriminate).
      destruct (truthy id); destruct (Hgo _ _ H) as [-> Hlines];
        (split; [reflexivity|]); intros [|k] prompt Hk;
        try (rewrite Nat.add_succ_r; now apply Hlines);
        injection Hk as <-; rewrite Nat.add_0_r; (split; [exact Hp|]);
        intros text Ht; now destruct (Hno text Ht).
Qed.

(** X22.  When [process_batch] returns, it returns one result for each
    prompt, in the order of the prompts, and each result carries its
    prompt: reading the [prompt] field of the results gives the list of
    prompts back, whatever the calls of the client returned or raised.  It
    returns only if [rich] took the line printed at the start of every
    round. *)
Theorem process_batch_one_result_per_prompt
    (renders : string -> bool) (prompts : list string)
    (client : nat -> string -> call_result)
    (printed : list (list fragment)) (results : list json) :
  Rich.process_batch renders prompts client = (printed, Returned results) ->
  map (fun item => get_method item (JStr "prompt") JNull) results
  = map (fun prompt => Ok (JStr prompt)) prompts
  /\ forall k prompt,
      nth_error prompts k = Some prompt ->
      renders (progress_line (length prompts) k prompt) = true.
Proof.
  intros H. apply rich_process_batch_returned in H as [-> Hlines]. split.
  - apply process_batch_from_prompts.
  - intros k prompt Hk. now apply (Hlines k prompt).
Qed.

Lemma process_batch_one_result_per_prompt_witness :
  map (fun item => get_method item (JStr "prompt") JNull)
      [JObj [("prompt", JStr "a cat"); ("generation_id", JStr "g-1");
             ("status", JStr "started")];
       JObj [("prompt", JStr "a dog"); ("generation_id", JNull);
             ("status", JStr "failed")]]
  = map (fun prompt => Ok (JStr prompt)) ["a cat"; "a dog"].
Proof.
  refine (proj1 (process_batch_one_result_per_prompt
                   (fun _ => true) ["a cat"; "a dog"]
                   (fun k _ =>
                      match k with
                      | O => Returns (JObj [("sdGenerationJob",
                                             JObj [("generationId", JStr "g-1")])])
                      | _ => Returns (JObj [])
                      end)
                   [[Text (progress_line 2 0 "a cat")]; [Text (progress_line 2 1 "a dog")]]
                   _ _)).
  reflexivity.
Defined.

(** X23.  An exception raised by the client for one prompt does not end
    the batch by itself: in a call of [process_batch] that returns, the
    result at the place of that prompt records the status [error] with the
    text of the exception and no generation id, and there are as many
    results as prompts.  (The call returns only if [rich] took the line
    that reports the exception.) *)
Theorem process_batch_records_exception
    (renders : string -> bool) (prompts : list string)
    (client : nat -> string -> call_result)
    (printed : list (list fragment)) (results : list json)
    (k : nat) (prompt text : string) :
  Rich.process_batch renders prompts client = (printed, Returned results) ->
  nth_error prompts k = Some prompt ->
  client k prompt = Throws text ->
  nth_error results k
  = Some (JObj [("prompt", JStr prompt); ("generation_id", JNull);
                ("status", JStr "error"); ("error", JStr text)])
  /\ length results = length prompts
  /\ renders (error_line prompt text) = true.
Proof.
  intros H Hk Hc. apply rich_process_batch_returned in H as [-> Hlines].
  split; [|split].
  - simpl. rewrite (process_batch_from_nth _ _ _ 0 k prompt Hk).
    simpl. unfold batch_round. now rewrite Hc.
  - apply process_batch_from_length.
  - now apply (Hlines k prompt Hk).
Qed.

Lemma process_batch_records_exception_witness :
  nth_error
    [JObj [("prompt", JStr "a cat"); ("generation_id", JNull);
           ("status", JStr "error"); ("error", JStr "401 Client Error")];
     JObj [("prompt", JStr "a dog"); ("generation_id", JStr "g-2");
           ("status", JStr "started")]] 0
  = Some (JObj [("prompt", JStr "a cat"); ("generation_id", JNull);
                ("status", JStr "error"); ("error", JStr "401 Client Error")]).
Proof.
  refine (proj1 (process_batch_records_exception
                   (fun _ => true) ["a cat"; "a dog"]
                   (fun k _ =>
                      match k with
                      | O => Throws "401 Client Error"
                      | _ => Returns (JObj [("sdGenerationJob",
                                             JObj [("generationId", JStr "g-2")])])
                      end)
                   [[Text (progress_line 2 0 "a cat")];
                    [Text (error_line "a cat" "401 Client Error")];
                    [Text (progress_line 2 1 "a dog")]]
                   _ 0%nat "a cat" "401 Client Error" _ _ _)); reflexivity.
Defined.

(** X26.  A prompt whose line [rich] does not take ends the batch: when
    the line printed at the start of some round (the round's number and
    the first fifty characters of its prompt) makes [console.print] raise
    [MarkupError], [process_batch] raises it and returns no results, also
    not those of the rounds before. *)
Theorem process_batch_markup_error
    (renders : string -> bool) (prompts : list string)
    (client : nat -> string -> call_result) (k : nat) (prompt : string) :
  nth_error prompts k = Some prompt ->
  renders (progress_line (length prompts) k prompt) = false ->
  snd (Rich.process_batch renders prompts client) = MarkupError.
Proof.
  intros Hk Hline.
  destruct (Rich.process_batch renders prompts client) as [printed [results|]] eqn:H;
    [|reflexivity].
  apply rich_process_batch_returned in H as [_ Hlines].
  destruct (Hlines k prompt Hk) as [Hr _]. simpl in Hr. congruence.
Qed.

Lemma process_batch_markup_error_witness :
  snd (Rich.process_batch (fun text => negb (substring_of "[/red]" text))
         ["a cat"; "a [/red] dog"]
         (fun _ _ => Returns (JObj [("sdGenerationJob",
                                     JObj [("generationId", JStr "g-1")])])))
  = MarkupError.
Proof.
  apply (process_batch_markup_error
           (fun text => negb (substring_of "[/red]" text))
           ["a cat"; "a [/red] dog"] _ 1%nat "a [/red] dog"); reflexivity.
Defined.

(** X24.  In every result of [process_batch] the status tells whether a
    generation was started: a result with a generation id has the status
    [started], and a result without one has the status [failed] or [error]
    and [None] as its generation id. *)
Theorem process_batch_status_matches_id
    (prompts : list string) (client : nat -> string -> call_result) :
  Forall
    (fun item =>
       exists id,
         get_method item (JStr "generation_id") (JStr "absent") = Ok id
         /\ if truthy id
            then get_method item (JStr "status") JNull = Ok (JStr "started")
            else id = JNull
                 /\ (get_method item (JStr "status") JNull = Ok (JStr "failed")
                     \/ get_method item (JStr "status") JNull = Ok (JStr "error")))
    (snd (process_batch prompts client)).
Proof.
  unfold process_batch. generalize (length prompts) as total. intros total.
  generalize 0%nat as i. induction prompts as [|prompt rest IH]; intros i.
  - constructor.
  - rewrite process_batch_from_cons. constructor; [|apply IH].
    unfold batch_round. destruct (batch_attempt (client i prompt)) as [text|id].
    + exists JNull. simpl. auto.
    + destruct (truthy id) eqn:Hid.
      * exists id. simpl. now rewrite Hid.
      * exists JNull. simpl. auto.
Qed.

(** ** The contrast of the Phoenix model *)

Lemma min_from_choice key items : forall best,
  min_from key best items = best \/ In (min_from key best items) items.
Proof.
  induction items as [|item rest IH]; intros best; simpl; [now left|].
  destruct (PrimFloat.ltb (key item) (key best)).
  - destruct (IH item) as [->|Hin]; right; [now left|now right].
  - destruct (IH best) as [->|Hin]; [now left|right; now right].
Qed.

Lemma valid_contrasts_in x : In x valid_contrasts -> float_in x valid_contrasts = true.
Proof.
  unfold valid_contrasts. simpl.
  intros [<-|[<-|[<-|[<-|[<-|[<-|[<-|[<-|[]]]]]]]]]; vm_compute; reflexivity.
Qed.

(** X25.  The contrast that [generate] uses for the Phoenix model is always
    one of the eight valid values 1.0, 1.3, 1.8, 2.5, 3.0, 3.5, 4.0 and 4.5,
    whatever contrast was given on the command line (none, zero, a value
    that is not a number, or any other one) and with or without
    alchemy. *)
Theorem phoenix_contrast_is_valid (contrast : option float) (alchemy : bool) :
  float_in (fst (phoenix_contrast contrast alchemy)) valid_contrasts = true.
Proof.
  unfold phoenix_contrast.
  set (given := match contrast with
                | Some c => if negb (truthy (JFloat c)) then 3.5%float else c
                | None => 3.5%float
                end).
  destruct (alchemy && PrimFloat.ltb given 2.5%float).
  - reflexivity.
  - destruct (float_in given valid_contrasts) eqn:Hin; cbn [negb fst]; [exact Hin|].
    apply valid_contrasts_in. unfold valid_contrasts. cbv iota.
    match goal with
    | |- In (min_from ?key ?first ?rest) _ =>
        destruct (min_from_choice key rest first) as [->|H]
    end.
    + now left.
    + now right.
Qed.
